(** * Automated proposal generation: the orchestration code, embedded and verified

    A shallow embedding of [assistant.py] and [proposals_function/__init__.py].
    Python [str] values are sequences of Unicode code points, [bytes] values
    are sequences of bytes, Python integers used as indexes and lengths are
    natural numbers; the remote services (the AI service, the blob store, the
    document drive) are an explicit world state behind a record of
    operations, and every call, sleep and log record the code performs is
    appended to a trace. *)

From Stdlib Require Import Strings.String Strings.Ascii Strings.Byte DecimalString.
From Stdlib Require Import Floats.PrimFloat.
From Stdlib Require Import List ZArith NArith Lia Bool Arith.
From Stdlib Require Import Sorting.Sorted Sorting.Permutation.
Import ListNotations.

Set Implicit Arguments.
Set Warnings "-notation-for-abbreviation".

(* ===================================================================== *)
(** ** Python strings *)
(* ===================================================================== *)

Module Py.

(** A Python [str]: a sequence of code points. *)
Notation codepoint := N (only parsing).
Notation str := (list N) (only parsing).

(** A string literal of the source (all of them are ASCII). *)
Definition lit (s : string) : str :=
  map N_of_ascii (list_ascii_of_string s).

(** ["\n"] *)
Definition nl : str := [10%N].

(** [str(n)] / [f"{n}"] for a non-negative integer. *)
Definition dec (n : nat) : str :=
  lit (NilEmpty.string_of_uint (Nat.to_uint n)).

Definition codepoint_eqb : codepoint -> codepoint -> bool := N.eqb.

Fixpoint str_eqb (a b : str) : bool :=
  match a, b with
  | [], [] => true
  | x :: a', y :: b' => codepoint_eqb x y && str_eqb a' b'
  | _, _ => false
  end.

Section Sequences.
Context {A : Type}.

(** [s[i:j]] for non-negative [i] and [j]: out-of-range bounds are
    clipped, and [j <= i] gives the empty sequence. *)
Definition slice (s : list A) (i j : nat) : list A :=
  firstn (j - i) (skipn i s).

(** [s[i:]] *)
Definition slice_from (s : list A) (i : nat) : list A := skipn i s.

(** [s[:j]] *)
Definition slice_to (s : list A) (j : nat) : list A := firstn j s.

(** [enumerate(l)] *)
Definition enumerate (l : list A) : list (nat * A) :=
  combine (seq 0 (length l)) l.

(** [sep.join(l)] *)
Fixpoint join (sep : list A) (l : list (list A)) : list A :=
  match l with
  | [] => []
  | [x] => x
  | x :: rest => x ++ sep ++ join sep rest
  end.
End Sequences.

(** [range(start, stop, step)] for a positive [step]: the values
    [start + k * step] below [stop]. *)
Definition range (start stop step : nat) : list nat :=
  map (fun k => start + k * step) (seq 0 ((stop - start + step - 1) / step)).

End Py.

Import Py.

(* ===================================================================== *)
(** ** Chunking and the prompt sequence ([handle_request], lines 111-122) *)
(* ===================================================================== *)

(** [chunk_size = 100000] *)
Definition chunk_size : nat := N.to_nat 100000.

(** [[file_content[i:i + chunk_size] for i in range(0, len(file_content), chunk_size)]] *)
Definition chunk_text (chunk_size : nat) (file_content : str) : list str :=
  map (fun i => slice file_content i (i + chunk_size))
      (range 0 (length file_content) chunk_size).

(** The loop [for file_content in adls_file_contents: chunks.extend(...)]. *)
Definition make_chunks (adls_file_contents : list str) : list str :=
  fold_left (fun chunks file_content => chunks ++ chunk_text chunk_size file_content)
            adls_file_contents [].

Definition ack_prompt (i : nat) (chunk : str) : str :=
  lit "Please acknowledge and save the following content chunk " ++ dec (i + 1)
    ++ lit ":" ++ nl ++ chunk.

(** Paragraphs of a fixed prompt are separated by a blank line. *)
Definition paragraphs (l : list string) : str := join (nl ++ nl) (map lit l).

Definition rfp_analysis_prompt : str := paragraphs
  [ "RFP Analysis Prompt: Please thoroughly analyze the attached RFP document, including all amendments, Q&A responses, and related attachments. Identify and extract the following key information:";
    "Customer's primary objectives and requirements";
    "Evaluation criteria and their relative weightings";
    "Submission deadlines and formatting requirements";
    "Any unique or mandatory compliance requirements";
    "Summarize your findings in a clear, concise report highlighting the most critical elements we must address to be fully responsive and compliant." ]%string.

Definition customer_problem_prompt : str := paragraphs
  [ "Customer Problem/Objective Identification Prompt: Based on your analysis of the RFP and any additional customer background information provided, identify the customer's top 3-5 problems, pain points, or strategic objectives that our solution must address to win. For each problem/objective:";
    "Describe the current situation and its negative impacts on the customer";
    "Highlight the urgency and importance of addressing it";
    "Identify any specific metrics or success criteria the customer has defined";
    "Suggest potential solution elements or approaches that could effectively tackle the problem";
    "Present your findings in a prioritized list with supporting rationale for each item." ]%string.

Definition draft_assembly_prompt : str := paragraphs
  [ "Full Proposal Draft Assembly Prompt: Please assemble the complete first draft of the proposal, integrating all AI-generated section content according to the approved outline structure. Ensure that:";
    "All sections and subsections flow logically and persuasively, with clear transitions and cross-references as needed";
    "All RFP requirements and evaluation criteria are fully addressed, with no gaps or redundancies";
    "All win themes, differentiators, and proof points are consistently messaged and mutually reinforcing across sections";
    "Continuity and consistency across all sections in terms of customer focus, tone, style, and reading level";
    "Placeholders for graphics, tables, and callout boxes are appropriate and properly formatted";
    "All required attachments, forms, and administrative elements are included and compliant";
    "Please provide a detailed table of contents and cross-reference matrix to aid in navigation and compliance reviews. Clearly label any areas requiring further SME input or validation." ]%string.

Definition final_proposal_prompt : str :=
  lit "Please, according to all consolidated info from previous prompts, create the final proposal (With right format and titles, please write titles and subtitles between **)".

Definition analysis_prompts : list str :=
  [ rfp_analysis_prompt; customer_problem_prompt; draft_assembly_prompt;
    final_proposal_prompt ].

(** The list comprehension over [enumerate(chunks)] followed by the four
    [prompts.append(...)]. *)
Definition make_prompts (chunks : list str) : list str :=
  (((map (fun ic => ack_prompt (fst ic) (snd ic)) (enumerate chunks)
     ++ [rfp_analysis_prompt]) ++ [customer_problem_prompt])
     ++ [draft_assembly_prompt]) ++ [final_proposal_prompt].


(* ===================================================================== *)
(** ** Exceptions, documents and the objects of the AI service *)
(* ===================================================================== *)

Definition bytes := list byte.

(** The exceptions the code can meet.  Every one of them is an
    [Exception], so every [except Exception] clause catches all of them. *)
Inductive exn : Type :=
| ValueError (msg : str)
| UnicodeDecodeError
| IndexError
| AttributeError (type_name attribute : string)
| UnboundLocalError (variable : string)
| RemoteError (msg : str).

(** [str(e)], as interpolated by [f"...{e}"]; the text of
    [UnicodeDecodeError] leaves out the offending byte and its position. *)
Definition exn_message (e : exn) : str :=
  match e with
  | ValueError msg => msg
  | UnicodeDecodeError => lit "'utf-8' codec can't decode bytes"
  | IndexError => lit "list index out of range"
  | AttributeError type_name attribute =>
      lit "'" ++ lit type_name ++ lit "' object has no attribute '"
        ++ lit attribute ++ lit "'"
  | UnboundLocalError v =>
      lit "cannot access local variable '" ++ lit v
        ++ lit "' where it is not associated with a value"
  | RemoteError msg => msg
  end.

(** What a call into a library or a remote service gives back. *)
Inductive result (A : Type) : Type :=
| Ok (a : A)
| Err (e : exn).
Arguments Ok {A} a.
Arguments Err {A} e.

(** python-docx: a run of text with its bold flag, a paragraph of runs, a
    heading, and a document as the sequence of its blocks. *)
Record text_run : Type := mk_run { run_text : str; run_bold : bool }.

Inductive block : Type :=
| Heading (text : str) (level : nat)
| Paragraph (runs : list text_run).

Definition Document := list block.

Definition plain (s : str) : text_run := mk_run s false.
Definition bold (s : str) : text_run := mk_run s true.

(** One block of a message's [content] list. *)
Inductive content_block : Type :=
| TextContent (value : str)
| ImageFileContent (file_id : str).

Record Message : Type := mk_message {
  message_id : str;
  role : str;
  content : list content_block;
  created_at : Z
}.

(** The statuses of a Run. *)
Inductive run_status : Type :=
| queued | in_progress | requires_action | cancelling
| cancelled | failed | completed | incomplete | expired.

Record Run : Type := mk_runobj { run_id : str; status : run_status }.

Definition status_name (s : run_status) : str :=
  match s with
  | queued => lit "queued" | in_progress => lit "in_progress"
  | requires_action => lit "requires_action" | cancelling => lit "cancelling"
  | cancelled => lit "cancelled" | failed => lit "failed"
  | completed => lit "completed" | incomplete => lit "incomplete"
  | expired => lit "expired"
  end.

(** [run.status in ['queued', 'in_progress', 'cancelling']] *)
Definition still_running (s : run_status) : bool :=
  match s with
  | queued | in_progress | cancelling => true
  | _ => false
  end.

(** [run.status != 'completed'] *)
Definition not_completed (s : run_status) : bool :=
  match s with
  | completed => false
  | _ => true
  end.

(** [message.content[0].text.value] *)
Definition first_text (m : Message) : result str :=
  match content m with
  | [] => Err IndexError
  | TextContent value :: _ => Ok value
  | ImageFileContent _ :: _ => Err (AttributeError "ImageFileContentBlock" "text")
  end.

(** [sorted(messages.data, key=lambda x: x.created_at)]: Python's sort is
    stable, so its result is the one of a stable insertion sort. *)
Fixpoint insert_by_created_at (x : Message) (l : list Message) : list Message :=
  match l with
  | [] => [x]
  | y :: l' =>
      if (created_at x <=? created_at y)%Z then x :: y :: l'
      else y :: insert_by_created_at x l'
  end.

Fixpoint sorted (l : list Message) : list Message :=
  match l with
  | [] => []
  | x :: l' => insert_by_created_at x (sorted l')
  end.

(* ===================================================================== *)
(** ** String methods used by the renderer *)
(* ===================================================================== *)

(** [s.startswith(sub)] *)
Fixpoint startswith (sub s : str) : bool :=
  match sub, s with
  | [], _ => true
  | _ :: _, [] => false
  | a :: sub', b :: s' => codepoint_eqb a b && startswith sub' s'
  end.

(** The search of [find] over the suffix of the string that starts at
    index [pos]. *)
Fixpoint find_at (sub s : str) (pos : Z) : Z :=
  if startswith sub s then pos
  else match s with
       | [] => (-1)%Z
       | _ :: s' => find_at sub s' (pos + 1)%Z
       end.

(** [s.find(sub, start)]: the lowest index at or after [start] where [sub]
    occurs, or [-1]. *)
Definition find (s sub : str) (start : nat) : Z :=
  if (start <=? length s) then find_at sub (skipn start s) (Z.of_nat start)
  else (-1)%Z.

(** [sub in s] *)
Definition contains (sub s : str) : bool := (0 <=? find s sub 0)%Z.

(** [s.split(sep)] for a separator of one character. *)
Fixpoint split (sep : codepoint) (s : str) : list str :=
  match s with
  | [] => [[]]
  | c :: s' =>
      if codepoint_eqb c sep then [] :: split sep s'
      else match split sep s' with
           | first :: rest => (c :: first) :: rest
           | [] => [[c]]
           end
  end.

(* ===================================================================== *)
(** ** Effects: the world, the trace, and the monad of the code *)
(* ===================================================================== *)

(** The calls that leave the process. *)
Inductive api_call : Type :=
| StageAttachments (attachments_folder_id : str)
| ListBlobs (prefix : str)
| DownloadBlob (blob_name : str)
| ThreadsCreate
| MessagesCreate (thread_id role content : str)
| RunsCreate (thread_id assistant_id : str)
| RunsRetrieve (thread_id run_id : str)
| MessagesList (thread_id : str)
| OnedrivePut (file_name folder_id : str) (file_stream : Document).

(** What the code does that an observer can see, in order. *)
Inductive event : Type :=
| LogInfo (msg : str)
| LogError (msg : str)
| Sleep (seconds : nat)
| Call (c : api_call).

(** The libraries the code calls into.  [unicode_lower] is the case
    mapping of [str.lower] outside ASCII; [os_path_seps] are the directory
    separators of the platform's [os.path]; the parsers give the text
    pieces the code reads off the parsed file, or raise.  [docx_add_run]
    is what python-docx does with the text given to [p.add_run(text)]: it
    gives the text the new run holds ([run.text]), or the exception raised
    for a text that cannot be stored in the document. *)
Record Libraries : Type := {
  os_path_seps : list codepoint;
  unicode_lower : codepoint -> str;
  read_excel_to_string : bytes -> result str;
  docx_paragraph_texts : bytes -> result (list str);
  pdf_page_texts : bytes -> result (list str);
  pptx_shape_texts : bytes -> result (list (list (option str)));
  convert_doc_to_docx : bytes -> result bytes;
  docx_add_run : str -> result str
}.

(** The remote services over a world state [W].  [stage_attachments]
    stands for lines 52-106 of [handle_request]: loading and validating
    the settings, acquiring the token, listing and downloading the
    attachments and archiving them; it raises when one of these steps
    does.  [onedrive_put] gives the status code of the response and the
    text of its JSON body. *)
Record Service (W : Type) : Type := {
  stage_attachments : str -> W -> W * result unit;
  list_blobs : str -> W -> W * result (list str);
  download_blob : str -> W -> W * result bytes;
  threads_create : W -> W * result str;
  messages_create : str -> str -> str -> W -> W * result Message;
  runs_create : str -> str -> W -> W * result Run;
  runs_retrieve : str -> str -> W -> W * result Run;
  messages_list : str -> W -> W * result (list Message);
  onedrive_put : str -> str -> Document -> W -> W * result (nat * str)
}.

(** How a computation ends: with a value, with an exception, or not at
    all within the poll budget. *)
Inductive outcome (A : Type) : Type :=
| Return (a : A)
| Raise (e : exn)
| OutOfFuel.
Arguments Return {A} a.
Arguments Raise {A} e.
Arguments OutOfFuel {A}.

(* ===================================================================== *)
(** ** The emphasis renderer ([add_formatted_content], lines 271-288) *)
(* ===================================================================== *)

(** ['**'] *)
Definition marker : str := lit "**".

(** [p.add_run(text)], with [.bold = True] on the new run when [bold] is
    set: the paragraph [p] gets one more run, or python-docx raises. *)
Definition add_run (libs : Libraries) (p : list text_run) (text : str) (bold : bool)
  : result (list text_run) :=
  match docx_add_run libs text with
  | Ok stored => Ok (p ++ [mk_run stored bold])
  | Err e => Err e
  end.

(** The [p.add_run(paragraph)] that follows the loop. *)
Definition add_last_run (libs : Libraries) (p : list text_run) (paragraph : str)
  : outcome (list text_run) :=
  match add_run libs p paragraph false with
  | Ok p => Return p
  | Err e => Raise e
  end.

(** The [while '**' in paragraph] loop over one paragraph and the run added
    after it: [p] holds the runs added so far.  Every turn of the loop
    shortens [paragraph], so [fuel] above its length is never used up. *)
Fixpoint add_runs (libs : Libraries) (fuel : nat) (paragraph : str) (p : list text_run)
  : outcome (list text_run) :=
  match fuel with
  | O => OutOfFuel
  | S fuel' =>
      if contains marker paragraph then
        let start_index := Z.to_nat (find paragraph marker 0) in
        let end_index := find paragraph marker (start_index + 2) in
        if (end_index =? -1)%Z then add_last_run libs p paragraph
        else
          let end_index := Z.to_nat end_index in
          match add_run libs p (slice_to paragraph start_index) false with
          | Err e => Raise e
          | Ok p =>
              match add_run libs p (slice paragraph (start_index + 2) end_index) true with
              | Err e => Raise e
              | Ok p => add_runs libs fuel' (slice_from paragraph (end_index + 2)) p
              end
          end
      else add_last_run libs p paragraph
  end.

(** The runs of one paragraph of the draft. *)
Definition format_paragraph (libs : Libraries) (paragraph : str)
  : outcome (list text_run) :=
  add_runs libs (S (length paragraph)) paragraph [].

(** The [for paragraph in paragraphs] loop. *)
Fixpoint add_paragraphs (libs : Libraries) (draft_doc : Document) (paragraphs : list str)
  : outcome Document :=
  match paragraphs with
  | [] => Return draft_doc
  | paragraph :: rest =>
      match format_paragraph libs paragraph with
      | Return runs => add_paragraphs libs (draft_doc ++ [Paragraph runs]) rest
      | Raise e => Raise e
      | OutOfFuel => OutOfFuel
      end
  end.

Definition add_formatted_content (libs : Libraries) (draft_doc : Document) (content : str)
  : outcome Document :=
  add_paragraphs libs draft_doc (split 10%N content).

Module Eff.
Section Monad.
Variable W : Type.

Record state : Type := mk_state { world : W; trace : list event }.

Definition M (A : Type) : Type := state -> state * outcome A.

Definition ret {A} (a : A) : M A := fun st => (st, Return a).

Definition bind {A B} (c : M A) (k : A -> M B) : M B :=
  fun st =>
    match c st with
    | (st', Return a) => k a st'
    | (st', Raise e) => (st', Raise e)
    | (st', OutOfFuel) => (st', OutOfFuel)
    end.

Definition raise {A} (e : exn) : M A := fun st => (st, Raise e).

Definition out_of_fuel {A} : M A := fun st => (st, OutOfFuel).

Definition emit (ev : event) : M unit :=
  fun st => (mk_state (world st) (trace st ++ [ev]), Return tt).

(** [try: body / except Exception as e: handler(e)] *)
Definition try_except {A} (body : M A) (handler : exn -> M A) : M A :=
  fun st =>
    match body st with
    | (st', Raise e) => handler e st'
    | r => r
    end.

(** A call of a remote operation: recorded, then performed on the world. *)
Definition call {A} (c : api_call) (op : W -> W * result A) : M A :=
  fun st =>
    let (w', r) := op (world st) in
    let st' := mk_state w' (trace st ++ [Call c]) in
    match r with
    | Ok a => (st', Return a)
    | Err e => (st', Raise e)
    end.

(** The value of a pure library call, or its exception. *)
Definition lift {A} (r : result A) : M A :=
  fun st => match r with Ok a => (st, Return a) | Err e => (st, Raise e) end.

(** A computation without effects that ends as [o]. *)
Definition pure {A} (o : outcome A) : M A := fun st => (st, o).

End Monad.

Arguments ret {W A} a _.
Arguments bind {W A B} c k _.
Arguments raise {W A} e _.
Arguments out_of_fuel {W A} _.
Arguments emit {W} ev _.
Arguments try_except {W A} body handler _.
Arguments call {W A} c op _.
Arguments lift {W A} r _.
Arguments pure {W A} o _.
End Eff.

Import Eff.

Declare Scope eff_scope.
Delimit Scope eff_scope with eff.
Notation "x <- c ;; k" := (bind c (fun x => k))
  (at level 61, c at next level, right associativity) : eff_scope.
Notation "c ;;; k" := (bind c (fun _ => k))
  (at level 61, right associativity) : eff_scope.
Open Scope eff_scope.

Definition logging_info {W} (msg : str) : M W unit := emit (LogInfo msg).
Definition logging_error {W} (msg : str) : M W unit := emit (LogError msg).
Definition time_sleep {W} (seconds : nat) : M W unit := emit (Sleep seconds).

(* ===================================================================== *)
(** ** The content extractor ([process_file] and its helpers, lines 222-269) *)
(* ===================================================================== *)

Definition in_range (lo hi b : N) : bool := ((lo <=? b) && (b <=? hi))%N.

(** A continuation byte of UTF-8. *)
Definition continuation (b : N) : bool := in_range 0x80 0xBF b.

Definition push (c : codepoint) (r : result str) : result str :=
  match r with
  | Ok s => Ok (c :: s)
  | Err e => Err e
  end.

(** The second byte of a three-byte sequence: no overlong forms, no
    surrogates. *)
Definition second_of_three (b0 b1 : N) : bool :=
  if (b0 =? 0xE0)%N then in_range 0xA0 0xBF b1
  else if (b0 =? 0xED)%N then in_range 0x80 0x9F b1
  else continuation b1.

(** The second byte of a four-byte sequence: no overlong forms, nothing
    above U+10FFFF. *)
Definition second_of_four (b0 b1 : N) : bool :=
  if (b0 =? 0xF0)%N then in_range 0x90 0xBF b1
  else if (b0 =? 0xF4)%N then in_range 0x80 0x8F b1
  else continuation b1.

(** [bytes.decode('utf-8')] with the default strict error handling. *)
Fixpoint utf8_decode (bs : list N) : result str :=
  match bs with
  | [] => Ok []
  | b0 :: r0 =>
    if (b0 <? 0x80)%N then push b0 (utf8_decode r0)
    else
      match r0 with
      | [] => Err UnicodeDecodeError
      | b1 :: r1 =>
        if in_range 0xC2 0xDF b0 then
          if continuation b1
          then push ((b0 - 0xC0) * 64 + (b1 - 0x80))%N (utf8_decode r1)
          else Err UnicodeDecodeError
        else
          match r1 with
          | [] => Err UnicodeDecodeError
          | b2 :: r2 =>
            if in_range 0xE0 0xEF b0 then
              if second_of_three b0 b1 && continuation b2
              then push ((b0 - 0xE0) * 4096 + (b1 - 0x80) * 64 + (b2 - 0x80))%N
                        (utf8_decode r2)
              else Err UnicodeDecodeError
            else
              match r2 with
              | [] => Err UnicodeDecodeError
              | b3 :: r3 =>
                if in_range 0xF0 0xF4 b0 && second_of_four b0 b1
                   && continuation b2 && continuation b3
                then push ((b0 - 0xF0) * 262144 + (b1 - 0x80) * 4096
                           + (b2 - 0x80) * 64 + (b3 - 0x80))%N
                          (utf8_decode r3)
                else Err UnicodeDecodeError
              end
          end
      end
  end.

Definition decode_utf8 (file_content : bytes) : result str :=
  utf8_decode (map Byte.to_N file_content).

(** [str.lower()]: ASCII letters are mapped here, the other code points by
    the case table of the library. *)
Definition lower (libs : Libraries) (s : str) : str :=
  flat_map (fun c => if (c <? 128)%N
                     then [if in_range 65 90 c then (c + 32)%N else c]
                     else unicode_lower libs c) s.

(** [s.rfind(c)] for the characters [c] accepted by [f], scanning from
    index [pos] with [best] the answer so far. *)
Fixpoint rfind_at (f : codepoint -> bool) (s : str) (pos best : Z) : Z :=
  match s with
  | [] => best
  | c :: s' => rfind_at f s' (pos + 1)%Z (if f c then pos else best)
  end.

(** [os.path.splitext(p)]: the extension starts at the last dot of the
    last path component, unless that component has only leading dots
    before it. *)
Definition splitext (libs : Libraries) (p : str) : str * str :=
  let sepIndex := rfind_at (fun c => existsb (N.eqb c) (os_path_seps libs)) p 0 (-1) in
  let dotIndex := rfind_at (N.eqb 46) p 0 (-1) in
  if (sepIndex <? dotIndex)%Z then
    if existsb (fun c => negb (c =? 46)%N)
               (slice p (Z.to_nat (sepIndex + 1)) (Z.to_nat dotIndex))
    then (slice_to p (Z.to_nat dotIndex), slice_from p (Z.to_nat dotIndex))
    else (p, [])
  else (p, []).

Section Extractor.
Variable W : Type.
Variable libs : Libraries.

Definition process_excel (file_content : bytes) : M W str :=
  try_except
    (lift (read_excel_to_string libs file_content))
    (fun e =>
       logging_error (lit "Error processing Excel file: " ++ exn_message e);;;
       ret (lit "Error processing Excel file: " ++ exn_message e)).

Definition process_word (file_content : bytes) : M W str :=
  paragraphs <- lift (docx_paragraph_texts libs file_content);;
  ret (join nl paragraphs).

Definition process_pdf (file_content : bytes) : M W str :=
  pages <- lift (pdf_page_texts libs file_content);;
  ret (fold_left (fun text page => text ++ (page ++ nl)) pages []).

Definition process_ppt (file_content : bytes) : M W str :=
  slides <- lift (pptx_shape_texts libs file_content);;
  ret (join nl (flat_map (fun shapes =>
                            flat_map (fun shape => match shape with
                                                   | Some text => [text]
                                                   | None => []
                                                   end) shapes) slides)).

Definition process_text (file_content : bytes) : M W str :=
  lift (decode_utf8 file_content).

Definition process_file (file_name : str) (file_content : bytes) : M W str :=
  let file_ext := lower libs (snd (splitext libs file_name)) in
  if str_eqb file_ext (lit ".xlsx") || str_eqb file_ext (lit ".xls") then
    process_excel file_content
  else if str_eqb file_ext (lit ".docx") || str_eqb file_ext (lit ".doc") then
    file_content <- (if str_eqb file_ext (lit ".doc")
                     then lift (convert_doc_to_docx libs file_content)
                     else ret file_content);;
    process_word file_content
  else if str_eqb file_ext (lit ".pdf") then process_pdf file_content
  else if str_eqb file_ext (lit ".pptx") then process_ppt file_content
  else if str_eqb file_ext (lit ".txt") then process_text file_content
  else ret (lit "Unsupported file type: " ++ file_ext).

Variable svc : Service W.

(** The [for blob in blob_list] loop of [download_from_adls]. *)
Fixpoint download_blobs (blob_list : list str) (file_contents : list str)
  : M W (list str) :=
  match blob_list with
  | [] => ret file_contents
  | blob_name :: rest =>
      file_content <- call (DownloadBlob blob_name) (download_blob svc blob_name);;
      text <- process_file blob_name file_content;;
      download_blobs rest (file_contents ++ [text])
  end.

Definition download_from_adls (attachments_folder_id : str) : M W (list str) :=
  let prefix := attachments_folder_id ++ lit "/" in
  blob_list <- call (ListBlobs prefix) (list_blobs svc prefix);;
  download_blobs blob_list [].

End Extractor.

(* ===================================================================== *)
(** ** The conversation orchestrator ([handle_request], lines 108-220) *)
(* ===================================================================== *)

(** The local variables the prompt loop assigns: [sorted_messages] is
    unbound ([None]) until the first prompt completes. *)
Record locals : Type := mk_locals {
  chat_doc : Document;
  sorted_messages : option (list Message)
}.

(** ["asst_Wcvq39x7iEhLkyTOxGuoMQR7"] *)
Definition assistant_id : str := lit "asst_Wcvq39x7iEhLkyTOxGuoMQR7".

(** [f"{i+1}/{len(prompts)}"] *)
Definition progress (i n : nat) : str := dec (i + 1) ++ lit "/" ++ dec n.

(** [sorted_messages[-1].content[0].text.value if sorted_messages else
    "No response available."]: the condition is read first, and reading an
    unbound local raises. *)
Definition last_response_of (sorted_messages : option (list Message)) : result str :=
  match sorted_messages with
  | None => Err (UnboundLocalError "sorted_messages")
  | Some msgs =>
      match rev msgs with
      | [] => Ok (lit "No response available.")
      | message :: _ => first_text message
      end
  end.

Section Orchestrator.
Variable W : Type.
Variable libs : Libraries.
Variable svc : Service W.

(** The submit loop [while attempt < 3 and not success], with [budget] the
    attempts left ([3 - attempt]); [None] is [success = False] at exit. *)
Fixpoint submit_attempts (budget : nat) (thread_id : str) (i n : nat) (prompt : str)
  : M W (option Message) :=
  match budget with
  | O => ret None
  | S budget' =>
      try_except
        (message <- call (MessagesCreate thread_id (lit "user") prompt)
                         (messages_create svc thread_id (lit "user") prompt);;
         logging_info (lit "Added prompt " ++ progress i n ++ lit " to thread");;;
         ret (Some message))
        (fun e =>
           logging_error (lit "Failed to add prompt " ++ progress i n
                            ++ lit " to thread: " ++ exn_message e);;;
           time_sleep 1;;;
           submit_attempts budget' thread_id i n prompt)
  end.

(** The run loop, of the same shape. *)
Fixpoint run_attempts (budget : nat) (thread_id : str) (i n : nat)
  : M W (option Run) :=
  match budget with
  | O => ret None
  | S budget' =>
      try_except
        (run <- call (RunsCreate thread_id assistant_id)
                     (runs_create svc thread_id assistant_id);;
         ret (Some run))
        (fun e =>
           logging_error (lit "Failed to run thread for prompt " ++ progress i n
                            ++ lit ": " ++ exn_message e);;;
           time_sleep 1;;;
           run_attempts budget' thread_id i n)
  end.

(** The poll loop [while run.status in [...]]: it has no bound in the
    source, [fuel] bounds the retrievals of one run here. *)
Fixpoint poll (fuel : nat) (thread_id : str) (run : Run) : M W Run :=
  if still_running (status run) then
    match fuel with
    | O => out_of_fuel
    | S fuel' =>
        time_sleep 1;;;
        run' <- call (RunsRetrieve thread_id (run_id run))
                     (runs_retrieve svc thread_id (run_id run));;
        poll fuel' thread_id run'
    end
  else ret run.

(** The [for message in sorted_messages] loop that writes the chat
    history. *)
Fixpoint add_messages (msgs : list Message) (chat_doc : Document) : M W Document :=
  match msgs with
  | [] => ret chat_doc
  | message :: rest =>
      let role := if str_eqb (role message) (lit "user")
                  then lit "User" else lit "Assistant" in
      content <- lift (first_text message);;
      p <- lift (add_run libs [] (role ++ lit ": ") true);;
      p <- lift (add_run libs p content false);;
      add_messages rest (chat_doc ++ [Paragraph p])
  end.

(** The body of [for i, prompt in enumerate(prompts)]; each [continue]
    leaves the locals as they are. *)
Definition process_prompt (fuel : nat) (thread_id : str) (n i : nat) (prompt : str)
    (loc : locals) : M W locals :=
  submitted <- submit_attempts 3 thread_id i n prompt;;
  match submitted with
  | None =>
      logging_error (lit "Giving up on prompt " ++ progress i n ++ lit ": " ++ prompt);;;
      ret loc
  | Some _ =>
      started <- run_attempts 3 thread_id i n;;
      match started with
      | None =>
          logging_error (lit "Giving up on running thread for prompt " ++ progress i n);;;
          ret loc
      | Some run =>
          run <- poll fuel thread_id run;;
          if not_completed (status run) then
            logging_error (lit "Run for question " ++ progress i n
                             ++ lit " failed with status: " ++ status_name (status run));;;
            ret loc
          else
            messages <- call (MessagesList thread_id) (messages_list svc thread_id);;
            let sorted_messages := sorted messages in
            chat_doc <- add_messages sorted_messages (chat_doc loc);;
            ret (mk_locals chat_doc (Some sorted_messages))
      end
  end.

Fixpoint prompts_loop (fuel : nat) (thread_id : str) (n : nat)
    (items : list (nat * str)) (loc : locals) : M W locals :=
  match items with
  | [] => ret loc
  | (i, prompt) :: rest =>
      loc' <- process_prompt fuel thread_id n i prompt loc;;
      prompts_loop fuel thread_id n rest loc'
  end.

(** [upload_to_onedrive], lines 314-326. *)
Definition upload_to_onedrive (file_stream : Document) (file_name folder_id : str)
  : M W unit :=
  response <- call (OnedrivePut file_name folder_id file_stream)
                   (onedrive_put svc file_name folder_id file_stream);;
  let (status_code, body) := (response : nat * str) in
  if (status_code =? 200) || (status_code =? 201) then
    logging_info (lit "File '" ++ file_name ++ lit "' uploaded successfully to OneDrive")
  else
    logging_error (lit "Failed to upload file '" ++ file_name ++ lit "' to OneDrive: "
                     ++ dec status_code);;;
    logging_error body.

(** Lines 124-217: the thread, the prompt loop, the two documents and
    their upload. *)
Definition converse (fuel : nat) (prompts : list str) (response_folder_id : str)
  : M W unit :=
  logging_info (lit "Creating thread and adding prompts");;;
  thread_id <- try_except
                 (thread_id <- call ThreadsCreate (threads_create svc);;
                  logging_info (lit "Thread created with ID: " ++ thread_id);;;
                  ret thread_id)
                 (fun e =>
                    logging_error (lit "Failed to create thread: " ++ exn_message e);;;
                    raise e);;
  loc <- prompts_loop fuel thread_id (length prompts) (enumerate prompts)
                      (mk_locals [Heading (lit "Chat History") 0] None);;
  let chat_byte_stream := chat_doc loc in
  let draft_doc := [Heading (lit "Draft Proposal") 0] in
  last_response <- lift (last_response_of (sorted_messages loc));;
  draft_byte_stream <- pure (add_formatted_content libs draft_doc last_response);;
  upload_to_onedrive chat_byte_stream (lit "chat_history.docx") response_folder_id;;;
  upload_to_onedrive draft_byte_stream (lit "draft_response.docx") response_folder_id.

(** Lines 52-122: from the attachments folder to the prompt sequence. *)
Definition ingest (attachments_folder_id : str) : M W (list str) :=
  call (StageAttachments attachments_folder_id)
       (stage_attachments svc attachments_folder_id);;;
  logging_info (lit "Downloading files from ADLS");;;
  adls_file_contents <- download_from_adls libs svc attachments_folder_id;;
  logging_info (lit "Creating chunks for each file");;;
  let chunks := make_chunks adls_file_contents in
  logging_info (lit "Preparing prompts");;;
  ret (make_prompts chunks).

Definition handle_request (fuel : nat) (attachments_folder_id response_folder_id : str)
  : M W unit :=
  try_except
    (prompts <- ingest attachments_folder_id;;
     converse fuel prompts response_folder_id)
    (fun e =>
       logging_error (lit "Error in handle_request: " ++ exn_message e);;;
       raise e).

(** [handle_request_in_background] of the trigger module: the exception of
    [handle_request] ends here, in a log record. *)
Definition handle_request_in_background (fuel : nat)
    (attachments_folder_id response_folder_id : str) : M W unit :=
  try_except
    (logging_info (lit "Background processing started for Attachments Folder ID: "
                     ++ attachments_folder_id ++ lit ", Response Folder ID: "
                     ++ response_folder_id);;;
     handle_request fuel attachments_folder_id response_folder_id;;;
     logging_info (lit "Background processing completed for Attachments Folder ID: "
                     ++ attachments_folder_id ++ lit ", Response Folder ID: "
                     ++ response_folder_id))
    (fun e =>
       logging_error (lit "Error processing request in background: " ++ exn_message e)).

End Orchestrator.

(* ===================================================================== *)
(** ** The request entry point ([proposals_function/__init__.py]) *)
(* ===================================================================== *)

(** A value of [json.loads]: a JSON object becomes a [dict], which holds
    one value per key. *)
#[local] Unset Elimination Schemes.
Inductive json : Type :=
| JNull
| JBool (b : bool)
| JInt (z : Z)
| JFloat (f : float)
| JString (s : str)
| JArray (items : list json)
| JObject (members : list (str * json)).
#[local] Set Elimination Schemes.

(** The request as [main] sees it: [req.get_json()] gives the parsed body
    or raises [ValueError]. *)
Record HttpRequest : Type := mk_request { get_json : result json }.

Record HttpResponse : Type := mk_response { body : str; status_code : nat }.

(** What [main] does besides answering. *)
Inductive trigger_event : Type :=
| InfoRecord (msg : str)
| ErrorRecord (msg : str)
| ThreadStart (attachments_folder_id response_folder_id : json).

(** [d.get(key)] on a dict; the [None] of a missing key is [JNull]. *)
Fixpoint dict_get (members : list (str * json)) (key : str) : json :=
  match members with
  | [] => JNull
  | (k, v) :: rest => if str_eqb k key then v else dict_get rest key
  end.

(** [type(v).__name__] *)
Definition type_name_of (v : json) : string :=
  match v with
  | JNull => "NoneType"
  | JBool _ => "bool"
  | JInt _ => "int"
  | JFloat _ => "float"
  | JString _ => "str"
  | JArray _ => "list"
  | JObject _ => "dict"
  end.

(** [req_body.get(key)]: only a dict has the method. *)
Definition body_get (req_body : json) (key : str) : result json :=
  match req_body with
  | JObject members => Ok (dict_get members key)
  | _ => Err (AttributeError (type_name_of req_body) "get")
  end.

(** The truth value of a Python object ([not v] is its negation). *)
Definition truthy (v : json) : bool :=
  match v with
  | JNull => false
  | JBool b => b
  | JInt z => negb (z =? 0)%Z
  | JFloat f => negb (PrimFloat.eqb f 0%float)
  | JString s => negb (Nat.eqb (length s) 0)
  | JArray items => negb (Nat.eqb (length items) 0)
  | JObject members => negb (Nat.eqb (length members) 0)
  end.

Definition main (req : HttpRequest) : list trigger_event * HttpResponse :=
  let log := [InfoRecord (lit "Python HTTP trigger function processed a request.")] in
  let failed e :=
    (log ++ [ErrorRecord (lit "Error processing request: " ++ exn_message e)],
     mk_response (lit "An error occurred. Check logs for details.") 500) in
  match get_json req with
  | Err e => failed e
  | Ok req_body =>
    match body_get req_body (lit "attachments_folder_id") with
    | Err e => failed e
    | Ok attachments_folder_id =>
      match body_get req_body (lit "response_folder_id") with
      | Err e => failed e
      | Ok response_folder_id =>
        if negb (truthy attachments_folder_id) || negb (truthy response_folder_id) then
          (log ++ [ErrorRecord (lit "Missing folder IDs in the request body.")],
           mk_response (lit "Missing folder IDs in the request body.") 400)
        else
          (log ++ [ThreadStart attachments_folder_id response_folder_id],
           mk_response
             (lit "The function is processing in the background. Check logs for details.")
             202)
      end
    end
  end.

(* ===================================================================== *)
(** ** From the settings to the archive ([get_access_token],
       [handle_request] lines 52-106, [upload_to_adls]) *)
(* ===================================================================== *)

(** [s.endswith(suffix)] *)
Definition endswith (s suffix : str) : bool :=
  (length suffix <=? length s) && str_eqb (skipn (length s - length suffix) s) suffix.

(** [file_name.lower().endswith('.doc')] *)
Definition is_doc (libs : Libraries) (file_name : str) : bool :=
  endswith (lower libs file_name) (lit ".doc").

(** The name under which a file is archived: [file_name[:-4] + '.docx'] for
    a [.doc] file, the name itself otherwise. *)
Definition archive_name (libs : Libraries) (file_name : str) : str :=
  if is_doc libs file_name
  then slice_to file_name (length file_name - 4) ++ lit ".docx"
  else file_name.

Module Upstream.

(** The exceptions of this part of the code: those of [exn], a plain
    [Exception] with its message, and the errors of indexing and of
    iterating a JSON value of the wrong shape. *)
Inductive error : Type :=
| Builtin (e : exn)
| PlainException (msg : str)
| KeyError (key : str)
| TypeError (type_name : string).

Definition error_message (e : error) : str :=
  match e with
  | Builtin e => exn_message e
  | PlainException msg => msg
  | KeyError key => lit "'" ++ key ++ lit "'"
  | TypeError type_name => lit "'" ++ lit type_name ++ lit "' object is not usable here"
  end.

Inductive answer (A : Type) : Type :=
| Fine (a : A)
| Failed (e : error).
Arguments Fine {A} a.
Arguments Failed {A} e.

(** A response of [requests.get]. *)
Record Response : Type := mk_http {
  resp_status : nat;
  resp_text : str;
  resp_json : answer json;
  resp_content : bytes
}.

(** The calls that leave the process, and the events of a trace. *)
Inductive remote : Type :=
| AcquireToken (client_id authority scope : str)
| HttpGet (url authorization : str)
| BlobClient (account container blob_name : str)
| UploadBlob (blob_name : str) (file_content : bytes).

Inductive happening : Type :=
| Info (msg : str)
| Error (msg : str)
| Remote (c : remote).

(** The platform: the environment after [load_dotenv()], the identity
    provider, the HTTP client, the blob SDK, [jwt.decode], and the text
    that [str()] gives for a JSON value that is not a string. *)
Record Platform (W : Type) : Type := {
  getenv : string -> W -> option str;
  acquire_token_for_client : str -> str -> str -> str -> W -> W * answer (list (str * json));
  jwt_decode : json -> answer str;
  requests_get : str -> str -> W -> W * answer Response;
  get_blob_client : str -> str -> str -> W -> W * answer unit;
  upload_blob : str -> bytes -> W -> W * answer unit;
  str_of_value : json -> str
}.

Inductive ending (A : Type) : Type :=
| Returns (a : A)
| Raises (e : error).
Arguments Returns {A} a.
Arguments Raises {A} e.

Section Steps.
Variable W : Type.
Variable libs : Libraries.
Variable platform : Platform W.

Record situation : Type := mk_situation { world : W; happened : list happening }.

Definition Step (A : Type) : Type := situation -> situation * ending A.

Definition ret {A} (a : A) : Step A := fun s => (s, Returns a).

Definition raise {A} (e : error) : Step A := fun s => (s, Raises e).

Definition bind {A B} (c : Step A) (k : A -> Step B) : Step B :=
  fun s =>
    match c s with
    | (s', Returns a) => k a s'
    | (s', Raises e) => (s', Raises e)
    end.

Definition note (h : happening) : Step unit :=
  fun s => (mk_situation (world s) (happened s ++ [h]), Returns tt).

Definition try_except {A} (body : Step A) (handler : error -> Step A) : Step A :=
  fun s =>
    match body s with
    | (s', Raises e) => handler e s'
    | r => r
    end.

Definition call {A} (c : remote) (op : W -> W * answer A) : Step A :=
  fun s =>
    let (w', r) := op (world s) in
    let s' := mk_situation w' (happened s ++ [Remote c]) in
    match r with
    | Fine a => (s', Returns a)
    | Failed e => (s', Raises e)
    end.

Definition lift {A} (r : answer A) : Step A :=
  fun s => match r with Fine a => (s, Returns a) | Failed e => (s, Raises e) end.

(** [f"{v}"] *)
Definition fmt (v : json) : str :=
  match v with
  | JString s => s
  | _ => str_of_value platform v
  end.

(** [not value] for a setting. *)
Definition unset (value : option str) : bool :=
  match value with
  | None => true
  | Some [] => true
  | Some (_ :: _) => false
  end.

Definition setting (value : option str) : str :=
  match value with
  | Some s => s
  | None => []
  end.

(** [key in d] and [d[key]] on a dict. *)
Fixpoint dict_lookup (members : list (str * json)) (key : str) : option json :=
  match members with
  | [] => None
  | (k, v) :: rest => if str_eqb k key then Some v else dict_lookup rest key
  end.

(** [v[key]] for a string key. *)
Definition subscript (v : json) (key : str) : answer json :=
  match v with
  | JObject members =>
      match dict_lookup members key with
      | Some x => Fine x
      | None => Failed (KeyError key)
      end
  | _ => Failed (TypeError (type_name_of v))
  end.

(** The values a [for] loop takes from [v]. *)
Definition iterate (v : json) : answer (list json) :=
  match v with
  | JArray items => Fine items
  | JObject members => Fine (map (fun kv => JString (fst kv)) members)
  | JString s => Fine (map (fun c => JString [c]) s)
  | _ => Failed (TypeError (type_name_of v))
  end.

(** [response.json().get('value', [])] *)
Definition listed_files (body : json) : answer json :=
  match body with
  | JObject members =>
      match dict_lookup members (lit "value") with
      | Some files => Fine files
      | None => Fine (JArray [])
      end
  | _ => Failed (Builtin (AttributeError (type_name_of body) "get"))
  end.

Definition get_access_token (client_id client_secret tenant_id scope : str) : Step json :=
  let authority := lit "https://login.microsoftonline.com/" ++ tenant_id in
  bind (call (AcquireToken client_id authority scope)
             (acquire_token_for_client platform client_id client_secret authority scope))
       (fun result =>
  match dict_lookup result (lit "access_token") with
  | None => raise (PlainException (lit "Could not obtain access token for scope: " ++ scope))
  | Some access_token =>
      bind (note (Info (lit "Obtained access token for scope " ++ scope ++ lit ": "
                          ++ fmt access_token))) (fun _ =>
      bind (lift (jwt_decode platform access_token)) (fun token_info =>
      bind (note (Info (lit "Token info for scope " ++ scope ++ lit ": " ++ token_info)))
           (fun _ => ret access_token)))
  end).

Definition upload_to_adls (file_name : str) (file_content : bytes)
    (attachments_folder_id adls_account_name adls_container_name : str) : Step unit :=
  let blob_name := attachments_folder_id ++ lit "/" ++ file_name in
  bind (call (BlobClient adls_account_name adls_container_name blob_name)
             (get_blob_client platform adls_account_name adls_container_name blob_name))
       (fun _ =>
  try_except
    (bind (call (UploadBlob blob_name file_content)
                (upload_blob platform blob_name file_content)) (fun _ =>
     note (Info (lit "File '" ++ file_name ++ lit "' uploaded successfully to ADLS"))))
    (fun e => note (Error (lit "Failed to upload " ++ file_name ++ lit " to ADLS: "
                             ++ error_message e)))).

(** [file_name.lower()] exists on a string only. *)
Definition name_text (file_name : json) : answer str :=
  match file_name with
  | JString s => Fine s
  | _ => Failed (Builtin (AttributeError (type_name_of file_name) "lower"))
  end.

(** The body of [for file in files], lines 95-106. *)
Definition archive_file (file : json) (authorization drive_id attachments_folder_id
    adls_account_name adls_container_name : str) : Step unit :=
  bind (lift (subscript file (lit "name"))) (fun file_name =>
  bind (lift (subscript file (lit "id"))) (fun file_id =>
  let download_url := lit "https://graph.microsoft.com/v1.0/drives/" ++ drive_id
                        ++ lit "/items/" ++ fmt file_id ++ lit "/content" in
  bind (call (HttpGet download_url authorization)
             (requests_get platform download_url authorization)) (fun file_response =>
  if resp_status file_response =? 200 then
    bind (lift (name_text file_name)) (fun name =>
    bind (if is_doc libs name
          then match convert_doc_to_docx libs (resp_content file_response) with
               | Ok docx => ret (archive_name libs name, docx)
               | Err e => raise (Builtin e)
               end
          else ret (archive_name libs name, resp_content file_response))
         (fun named =>
    upload_to_adls (fst named) (snd named) attachments_folder_id
                   adls_account_name adls_container_name))
  else
    note (Error (lit "Failed to download file '" ++ fmt file_name ++ lit "': "
                   ++ dec (resp_status file_response)))))).

Fixpoint archive_files (files : list json) (authorization drive_id attachments_folder_id
    adls_account_name adls_container_name : str) : Step unit :=
  match files with
  | [] => ret tt
  | file :: rest =>
      bind (archive_file file authorization drive_id attachments_folder_id
                         adls_account_name adls_container_name) (fun _ =>
      archive_files rest authorization drive_id attachments_folder_id
                    adls_account_name adls_container_name)
  end.

(** The three messages of the validation of the settings. *)
Definition missing_openai : str :=
  lit "Missing required environment variables for OpenAI. Please check your .env file.".
Definition missing_graph : str :=
  lit "Missing required environment variables for Microsoft Graph. Please check your .env file.".
Definition missing_adls : str :=
  lit "Missing required environment variables for ADLS. Please check your .env file.".

Definition graph_scope : str := lit "https://graph.microsoft.com/.default".

(** Lines 52-106 of [handle_request].  [create_openai_client] builds the
    client object of the AI service and calls nothing. *)
Definition stage (attachments_folder_id response_folder_id : str) : Step unit :=
  bind (note (Info (lit "Attachments Folder ID: " ++ attachments_folder_id))) (fun _ =>
  bind (note (Info (lit "Response Folder ID: " ++ response_folder_id))) (fun _ =>
  fun s =>
  let env name := getenv platform name (world s) in
  let api_key := env "AZURE_OPENAI_API_KEY"%string in
  let azure_endpoint := env "AZURE_OPENAI_ENDPOINT"%string in
  let client_id := env "MS_GRAPH_CLIENT_ID"%string in
  let client_secret := env "MS_GRAPH_CLIENT_SECRET"%string in
  let tenant_id := env "MS_GRAPH_TENANT_ID"%string in
  let drive_id := env "MS_GRAPH_DRIVE_ID"%string in
  let adls_account_name := env "ADLS_ACCOUNT_NAME"%string in
  let adls_container_name := env "ADLS_CONTAINER_NAME"%string in
  (if unset api_key || unset azure_endpoint then
     raise (Builtin (ValueError missing_openai))
   else if unset client_id || unset client_secret || unset tenant_id || unset drive_id then
     raise (Builtin (ValueError missing_graph))
   else if unset adls_account_name || unset adls_container_name then
     raise (Builtin (ValueError missing_adls))
   else
     bind (get_access_token (setting client_id) (setting client_secret)
                            (setting tenant_id) graph_scope) (fun graph_access_token =>
     bind (note (Info (lit "Listing files in the Attachments folder"))) (fun _ =>
     let authorization := lit "Bearer " ++ fmt graph_access_token in
     let list_files_url := lit "https://graph.microsoft.com/v1.0/drives/"
                             ++ setting drive_id ++ lit "/items/"
                             ++ attachments_folder_id ++ lit "/children" in
     bind (call (HttpGet list_files_url authorization)
                (requests_get platform list_files_url authorization)) (fun response =>
     if negb (resp_status response =? 200) then
       raise (PlainException (lit "Failed to list files in the Attachments folder: "
                                ++ dec (resp_status response) ++ lit " "
                                ++ resp_text response))
     else
       bind (lift (resp_json response)) (fun body =>
       bind (lift (listed_files body)) (fun files =>
       bind (lift (iterate files)) (fun files =>
       archive_files files authorization (setting drive_id) attachments_folder_id
                     (setting adls_account_name) (setting adls_container_name)))))))) s)).

End Steps.

Arguments ret {W A} a _.
Arguments raise {W A} e _.
Arguments bind {W A B} c k _.
Arguments note {W} h _.
Arguments try_except {W A} body handler _.
Arguments call {W A} c op _.
Arguments lift {W A} r _.

(** The remote calls of a trace, the HTTP requests among them and the
    blobs uploaded. *)
Definition remotes (tr : list happening) : list remote :=
  flat_map (fun h => match h with Remote c => [c] | _ => [] end) tr.

Definition requested (tr : list happening) : list str :=
  flat_map (fun h => match h with Remote (HttpGet url _) => [url] | _ => [] end) tr.

Definition archived (tr : list happening) : list (str * bytes) :=
  flat_map (fun h => match h with
                     | Remote (UploadBlob blob_name file_content) =>
                         [(blob_name, file_content)]
                     | _ => []
                     end) tr.

Definition errors_logged (tr : list happening) : list str :=
  flat_map (fun h => match h with Error msg => [msg] | _ => [] end) tr.

(** Whether the eight settings are all set. *)
Definition settings_complete {W} (platform : Platform W) (w : W) : bool :=
  forallb (fun name => negb (unset (getenv platform name w)))
          [ "AZURE_OPENAI_API_KEY"; "AZURE_OPENAI_ENDPOINT"; "MS_GRAPH_CLIENT_ID";
            "MS_GRAPH_CLIENT_SECRET"; "MS_GRAPH_TENANT_ID"; "MS_GRAPH_DRIVE_ID";
            "ADLS_ACCOUNT_NAME"; "ADLS_CONTAINER_NAME" ]%string.

End Upstream.

(* ===================================================================== *)
(** ** A scripted service, to run the code on *)
(* ===================================================================== *)

Module Mock.

(** The world of the scripted service: the messages of the one thread,
    newest first as the service lists them; a clock for creation times;
    whether message and run creation work; the final statuses of the runs
    to come; and how many retrievals the running run still answers with
    [in_progress]. *)
Record world : Type := mk_world {
  clock : Z;
  thread : list Message;
  submit_works : bool;
  run_works : bool;
  script : list run_status;
  current : run_status;
  pending : nat;
  delay : nat;
  blobs : list (str * bytes)
}.

Definition post (r : str) (text : str) (w : world) : world :=
  mk_world (clock w + 1)
           (mk_message (lit "msg_" ++ dec (length (thread w))) r
                       [TextContent text] (clock w) :: thread w)
           (submit_works w) (run_works w) (script w) (current w) (pending w)
           (delay w) (blobs w).

Definition start_run (w : world) : world :=
  mk_world (clock w) (thread w) (submit_works w) (run_works w)
           (tl (script w)) (hd completed (script w)) (delay w) (delay w) (blobs w).

Definition tick (w : world) : world :=
  mk_world (clock w) (thread w) (submit_works w) (run_works w)
           (script w) (current w) (pred (pending w)) (delay w) (blobs w).

Definition finish (w : world) : world :=
  match current w with
  | completed => post (lit "assistant") (lit "reply " ++ dec (length (thread w))) w
  | _ => w
  end.

Fixpoint lookup_blob (l : list (str * bytes)) (name : str) : result bytes :=
  match l with
  | [] => Err (RemoteError (lit "BlobNotFound"))
  | (k, v) :: rest => if str_eqb k name then Ok v else lookup_blob rest name
  end.

Definition service : Service world := {|
  stage_attachments := fun _ w => (w, Ok tt);
  list_blobs := fun _ w => (w, Ok (map fst (blobs w)));
  download_blob := fun name w => (w, lookup_blob (blobs w) name);
  threads_create := fun w => (w, Ok (lit "thread_1"));
  messages_create := fun _ r text w =>
    if submit_works w
    then (post r text w,
          Ok (mk_message (lit "msg_" ++ dec (length (thread w))) r
                         [TextContent text] (clock w)))
    else (w, Err (RemoteError (lit "Connection error.")));
  runs_create := fun _ _ w =>
    if run_works w
    then (start_run w, Ok (mk_runobj (lit "run_1") queued))
    else (w, Err (RemoteError (lit "Connection error.")));
  runs_retrieve := fun _ rid w =>
    match pending w with
    | O => (finish w, Ok (mk_runobj rid (current w)))
    | S _ => (tick w, Ok (mk_runobj rid in_progress))
    end;
  messages_list := fun _ w => (w, Ok (thread w));
  onedrive_put := fun _ _ _ w => (w, Ok (201, lit "{}"))
|}.

(** The same service with the AI endpoint down: every creation of a
    message or of a run raises, whatever the world. *)
Definition offline : Service world := {|
  stage_attachments := stage_attachments service;
  list_blobs := list_blobs service;
  download_blob := download_blob service;
  threads_create := threads_create service;
  messages_create := fun _ _ _ w => (w, Err (RemoteError (lit "Connection error.")));
  runs_create := fun _ _ w => (w, Err (RemoteError (lit "Connection error.")));
  runs_retrieve := runs_retrieve service;
  messages_list := messages_list service;
  onedrive_put := onedrive_put service
|}.

(** A document library that rejects a text with a control character other
    than tab, line feed and carriage return, and stores a carriage return
    as a line break. *)
Definition storable (c : codepoint) : bool :=
  (c =? 9)%N || (c =? 10)%N || (c =? 13)%N || (32 <=? c)%N.

Definition store_text (text : str) : result str :=
  if forallb storable text
  then Ok (map (fun c => if (c =? 13)%N then 10%N else c) text)
  else Err (ValueError (lit "All strings must be XML compatible: Unicode or ASCII, no NULL bytes or control characters")).

(** POSIX paths, identity case mapping outside ASCII, parsers that
    reject every file, and that document library. *)
Definition libraries : Libraries := {|
  os_path_seps := [47%N];
  unicode_lower := fun c => [c];
  read_excel_to_string := fun _ => Err (ValueError (lit "Excel file format cannot be determined"));
  docx_paragraph_texts := fun _ => Err (ValueError (lit "File is not a zip file"));
  pdf_page_texts := fun _ => Err (ValueError (lit "No /Root object! - Is this really a PDF?"));
  pptx_shape_texts := fun _ => Err (ValueError (lit "File is not a zip file"));
  convert_doc_to_docx := fun _ => Err (RemoteError (lit "Word.Application: open failed"));
  docx_add_run := store_text
|}.

(** A world in which every call works and every run completes after one
    [in_progress] answer. *)
Definition healthy (files : list (str * bytes)) : world :=
  mk_world 1 [] true true [] completed 0 1 files.

(** A world in which message creation always raises. *)
Definition unreachable : world :=
  mk_world 1 [] false false [] completed 0 0 [].

(** A world in which the runs end with the statuses of [statuses], then
    [completed]. *)
Definition scripted (statuses : list run_status) : world :=
  mk_world 1 [] true true statuses completed 0 0 [].

Definition start (w : world) : state world := mk_state w [].

End Mock.

(** Observations on a trace: the kind of each event, and how many events
    of one kind a trace holds. *)
Inductive kind : Type :=
| KLogInfo | KLogError | KSleep
| KStageAttachments | KListBlobs | KDownloadBlob | KThreadsCreate
| KMessagesCreate | KRunsCreate | KRunsRetrieve | KMessagesList | KOnedrivePut.

Definition kind_of (ev : event) : kind :=
  match ev with
  | LogInfo _ => KLogInfo
  | LogError _ => KLogError
  | Sleep _ => KSleep
  | Call (StageAttachments _) => KStageAttachments
  | Call (ListBlobs _) => KListBlobs
  | Call (DownloadBlob _) => KDownloadBlob
  | Call ThreadsCreate => KThreadsCreate
  | Call (MessagesCreate _ _ _) => KMessagesCreate
  | Call (RunsCreate _ _) => KRunsCreate
  | Call (RunsRetrieve _ _) => KRunsRetrieve
  | Call (MessagesList _) => KMessagesList
  | Call (OnedrivePut _ _ _) => KOnedrivePut
  end.

Definition kind_eqb (a b : kind) : bool :=
  match a, b with
  | KLogInfo, KLogInfo | KLogError, KLogError | KSleep, KSleep
  | KStageAttachments, KStageAttachments | KListBlobs, KListBlobs
  | KDownloadBlob, KDownloadBlob | KThreadsCreate, KThreadsCreate
  | KMessagesCreate, KMessagesCreate | KRunsCreate, KRunsCreate
  | KRunsRetrieve, KRunsRetrieve | KMessagesList, KMessagesList
  | KOnedrivePut, KOnedrivePut => true
  | _, _ => false
  end.

(** The weight of a trace, for a weight given to each kind of event. *)
Definition total (w : kind -> nat) (tr : list event) : nat :=
  list_sum (map (fun ev => w (kind_of ev)) tr).

Definition only (k : kind) : kind -> nat :=
  fun k' => if kind_eqb k' k then 1 else 0.

(** The number of events of kind [k]. *)
Definition count (k : kind) (tr : list event) : nat := total (only k) tr.

(** The documents put on the drive, with their names, in order. *)
Definition uploads (tr : list event) : list (str * Document) :=
  flat_map (fun ev => match ev with
                      | Call (OnedrivePut file_name _ doc) => [(file_name, doc)]
                      | _ => []
                      end) tr.

(** The events of a failed attempt to submit, of a failed attempt to
    start a run, and of the attempt that ends a retry loop. *)
Definition failed_submit (thread_id : str) (i n : nat) (prompt : str) (e : exn)
  : list event :=
  [ Call (MessagesCreate thread_id (lit "user") prompt);
    LogError (lit "Failed to add prompt " ++ progress i n
                ++ lit " to thread: " ++ exn_message e);
    Sleep 1 ].

Definition submitted (thread_id : str) (i n : nat) (prompt : str)
    (res : option Message) : list event :=
  match res with
  | Some _ => [ Call (MessagesCreate thread_id (lit "user") prompt);
                LogInfo (lit "Added prompt " ++ progress i n ++ lit " to thread") ]
  | None => []
  end.

Definition failed_run (thread_id : str) (i n : nat) (e : exn) : list event :=
  [ Call (RunsCreate thread_id assistant_id);
    LogError (lit "Failed to run thread for prompt " ++ progress i n
                ++ lit ": " ++ exn_message e);
    Sleep 1 ].

Definition started (thread_id : str) (res : option Run) : list event :=
  match res with
  | Some _ => [ Call (RunsCreate thread_id assistant_id) ]
  | None => []
  end.

(** The state after one more event. *)
Definition record {W} (ev : event) (st : state W) : state W :=
  mk_state (world st) (trace st ++ [ev]).

Section TraceBounds.
Variable W : Type.

(** Whatever the world answers, [c] adds events of weight at most [n] to
    the trace, and takes none away. *)
Definition bounded {A} (w : kind -> nat) (n : nat) (c : M W A) : Prop :=
  forall st, exists delta,
    trace (fst (c st)) = trace st ++ delta /\ total w delta <= n.

End TraceBounds.

(* ===================================================================== *)
(** ** The vocabulary of the statements *)
(* ===================================================================== *)

(** The windows of width [size] at offsets [0, size, 2 size, ...]. *)
Definition windows {A} (size : nat) (s : list A) (m : nat) : list (list A) :=
  map (fun k => firstn size (skipn (k * size) s)) (seq 0 m).

(** The number of values of [range(0, n, size)]. *)
Definition chunk_count (size n : nat) : nat := (n + size - 1) / size.

(** The claim's reading of the markup, stated on its own: the paragraph
    is cut at each [**] met from the left ([spec_segments]), and the
    segments are paired up from the left ([spec_runs]): of every pair of
    markers the text between them is bold, the text outside is plain, and
    a last marker without a partner stays in the text as it is. *)
Definition push_head (c : codepoint) (segments : list str) : list str :=
  match segments with
  | first :: rest => (c :: first) :: rest
  | [] => [[c]]
  end.

(** The asterisk is code point 42. *)
Fixpoint spec_segments (s : str) : list str :=
  match s with
  | [] => [[]]
  | c :: r =>
      match r with
      | c2 :: rest =>
          if (N.eqb c 42 && N.eqb c2 42)%bool then [] :: spec_segments rest
          else push_head c (spec_segments r)
      | [] => push_head c (spec_segments r)
      end
  end.

Fixpoint spec_runs (segments : list str) : list text_run :=
  match segments with
  | [] => []
  | [only] => [plain only]
  | before :: inside :: rest =>
      match rest with
      | [] => [plain (before ++ marker ++ inside)]
      | _ :: _ => plain before :: bold inside :: spec_runs rest
      end
  end.

(** Runs that take the segments one by one, plain and bold in turn. *)
Fixpoint alternate (emphasis : bool) (segments : list str) : list text_run :=
  match segments with
  | [] => []
  | s :: rest => mk_run s emphasis :: alternate (negb emphasis) rest
  end.

(** What a paragraph holds once the runs [runs] have been handed to the
    document library from the left: each run with the text the library
    stored for it, or the exception of the first text it rejects. *)
Fixpoint store_runs (libs : Libraries) (runs : list text_run) : result (list text_run) :=
  match runs with
  | [] => Ok []
  | r :: rest =>
      match docx_add_run libs (run_text r) with
      | Err e => Err e
      | Ok stored =>
          match store_runs libs rest with
          | Ok kept => Ok (mk_run stored (run_bold r) :: kept)
          | Err e => Err e
          end
      end
  end.

(** The same for the paragraphs of a document, from the first one on. *)
Fixpoint store_paragraphs (libs : Libraries) (paragraphs : list (list text_run))
  : result (list block) :=
  match paragraphs with
  | [] => Ok []
  | runs :: rest =>
      match store_runs libs runs with
      | Err e => Err e
      | Ok kept =>
          match store_paragraphs libs rest with
          | Ok blocks => Ok (Paragraph kept :: blocks)
          | Err e => Err e
          end
      end
  end.

(** The runs the claim's reading gives for a content: line by line. *)
Definition draft_runs (content : str) : list (list text_run) :=
  map (fun line => spec_runs (spec_segments line)) (split 10%N content).

(** The library stores the text of each of these runs as it is. *)
Definition stored_as_given (libs : Libraries) (runs : list text_run) : Prop :=
  Forall (fun r => docx_add_run libs (run_text r) = Ok (run_text r)) runs.

(** The end of a call that appends to [before] what a library gave. *)
Definition appended {A} (before : list A) (r : result (list A)) : outcome (list A) :=
  match r with
  | Ok added => Return (before ++ added)
  | Err e => Raise e
  end.

(** The weight of one turn of the submit loop, of the run loop and of
    the poll loop. *)
Definition submit_turn (w : kind -> nat) : nat :=
  w KMessagesCreate + w KLogInfo + w KLogError + w KSleep.

Definition run_turn (w : kind -> nat) : nat := w KRunsCreate + w KLogError + w KSleep.

Definition poll_turn (w : kind -> nat) : nat := w KSleep + w KRunsRetrieve.

(** The weight of one prompt at most, and of a whole prompt loop. *)
Definition prompt_turn (w : kind -> nat) (fuel : nat) : nat :=
  3 * submit_turn w + 3 * run_turn w + fuel * poll_turn w + w KLogError + w KMessagesList.

(** The calls made by a retry loop that met [errors] and ended with [res]. *)
Definition attempts {A} (errors : list exn) (res : option A) : nat :=
  length errors + match res with Some _ => 1 | None => 0 end.

Definition earlier (a b : Message) : Prop := (created_at a <= created_at b)%Z.

(** The paragraph the chat history gets for one message. *)
Definition chat_paragraph (m : Message) : block :=
  Paragraph [ bold ((if str_eqb (role m) (lit "user")
                     then lit "User" else lit "Assistant") ++ lit ": ");
              plain (match first_text m with Ok value => value | Err _ => [] end) ].

(** The two runs handed to the document library for one message. *)
Definition chat_runs (m : Message) : list text_run :=
  [ bold ((if str_eqb (role m) (lit "user")
           then lit "User" else lit "Assistant") ++ lit ": ");
    plain (match first_text m with Ok value => value | Err _ => [] end) ].

(** The paragraphs the chat history gets for the messages [msgs], taken
    from the first one on: the exception of the first message without a
    leading text block, or of the first text the library rejects. *)
Fixpoint write_messages (libs : Libraries) (msgs : list Message) : result (list block) :=
  match msgs with
  | [] => Ok []
  | m :: rest =>
      match first_text m with
      | Err e => Err e
      | Ok _ =>
          match store_runs libs (chat_runs m) with
          | Err e => Err e
          | Ok kept =>
              match write_messages libs rest with
              | Ok blocks => Ok (Paragraph kept :: blocks)
              | Err e => Err e
              end
          end
      end
  end.

(** A paragraph of the chat history: the two runs of some message, as
    the library stored them. *)
Definition message_paragraph (libs : Libraries) (b : block) : Prop :=
  exists m kept, store_runs libs (chat_runs m) = Ok kept /\ b = Paragraph kept.

(** A message with a leading text block whose runs the library stores as
    they are. *)
Definition readable (libs : Libraries) (m : Message) : Prop :=
  (exists value, first_text m = Ok value) /\ stored_as_given libs (chat_runs m).


(** The two blobs of a folder whose first file is not valid UTF-8. *)
Definition one_bad_text_file : list (str * bytes) :=
  [ (lit "A/notes.txt", [xff]);
    (lit "A/terms.txt", [x6f; x6b]) ].

(** The background threads [main] starts. *)
Definition dispatched (events : list trigger_event) : list (json * json) :=
  flat_map (fun ev => match ev with
                      | ThreadStart a r => [(a, r)]
                      | _ => []
                      end) events.

(** The claim's reading of a request body: a folder-id field is missing
    when the body has no such member, and empty when its value is null or
    an empty string, array or object. *)
Fixpoint has_key (members : list (str * json)) (key : str) : bool :=
  match members with
  | [] => false
  | (k, _) :: rest => str_eqb k key || has_key rest key
  end.

Definition is_empty (v : json) : bool :=
  match v with
  | JNull | JString [] | JArray [] | JObject [] => true
  | _ => false
  end.

Definition missing_or_empty (req_body : json) (key : str) : bool :=
  match req_body with
  | JObject members =>
      if has_key members key then is_empty (dict_get members key) else true
  | _ => true
  end.

Definition status_of (req : HttpRequest) : nat := status_code (snd (main req)).

(** The text a list of runs stands for, with the markers of the bold runs
    put back, and the text of a block. *)
Definition unrender (runs : list text_run) : str :=
  flat_map (fun r => if run_bold r then marker ++ run_text r ++ marker
                     else run_text r) runs.

Definition unrender_block (b : block) : str :=
  match b with
  | Paragraph runs => unrender runs
  | Heading text _ => text
  end.

(** Runs that start plain, end plain, and change emphasis at each step. *)
Definition plain_bold_plain (runs : list text_run) : Prop :=
  runs = alternate false (map run_text runs) /\ Nat.odd (length runs) = true.

(** The number of line breaks of a text. *)
Definition line_breaks (s : str) : nat := count_occ N.eq_dec s 10%N.

(** The messages created at time [t], in the order of the list. *)
Definition created_at_time (t : Z) (l : list Message) : list Message :=
  filter (fun m => (created_at m =? t)%Z) l.

(** A Unicode scalar value: a code point that is not a surrogate. *)
Definition scalar_value (c : codepoint) : Prop :=
  (c < 0x110000 /\ ~ (0xD800 <= c <= 0xDFFF))%N.

(** The events of polling the runs [polled], one sleep and one retrieval
    each. *)
Definition poll_trace (thread_id : str) (polled : list Run) : list event :=
  flat_map (fun run => [Sleep 1; Call (RunsRetrieve thread_id (run_id run))]) polled.

(** The run objects polled, in order: the first is [run], the retrieval
    of each is answered with the next one, that of the last with [r], and
    the retrievals take the world from [w] to [w']. *)
Fixpoint answered {W} (svc : Service W) (thread_id : str) (polled : list Run)
    (run : Run) (w : W) (r : Run) (w' : W) : Prop :=
  match polled with
  | [] => r = run /\ w' = w
  | p :: rest =>
      p = run
      /\ exists w1 next,
           runs_retrieve svc thread_id (run_id run) w = (w1, Ok next)
           /\ answered svc thread_id rest next w1 r w'
  end.

(** The transcript of the locals, when bound, is in creation order. *)
Definition transcript_sorted (loc : locals) : Prop :=
  match sorted_messages loc with
  | Some msgs => StronglySorted earlier msgs
  | None => True
  end.

(** The blobs downloaded, in order. *)
Definition downloads (tr : list event) : list str :=
  flat_map (fun ev => match ev with
                      | Call (DownloadBlob blob_name) => [blob_name]
                      | _ => []
                      end) tr.

(** The extensions [process_file] has an extractor for. *)
Definition supported_extensions : list str :=
  [lit ".xlsx"; lit ".xls"; lit ".docx"; lit ".doc"; lit ".pdf"; lit ".pptx"; lit ".txt"].

(** Weights that see only the staging, the blob listing, the thread
    creation and the uploads. *)
Definition quiet (w : kind -> nat) : Prop :=
  w KLogInfo = 0 /\ w KLogError = 0 /\ w KSleep = 0 /\ w KDownloadBlob = 0
  /\ w KMessagesCreate = 0 /\ w KRunsCreate = 0 /\ w KRunsRetrieve = 0
  /\ w KMessagesList = 0.

(** More scripted services: one that refuses to create a thread, one
    whose run retrieval raises, and one whose drive answers every upload
    with status 500. *)
Module Scenario.

Definition no_thread : Service Mock.world := {|
  stage_attachments := stage_attachments Mock.service;
  list_blobs := list_blobs Mock.service;
  download_blob := download_blob Mock.service;
  threads_create := fun w => (w, Err (RemoteError (lit "Connection error.")));
  messages_create := messages_create Mock.service;
  runs_create := runs_create Mock.service;
  runs_retrieve := runs_retrieve Mock.service;
  messages_list := messages_list Mock.service;
  onedrive_put := onedrive_put Mock.service
|}.

Definition broken_retrieve : Service Mock.world := {|
  stage_attachments := stage_attachments Mock.service;
  list_blobs := list_blobs Mock.service;
  download_blob := download_blob Mock.service;
  threads_create := threads_create Mock.service;
  messages_create := messages_create Mock.service;
  runs_create := runs_create Mock.service;
  runs_retrieve := fun _ _ w => (w, Err (RemoteError (lit "Request timed out.")));
  messages_list := messages_list Mock.service;
  onedrive_put := onedrive_put Mock.service
|}.


End Scenario.

(** A computation indexed by its poll budget whose result, once reached
    within a budget, is the same under every larger budget. *)
Definition budget_stable {W A} (F : nat -> M W A) : Prop :=
  forall fuel st st' o,
    F fuel st = (st', o) -> o <> OutOfFuel ->
    forall extra, F (fuel + extra) st = (st', o).

(** A scripted platform: fixed settings, a fixed answer of the identity
    provider, a table of HTTP answers by URL, and the blob names whose
    upload fails. *)
Module Office.

Record world : Type := mk_office {
  settings : list (string * str);
  token_response : list (str * json);
  pages : list (str * Upstream.Response);
  failing_blobs : list str
}.

Fixpoint lookup_setting (l : list (string * str)) (name : string) : option str :=
  match l with
  | [] => None
  | (k, v) :: rest => if String.eqb k name then Some v else lookup_setting rest name
  end.

Fixpoint lookup_page (l : list (str * Upstream.Response)) (url : str)
  : Upstream.answer Upstream.Response :=
  match l with
  | [] => Upstream.Failed (Upstream.Builtin (RemoteError (lit "Connection refused")))
  | (k, v) :: rest => if str_eqb k url then Upstream.Fine v else lookup_page rest url
  end.

Definition platform : Upstream.Platform world := {|
  Upstream.getenv := fun name w => lookup_setting (settings w) name;
  Upstream.acquire_token_for_client := fun _ _ _ _ w => (w, Upstream.Fine (token_response w));
  Upstream.jwt_decode := fun _ => Upstream.Fine (lit "{'aud': 'https://graph.microsoft.com'}");
  Upstream.requests_get := fun url _ w => (w, lookup_page (pages w) url);
  Upstream.get_blob_client := fun _ _ _ w => (w, Upstream.Fine tt);
  Upstream.upload_blob := fun blob_name _ w =>
    if existsb (str_eqb blob_name) (failing_blobs w)
    then (w, Upstream.Failed (Upstream.Builtin (RemoteError (lit "AuthorizationFailure"))))
    else (w, Upstream.Fine tt);
  Upstream.str_of_value := fun _ => lit "None"
|}.

Definition all_settings : list (string * str) :=
  [ ("AZURE_OPENAI_API_KEY", lit "key"); ("AZURE_OPENAI_ENDPOINT", lit "https://ai");
    ("MS_GRAPH_CLIENT_ID", lit "client"); ("MS_GRAPH_CLIENT_SECRET", lit "secret");
    ("MS_GRAPH_TENANT_ID", lit "tenant"); ("MS_GRAPH_DRIVE_ID", lit "drive");
    ("ADLS_ACCOUNT_NAME", lit "account"); ("ADLS_CONTAINER_NAME", lit "container") ]%string.

Definition item (name id : string) : json :=
  JObject [(lit "name", JString (lit name)); (lit "id", JString (lit id))].

Definition page (status : nat) (value : list json) (content : bytes) : Upstream.Response :=
  Upstream.mk_http status (lit "") (Upstream.Fine (JObject [(lit "value", JArray value)]))
                   content.

(** A folder with a Word 97 file, a file that cannot be downloaded and a
    text file; the upload of the text file fails. *)
Definition folder : world :=
  mk_office all_settings [(lit "access_token", JString (lit "eyJ0"))]
    [ (lit "https://graph.microsoft.com/v1.0/drives/drive/items/A/children",
       page 200 [item "Offer.DOC" "1"; item "gone.pdf" "2"; item "notes.txt" "3"] []);
      (lit "https://graph.microsoft.com/v1.0/drives/drive/items/1/content",
       page 200 [] [x64]);
      (lit "https://graph.microsoft.com/v1.0/drives/drive/items/2/content",
       page 404 [] []);
      (lit "https://graph.microsoft.com/v1.0/drives/drive/items/3/content",
       page 200 [] [x6f; x6b]) ]
    [lit "A/notes.txt"].

(** Libraries whose Word converter marks the file with a leading byte. *)
Definition libraries : Libraries := {|
  os_path_seps := [47%N];
  unicode_lower := fun c => [c];
  read_excel_to_string := read_excel_to_string Mock.libraries;
  docx_paragraph_texts := docx_paragraph_texts Mock.libraries;
  pdf_page_texts := pdf_page_texts Mock.libraries;
  pptx_shape_texts := pptx_shape_texts Mock.libraries;
  convert_doc_to_docx := fun doc => Ok (x50 :: doc);
  docx_add_run := docx_add_run Mock.libraries
|}.

Definition start (w : world) : Upstream.situation world := Upstream.mk_situation w [].

End Office.

(** The libraries with another Word converter. *)
Definition with_converter (libs : Libraries) (convert : bytes -> result bytes) : Libraries := {|
  os_path_seps := os_path_seps libs;
  unicode_lower := unicode_lower libs;
  read_excel_to_string := read_excel_to_string libs;
  docx_paragraph_texts := docx_paragraph_texts libs;
  pdf_page_texts := pdf_page_texts libs;
  pptx_shape_texts := pptx_shape_texts libs;
  convert_doc_to_docx := convert;
  docx_add_run := docx_add_run libs
|}.

(** What a run from [s] to [s'] adds to the HTTP requests and to the
    archive. *)
Definition adds {W} (s s' : Upstream.situation W)
    (urls : list str) (blobs : list (str * bytes)) : Prop :=
  Upstream.requested (Upstream.happened s')
  = Upstream.requested (Upstream.happened s) ++ urls
  /\ Upstream.archived (Upstream.happened s')
     = Upstream.archived (Upstream.happened s) ++ blobs.

(* ===================================================================== *)
(** * Properties *)
(* ===================================================================== *)

(** ** Sequences and slices *)

Lemma str_eqb_eq (a b : str) : str_eqb a b = true <-> a = b.
Proof.
  revert b; induction a as [|x a IH]; intros [|y b]; simpl;
    try (split; (discriminate || reflexivity)).
  rewrite andb_true_iff, IH. unfold codepoint_eqb. rewrite N.eqb_eq.
  split; [intros [-> ->]; reflexivity | intros E; inversion E; auto].
Qed.

Lemma slice_width {A} (s : list A) (i n : nat) :
  slice s i (i + n) = firstn n (skipn i s).
Proof. unfold slice. replace (i + n - i) with n by lia. reflexivity. Qed.

Lemma firstn_plus {A} (a b : nat) (l : list A) :
  firstn (a + b) l = firstn a l ++ firstn b (skipn a l).
Proof.
  revert l; induction a as [|a IH]; intros l; [reflexivity|].
  destruct l as [|x l]; simpl.
  - now rewrite firstn_nil.
  - now rewrite IH.
Qed.

Lemma windows_succ {A} (size : nat) (s : list A) (m : nat) :
  windows size s (S m) = firstn size s :: windows size (skipn size s) m.
Proof.
  unfold windows. rewrite <- cons_seq. simpl.
  rewrite <- seq_shift, map_map. f_equal. apply map_ext. intros k.
  rewrite skipn_skipn. simpl. now rewrite (Nat.add_comm size).
Qed.

Lemma concat_windows {A} (size : nat) (m : nat) : forall s : list A,
  concat (windows size s m) = firstn (m * size) s.
Proof.
  induction m as [|m IH]; intros s.
  - reflexivity.
  - rewrite windows_succ. simpl concat. rewrite IH.
    simpl Nat.mul. now rewrite firstn_plus.
Qed.

Lemma firstn_seq_le (k : nat) : forall start m,
  k <= m -> firstn k (seq start m) = seq start k.
Proof.
  induction k as [|k IH]; intros start [|m] Hk; simpl; try reflexivity; try lia.
  f_equal. apply IH. lia.
Qed.

Lemma firstn_windows {A} (size : nat) (s : list A) (m k : nat) :
  k <= m -> firstn k (windows size s m) = windows size s k.
Proof.
  intros Hk. unfold windows. now rewrite firstn_map, firstn_seq_le.
Qed.

Lemma chunk_count_covers (size n : nat) :
  0 < size -> n <= chunk_count size n * size.
Proof.
  intros Hs. unfold chunk_count.
  pose proof (Nat.div_mod_eq (n + size - 1) size) as E.
  pose proof (Nat.mod_upper_bound (n + size - 1) size) as U.
  set (q := (n + size - 1) / size) in *.
  set (r := (n + size - 1) mod size) in *. nia.
Qed.

Lemma chunk_count_tight (size n k : nat) :
  0 < size -> k < chunk_count size n -> k * size < n.
Proof.
  intros Hs Hk. unfold chunk_count in Hk.
  pose proof (Nat.Div0.mul_div_le (n + size - 1) size) as L.
  set (q := (n + size - 1) / size) in *. nia.
Qed.

Lemma chunk_text_windows (size : nat) (s : str) :
  chunk_text size s = windows size s (chunk_count size (length s)).
Proof.
  unfold chunk_text, range, windows, chunk_count.
  rewrite map_map, Nat.sub_0_r. apply map_ext. intros k.
  simpl. now rewrite slice_width.
Qed.

Lemma chunk_text_concat (size : nat) (s : str) :
  0 < size -> concat (chunk_text size s) = s.
Proof.
  intros Hs. rewrite chunk_text_windows, concat_windows.
  apply firstn_all2. now apply chunk_count_covers.
Qed.

Lemma chunk_text_bounded (size : nat) (s : str) :
  Forall (fun chunk => length chunk <= size) (chunk_text size s).
Proof.
  rewrite chunk_text_windows. unfold windows. apply Forall_forall.
  intros c Hc. apply in_map_iff in Hc. destruct Hc as [k [<- _]].
  rewrite length_firstn. apply Nat.le_min_l.
Qed.

Lemma chunk_text_nth (size : nat) (s : str) (k : nat) (chunk : str) :
  0 < size ->
  nth_error (chunk_text size s) k = Some chunk ->
  chunk = slice s (k * size) (k * size + size)
  /\ k * size < length s
  /\ concat (firstn k (chunk_text size s)) = slice_to s (k * size).
Proof.
  intros Hs Hk. rewrite chunk_text_windows in *.
  assert (Hlt : k < chunk_count size (length s)).
  { assert (L : k < length (windows size s (chunk_count size (length s))))
      by (apply nth_error_Some; congruence).
    unfold windows in L. now rewrite length_map, length_seq in L. }
  unfold windows in Hk. rewrite nth_error_map, nth_error_seq in Hk.
  destruct (Nat.ltb_spec k (chunk_count size (length s))) as [_|]; [|lia].
  simpl in Hk. injection Hk as <-.
  split; [now rewrite slice_width|].
  split; [now apply chunk_count_tight|].
  rewrite firstn_windows by lia. apply concat_windows.
Qed.

Lemma chunk_size_pos : 0 < chunk_size.
Proof. unfold chunk_size. lia. Qed.

Lemma make_chunks_flat (adls_file_contents : list str) :
  make_chunks adls_file_contents = flat_map (chunk_text chunk_size) adls_file_contents.
Proof.
  unfold make_chunks.
  enough (G : forall acc, fold_left (fun chunks fc => chunks ++ chunk_text chunk_size fc)
                     adls_file_contents acc
                   = acc ++ flat_map (chunk_text chunk_size) adls_file_contents)
    by apply (G []).
  induction adls_file_contents as [|fc rest IH]; intros acc; simpl.
  - now rewrite app_nil_r.
  - now rewrite IH, app_assoc.
Qed.

(** C5. Chunking with the threshold of 100000 characters is a lossless
    partition of every input text: the chunks, concatenated in order, are
    the text; no chunk is longer than the threshold; chunk number [k] is
    the slice of the text at offset [k * 100000], it is not empty, and the
    chunks before it make up exactly the text before that offset (so the
    chunks neither overlap nor change order); and the empty text has no
    chunk. *)
Theorem chunking_is_a_lossless_partition (file_content : str) :
  let chunks := chunk_text chunk_size file_content in
  concat chunks = file_content
  /\ Forall (fun chunk => N.of_nat (length chunk) <= 100000)%N chunks
  /\ (forall k chunk, nth_error chunks k = Some chunk ->
        chunk = slice file_content (k * chunk_size) (k * chunk_size + chunk_size)
        /\ k * chunk_size < length file_content
        /\ concat (firstn k chunks) = slice_to file_content (k * chunk_size))
  /\ chunk_text chunk_size [] = [].
Proof.
  cbv zeta. split; [apply chunk_text_concat, chunk_size_pos|].
  split.
  { eapply Forall_impl; [|apply chunk_text_bounded].
    intros c Hc. cbv beta in Hc. unfold chunk_size in Hc. lia. }
  split; [intros k chunk; apply chunk_text_nth, chunk_size_pos|].
  rewrite chunk_text_windows. unfold chunk_count. simpl length.
  replace ((0 + chunk_size - 1) / chunk_size) with 0; [reflexivity|].
  symmetry. apply Nat.div_small. pose proof chunk_size_pos. lia.
Qed.

(** ** The prompt sequence *)

Arguments chunk_size : simpl never.

Lemma make_prompts_shape (chunks : list str) :
  make_prompts chunks
  = map (fun ic => ack_prompt (fst ic) (snd ic)) (enumerate chunks) ++ analysis_prompts.
Proof. unfold make_prompts, analysis_prompts. now rewrite <- !app_assoc. Qed.

Lemma length_enumerate {A} (l : list A) : length (enumerate l) = length l.
Proof. unfold enumerate. rewrite length_combine, length_seq. apply Nat.min_id. Qed.

Lemma nth_error_combine_seq {A} (l : list A) : forall start k x,
  nth_error l k = Some x ->
  nth_error (combine (seq start (length l)) l) k = Some (start + k, x).
Proof.
  induction l as [|y l IH]; intros start [|k] x H; simpl in *; try discriminate.
  - injection H as ->. now rewrite Nat.add_0_r.
  - rewrite (IH (S start) k x H). f_equal. f_equal. lia.
Qed.

Lemma make_prompts_nth (chunks : list str) (k : nat) (chunk : str) :
  nth_error chunks k = Some chunk ->
  nth_error (make_prompts chunks) k = Some (ack_prompt k chunk).
Proof.
  intros H. rewrite make_prompts_shape.
  assert (Hk : k < length chunks) by (apply nth_error_Some; congruence).
  rewrite nth_error_app1 by (now rewrite length_map, length_enumerate).
  rewrite nth_error_map. unfold enumerate.
  now rewrite (nth_error_combine_seq chunks 0 k H).
Qed.

Lemma chunk_text_small (s : str) :
  0 < length s <= chunk_size -> chunk_text chunk_size s = [s].
Proof.
  intros [Hpos Hle]. rewrite chunk_text_windows.
  replace (chunk_count chunk_size (length s)) with 1.
  - rewrite windows_succ. unfold windows. simpl map.
    now rewrite firstn_all2.
  - unfold chunk_count. symmetry.
    pose proof chunk_size_pos as P.
    pose proof (Nat.div_mod_eq (length s + chunk_size - 1) chunk_size) as E.
    pose proof (Nat.mod_upper_bound (length s + chunk_size - 1) chunk_size) as U.
    set (q := (length s + chunk_size - 1) / chunk_size) in *.
    set (r := (length s + chunk_size - 1) mod chunk_size) in *. nia.
Qed.

Lemma chunk_text_two (s : str) :
  chunk_size < length s <= 2 * chunk_size ->
  chunk_text chunk_size s = [firstn chunk_size s; skipn chunk_size s].
Proof.
  intros [Hlo Hhi]. rewrite chunk_text_windows.
  replace (chunk_count chunk_size (length s)) with 2.
  - rewrite !windows_succ. unfold windows. simpl map.
    rewrite (firstn_all2 (n := chunk_size) (skipn chunk_size s)); [reflexivity|].
    rewrite length_skipn. lia.
  - unfold chunk_count. symmetry.
    pose proof chunk_size_pos as P.
    pose proof (Nat.div_mod_eq (length s + chunk_size - 1) chunk_size) as E.
    pose proof (Nat.mod_upper_bound (length s + chunk_size - 1) chunk_size) as U.
    set (q := (length s + chunk_size - 1) / chunk_size) in *.
    set (r := (length s + chunk_size - 1) mod chunk_size) in *. nia.
Qed.

(** C6. The prompt sequence is one acknowledgment prompt per chunk, in
    chunk order: the prompt of chunk number [k] (from 1) is the text
    "Please acknowledge and save the following content chunk [k]:", a line
    break and the chunk itself.  They are followed by the four fixed
    analysis prompts in their fixed order, which start with "RFP Analysis
    Prompt: ", "Customer Problem/Objective Identification Prompt: " and
    "Full Proposal Draft Assembly Prompt: ", the fourth being the request
    for the final proposal.  For two texts of 50 and 150000 characters the
    chunks are the first text, the first 100000 characters of the second
    and its last 50000 characters, and the sequence has 3 + 4 = 7 prompts
    in that order. *)
Theorem prompt_sequence_shape (adls_file_contents : list str) (first second : str) :
  N.of_nat (length first) = 50%N ->
  N.of_nat (length second) = 150000%N ->
  let acknowledgment (k : nat) (chunk : str) : str :=
    lit "Please acknowledge and save the following content chunk " ++ dec (k + 1)
      ++ lit ":" ++ nl ++ chunk in
  (let chunks := make_chunks adls_file_contents in
   chunks = flat_map (chunk_text chunk_size) adls_file_contents
   /\ make_prompts chunks
      = map (fun ic => acknowledgment (fst ic) (snd ic)) (enumerate chunks)
          ++ [rfp_analysis_prompt; customer_problem_prompt;
              draft_assembly_prompt; final_proposal_prompt]
   /\ length (make_prompts chunks) = length chunks + 4
   /\ (forall k chunk, nth_error chunks k = Some chunk ->
         nth_error (make_prompts chunks) k = Some (acknowledgment k chunk)))
  /\ make_chunks [first; second]
     = [first; slice second 0 chunk_size; slice second chunk_size (2 * chunk_size)]
  /\ map (fun chunk => N.of_nat (length chunk)) (make_chunks [first; second])
     = [50; 100000; 50000]%N
  /\ make_prompts (make_chunks [first; second])
     = [acknowledgment 0 first;
        acknowledgment 1 (slice second 0 chunk_size);
        acknowledgment 2 (slice second chunk_size (2 * chunk_size));
        rfp_analysis_prompt; customer_problem_prompt;
        draft_assembly_prompt; final_proposal_prompt]
  /\ length (make_prompts (make_chunks [first; second])) = 7
  /\ acknowledgment 1 (lit "abc")
     = lit "Please acknowledge and save the following content chunk 2:" ++ nl ++ lit "abc"
  /\ startswith (lit "RFP Analysis Prompt: ") rfp_analysis_prompt = true
  /\ startswith (lit "Customer Problem/Objective Identification Prompt: ")
                customer_problem_prompt = true
  /\ startswith (lit "Full Proposal Draft Assembly Prompt: ") draft_assembly_prompt = true
  /\ final_proposal_prompt
     = lit "Please, according to all consolidated info from previous prompts, create the final proposal (With right format and titles, please write titles and subtitles between **)".
Proof.
  intros H1 H2 acknowledgment.
  assert (A : forall k chunk, ack_prompt k chunk = acknowledgment k chunk)
    by reflexivity.
  assert (V : chunk_size = N.to_nat 100000) by reflexivity.
  split.
  { cbv zeta. split; [apply make_chunks_flat|].
    split; [apply make_prompts_shape|].
    split; [|intros k chunk Hk; rewrite <- A; now apply make_prompts_nth].
    rewrite make_prompts_shape, length_app, length_map, length_enumerate.
    reflexivity. }
  assert (E : make_chunks [first; second]
              = [first; slice second 0 chunk_size;
                 slice second chunk_size (2 * chunk_size)]).
  { rewrite make_chunks_flat. simpl flat_map.
    rewrite chunk_text_small by lia. rewrite chunk_text_two by lia.
    rewrite app_nil_r. unfold slice. rewrite Nat.sub_0_r.
    replace (2 * chunk_size - chunk_size) with chunk_size by lia.
    change (skipn 0 second) with second.
    rewrite (firstn_all2 (n := chunk_size) (skipn chunk_size second))
      by (rewrite length_skipn; lia).
    reflexivity. }
  split; [exact E|]. rewrite E.
  split.
  { unfold slice. cbn [map]. rewrite !length_firstn, !length_skipn.
    rewrite Nat.sub_0_r.
    replace (N.of_nat (length first)) with 50%N by lia.
    replace (N.of_nat (Nat.min chunk_size (length second - 0))) with 100000%N by lia.
    replace (N.of_nat (Nat.min (2 * chunk_size - chunk_size)
                               (length second - chunk_size))) with 50000%N by lia.
    reflexivity. }
  split; [reflexivity|]. split; [reflexivity|].
  split; [reflexivity|]. split; [vm_compute; reflexivity|].
  split; [vm_compute; reflexivity|]. split; [vm_compute; reflexivity|].
  reflexivity.
Qed.

(** The scenario of C6 on two concrete texts of 50 and 150000 characters. *)
Lemma prompt_sequence_shape_witness :
  let first := repeat 97%N (N.to_nat 50) in
  let second := repeat 98%N (N.to_nat 150000) in
  map (fun chunk => N.of_nat (length chunk)) (make_chunks [first; second])
  = [50; 100000; 50000]%N
  /\ length (make_prompts (make_chunks [first; second])) = 7
  /\ nth_error (make_prompts (make_chunks [first; second])) 0
     = Some (lit "Please acknowledge and save the following content chunk 1:"
               ++ nl ++ first).
Proof.
  intros first second.
  assert (H1 : N.of_nat (length first) = 50%N) by (vm_compute; reflexivity).
  assert (H2 : N.of_nat (length second) = 150000%N) by (vm_compute; reflexivity).
  pose proof (prompt_sequence_shape [] first second H1 H2) as P.
  cbv zeta in P. destruct P as [_ [_ [L [P [N _]]]]].
  split; [exact L|]. split; [exact N|]. rewrite P. reflexivity.
Defined.

(** ** The emphasis renderer *)

Lemma spec_segments_nonempty (s : str) : spec_segments s <> [].
Proof.
  induction s as [|c r IH]; simpl; [discriminate|].
  destruct r as [|c2 rest].
  - discriminate.
  - destruct (N.eqb c 42 && N.eqb c2 42)%bool; [discriminate|].
    destruct (spec_segments (c2 :: rest)); discriminate.
Qed.

Lemma startswith_marker (s : str) :
  startswith marker s
  = match s with
    | c :: c2 :: _ => (N.eqb c 42 && N.eqb c2 42)%bool
    | _ => false
    end.
Proof.
  change marker with [42%N; 42%N].
  destruct s as [|c [|c2 rest]]; try reflexivity; cbn [startswith];
    unfold codepoint_eqb.
  - now rewrite andb_false_r.
  - now rewrite andb_true_r, (N.eqb_sym 42 c), (N.eqb_sym 42 c2).
Qed.

(** Where the first marker is: nowhere when there is one segment, else
    right after the first segment. *)
Lemma find_at_segments (s : str) : forall pos : Z,
  match spec_segments s with
  | [] => False
  | [only] => find_at marker s pos = (-1)%Z /\ s = only
  | before :: later =>
      find_at marker s pos = (pos + Z.of_nat (length before))%Z
      /\ exists post, s = before ++ marker ++ post /\ spec_segments post = later
  end.
Proof.
  induction s as [|c r IH]; intros pos.
  - simpl. split; reflexivity.
  - cbn [find_at spec_segments]. rewrite startswith_marker.
    destruct r as [|c2 rest].
    + simpl. split; reflexivity.
    + destruct (N.eqb c 42 && N.eqb c2 42)%bool eqn:Hm.
      * pose proof (spec_segments_nonempty rest) as NE.
        apply andb_true_iff in Hm. destruct Hm as [Hc Hc2].
        apply N.eqb_eq in Hc, Hc2. subst c c2.
        destruct (spec_segments rest) as [|x l] eqn:Er; [contradiction|].
        split; [simpl; lia|]. exists rest. split; [reflexivity|assumption].
      * specialize (IH (pos + 1)%Z).
        destruct (spec_segments (c2 :: rest)) as [|before [|next later]] eqn:Er;
          [contradiction| |].
        -- destruct IH as [F E]. simpl push_head. split; [exact F|now rewrite E].
        -- destruct IH as [F [post [E S]]]. simpl push_head.
           split; [rewrite F; simpl length; lia|].
           exists post. split; [now rewrite E|exact S].
Qed.

Lemma skipn_app_exact {A} (a b : list A) (n : nat) :
  n = length a -> skipn n (a ++ b) = b.
Proof. intros ->. rewrite skipn_app, skipn_all, Nat.sub_diag. reflexivity. Qed.

Lemma firstn_app_exact {A} (a b : list A) (n : nat) :
  n = length a -> firstn n (a ++ b) = a.
Proof.
  intros ->. rewrite firstn_app, firstn_all, Nat.sub_diag. simpl.
  now rewrite app_nil_r.
Qed.

Lemma length_marker : length marker = 2.
Proof. reflexivity. Qed.

Lemma add_runs_refines (libs : Libraries) (fuel : nat) :
  forall (paragraph : str) (p : list text_run),
  length paragraph < fuel ->
  add_runs libs fuel paragraph p
  = appended p (store_runs libs (spec_runs (spec_segments paragraph))).
Proof.
  assert (Last : forall paragraph p,
             add_last_run libs p paragraph
             = appended p (store_runs libs [plain paragraph])).
  { intros paragraph p. unfold add_last_run, add_run. cbn [store_runs plain run_text run_bold].
    destruct (docx_add_run libs paragraph); reflexivity. }
  induction fuel as [|fuel IH]; intros paragraph p Hfuel; [lia|].
  cbn [add_runs]. unfold contains, find. cbn [Nat.leb skipn].
  change (Z.of_nat 0) with 0%Z.
  pose proof (find_at_segments paragraph 0) as H0.
  destruct (spec_segments paragraph) as [|before [|inside later]] eqn:Es;
    [contradiction| |].
  - destruct H0 as [F E]. rewrite F. cbn [Z.leb Z.compare]. cbn [spec_runs].
    subst before. apply Last.
  - destruct H0 as [F [post [E S]]]. rewrite F. simpl Z.add.
    destruct (Z.leb_spec 0 (Z.of_nat (length before))) as [_|]; [|lia].
    rewrite Nat2Z.id.
    assert (Hlen : length paragraph = length before + 2 + length post).
    { rewrite E, !length_app, length_marker. lia. }
    destruct (Nat.leb_spec (length before + 2) (length paragraph)) as [_|]; [|lia].
    assert (Hskip : skipn (length before + 2) paragraph = post).
    { rewrite E, app_assoc. apply skipn_app_exact.
      rewrite length_app, length_marker. reflexivity. }
    rewrite Hskip.
    pose proof (find_at_segments post (Z.of_nat (length before + 2))) as H1.
    rewrite S in H1.
    destruct later as [|next later].
    + destruct H1 as [F1 E1]. rewrite F1, Z.eqb_refl. cbn [spec_runs].
      subst inside. rewrite <- E. apply Last.
    + destruct H1 as [F1 [post' [E1 S1]]]. rewrite F1.
      destruct (Z.eqb_spec (Z.of_nat (length before + 2) + Z.of_nat (length inside)) (-1))
        as [|_]; [lia|].
      replace (Z.to_nat (Z.of_nat (length before + 2) + Z.of_nat (length inside)))
        with (length before + 2 + length inside) by lia.
      assert (Hto : slice_to paragraph (length before) = before).
      { unfold slice_to. rewrite E. now apply firstn_app_exact. }
      assert (Hmid : slice paragraph (length before + 2)
                           (length before + 2 + length inside) = inside).
      { rewrite slice_width, Hskip, E1. now apply firstn_app_exact. }
      assert (Hfrom : slice_from paragraph (length before + 2 + length inside + 2) = post').
      { unfold slice_from.
        replace (length before + 2 + length inside + 2)
          with ((length inside + 2) + (length before + 2)) by lia.
        rewrite <- skipn_skipn, Hskip, E1, app_assoc. apply skipn_app_exact.
        rewrite length_app, length_marker. reflexivity. }
      rewrite Hto, Hmid, Hfrom.
      change (spec_runs (before :: inside :: next :: later))
        with (plain before :: bold inside :: spec_runs (next :: later)).
      cbn [store_runs plain bold run_text run_bold]. unfold add_run.
      destruct (docx_add_run libs before) as [stored_before|e]; [|reflexivity].
      destruct (docx_add_run libs inside) as [stored_inside|e]; [|reflexivity].
      rewrite IH.
      * rewrite S1. unfold appended.
        destruct (store_runs libs (spec_runs (next :: later))) as [kept|e];
          [|reflexivity].
        now rewrite <- !app_assoc.
      * rewrite E1, !length_app, length_marker in Hlen. lia.
Qed.

Lemma format_paragraph_refines (libs : Libraries) (paragraph : str) :
  format_paragraph libs paragraph
  = appended [] (store_runs libs (spec_runs (spec_segments paragraph))).
Proof. unfold format_paragraph. rewrite add_runs_refines by lia. reflexivity. Qed.

Lemma add_paragraphs_refines (libs : Libraries) (paragraphs : list str) :
  forall draft_doc : Document,
  add_paragraphs libs draft_doc paragraphs
  = appended draft_doc
      (store_paragraphs libs
         (map (fun paragraph => spec_runs (spec_segments paragraph)) paragraphs)).
Proof.
  induction paragraphs as [|paragraph rest IH]; intros draft_doc;
    cbn [add_paragraphs map store_paragraphs].
  - cbn. now rewrite app_nil_r.
  - rewrite format_paragraph_refines.
    destruct (store_runs libs (spec_runs (spec_segments paragraph))) as [kept|e];
      cbn [appended app]; [|reflexivity].
    rewrite IH.
    destruct (store_paragraphs libs _) as [blocks|e]; cbn [appended]; [|reflexivity].
    now rewrite <- app_assoc.
Qed.

Lemma store_runs_as_given (libs : Libraries) (runs : list text_run) :
  stored_as_given libs runs -> store_runs libs runs = Ok runs.
Proof.
  induction 1 as [|r rest H _ IH]; cbn [store_runs]; [reflexivity|].
  rewrite H, IH. now destruct r.
Qed.

Lemma store_paragraphs_as_given (libs : Libraries) (paragraphs : list (list text_run)) :
  Forall (stored_as_given libs) paragraphs ->
  store_paragraphs libs paragraphs = Ok (map Paragraph paragraphs).
Proof.
  induction 1 as [|runs rest H _ IH]; cbn [store_paragraphs map]; [reflexivity|].
  now rewrite (store_runs_as_given H), IH.
Qed.

Lemma join_push_head (sep : str) (c : codepoint) (segments : list str) :
  segments <> [] -> join sep (push_head c segments) = c :: join sep segments.
Proof. destruct segments as [|a [|b l]]; [contradiction| |]; reflexivity. Qed.

Lemma join_spec_segments (s : str) : join marker (spec_segments s) = s.
Proof.
  enough (G : forall n (t : str), length t <= n -> join marker (spec_segments t) = t)
    by (apply (G (length s)); lia).
  induction n as [|n IH]; intros [|c r] Hn; try reflexivity; [simpl in Hn; lia|].
  cbn [spec_segments]. destruct r as [|c2 rest]; [reflexivity|].
  simpl in Hn.
  destruct (N.eqb c 42 && N.eqb c2 42)%bool eqn:Hm.
  - apply andb_true_iff in Hm. destruct Hm as [Hc Hc2].
    apply N.eqb_eq in Hc, Hc2. subst c c2.
    pose proof (spec_segments_nonempty rest) as NE.
    pose proof (IH rest ltac:(lia)) as IH'.
    destruct (spec_segments rest) as [|x l] eqn:Er; [contradiction|].
    change (join marker ([] :: x :: l)) with (marker ++ join marker (x :: l)).
    rewrite IH'. reflexivity.
  - rewrite join_push_head by apply spec_segments_nonempty.
    rewrite IH by (simpl; lia). reflexivity.
Qed.

Lemma spec_runs_unpaired (n : nat) : forall (pre : list str) (a b : str),
  length pre = 2 * n ->
  spec_runs (pre ++ [a; b]) = alternate false pre ++ [plain (a ++ marker ++ b)].
Proof.
  induction n as [|n IH]; intros [|x [|y pre]] a b H; simpl in H; try lia.
  - reflexivity.
  - change (spec_runs ((x :: y :: pre) ++ [a; b]))
      with (match pre ++ [a; b] with
            | [] => [plain (x ++ marker ++ y)]
            | _ :: _ => plain x :: bold y :: spec_runs (pre ++ [a; b])
            end).
    destruct (pre ++ [a; b]) eqn:E; [now destruct pre|].
    rewrite <- E, IH by lia. reflexivity.
Qed.

Lemma spec_runs_paired (n : nat) : forall (pre : list str) (last : str),
  length pre = 2 * n ->
  spec_runs (pre ++ [last]) = alternate false (pre ++ [last]).
Proof.
  induction n as [|n IH]; intros [|x [|y pre]] last H; simpl in H; try lia.
  - reflexivity.
  - change (spec_runs ((x :: y :: pre) ++ [last]))
      with (match pre ++ [last] with
            | [] => [plain (x ++ marker ++ y)]
            | _ :: _ => plain x :: bold y :: spec_runs (pre ++ [last])
            end).
    destruct (pre ++ [last]) eqn:E; [now destruct pre|].
    rewrite <- E, IH by lia. reflexivity.
Qed.

Lemma store_runs_raises (libs : Libraries) (runs : list text_run) (e : exn) :
  store_runs libs runs = Err e ->
  exists r, In r runs /\ docx_add_run libs (run_text r) = Err e.
Proof.
  induction runs as [|r rest IH]; cbn [store_runs]; [discriminate|].
  destruct (docx_add_run libs (run_text r)) as [stored|e'] eqn:A.
  - destruct (store_runs libs rest) as [kept|e'']; [discriminate|].
    intros [= ->]. destruct (IH eq_refl) as [r' [I R]].
    exists r'. split; [now right | exact R].
  - intros [= ->]. exists r. split; [now left | exact A].
Qed.

(** C7. The renderer reads the paragraph from the left, cutting it at
    each [**]: with the markers paired up in that order, the text between
    the two markers of a pair goes to a bold run and the text outside to a
    plain run; when the number of markers is odd, the text from the last,
    unpaired marker on is kept literally, marker included, in the final
    plain run.  The runs are handed to the document library in that order:
    the paragraph holds what the library stored for each, and the first
    text the library rejects raises its exception.  ["a **b** c"] gives
    the runs ["a "] plain, ["b"] bold, [" c"] plain, and ["a **b"] gives
    the one plain run ["a **b"].  Each line of the content becomes one
    paragraph rendered so. *)
Theorem emphasis_renderer_pairs_markers (libs : Libraries) (paragraph content : str)
    (draft_doc : Document) :
  format_paragraph libs paragraph
  = appended [] (store_runs libs (spec_runs (spec_segments paragraph)))
  /\ join marker (spec_segments paragraph) = paragraph
  /\ (forall n pre last,
        spec_segments paragraph = pre ++ [last] -> length pre = 2 * n ->
        format_paragraph libs paragraph
        = appended [] (store_runs libs (alternate false (pre ++ [last]))))
  /\ (forall n pre before_marker after_marker,
        spec_segments paragraph = pre ++ [before_marker; after_marker] ->
        length pre = 2 * n ->
        format_paragraph libs paragraph
        = appended [] (store_runs libs
                         (alternate false pre
                          ++ [plain (before_marker ++ lit "**" ++ after_marker)])))
  /\ add_formatted_content libs draft_doc content
     = appended draft_doc (store_paragraphs libs (draft_runs content))
  /\ (stored_as_given libs (spec_runs (spec_segments paragraph)) ->
      format_paragraph libs paragraph = Return (spec_runs (spec_segments paragraph)))
  /\ (forall e, format_paragraph libs paragraph = Raise e ->
                exists r, In r (spec_runs (spec_segments paragraph))
                          /\ docx_add_run libs (run_text r) = Err e)
  /\ format_paragraph libs (lit "a **b** c")
     = appended [] (store_runs libs [plain (lit "a "); bold (lit "b"); plain (lit " c")])
  /\ format_paragraph libs (lit "a **b")
     = appended [] (store_runs libs [plain (lit "a **b")])
  /\ format_paragraph Mock.libraries (lit "a **b** c")
     = Return [plain (lit "a "); bold (lit "b"); plain (lit " c")]
  /\ format_paragraph Mock.libraries (lit "a **b") = Return [plain (lit "a **b")].
Proof.
  split; [apply format_paragraph_refines|].
  split; [apply join_spec_segments|].
  split.
  { intros n pre last E L. rewrite format_paragraph_refines, E.
    do 2 f_equal. now apply spec_runs_paired with n. }
  split.
  { intros n pre a b E L. rewrite format_paragraph_refines, E.
    do 2 f_equal. now apply spec_runs_unpaired with n. }
  split; [apply add_paragraphs_refines|].
  split.
  { intros G. rewrite format_paragraph_refines, (store_runs_as_given G). reflexivity. }
  split.
  { intros e R. rewrite format_paragraph_refines in R. apply store_runs_raises.
    destruct (store_runs libs (spec_runs (spec_segments paragraph))); cbn in R;
      [discriminate | congruence]. }
  split; [apply format_paragraph_refines|].
  split; [apply format_paragraph_refines|].
  split; reflexivity.
Qed.

(** ** Traces of the orchestrator *)

Lemma total_app (w : kind -> nat) (a b : list event) :
  total w (a ++ b) = total w a + total w b.
Proof. unfold total. now rewrite map_app, list_sum_app. Qed.

Lemma total_one (tr : list event) : total (fun _ => 1) tr = length tr.
Proof.
  unfold total. induction tr as [|ev tr IH]; simpl; [reflexivity|now rewrite IH].
Qed.

Section TraceRules.
Variable W : Type.
Variable libs : Libraries.
Variable w : kind -> nat.

Lemma bounded_weaken {A} (n m : nat) (c : M W A) :
  bounded w n c -> n <= m -> bounded w m c.
Proof.
  intros H L st. destruct (H st) as [delta [E B]]. exists delta. split; [exact E|lia].
Qed.

Lemma bounded_ret {A} (a : A) : bounded w 0 (ret (W := W) a).
Proof. intros st. exists []. simpl. now rewrite app_nil_r. Qed.

Lemma bounded_raise {A} (e : exn) : bounded w 0 (raise (W := W) (A := A) e).
Proof. intros st. exists []. simpl. now rewrite app_nil_r. Qed.

Lemma bounded_out_of_fuel {A} : bounded w 0 (out_of_fuel (W := W) (A := A)).
Proof. intros st. exists []. simpl. now rewrite app_nil_r. Qed.

Lemma bounded_lift {A} (r : result A) : bounded w 0 (lift (W := W) r).
Proof. intros st. exists []. unfold lift. destruct r; simpl; now rewrite app_nil_r. Qed.

Lemma bounded_pure {A} (o : outcome A) : bounded w 0 (pure (W := W) o).
Proof. intros st. exists []. simpl. now rewrite app_nil_r. Qed.

Lemma bounded_emit (ev : event) : bounded w (w (kind_of ev)) (emit (W := W) ev).
Proof. intros st. exists [ev]. simpl. split; [reflexivity|unfold total; simpl; lia]. Qed.

Lemma bounded_log_info (msg : str) : bounded w (w KLogInfo) (logging_info (W := W) msg).
Proof. apply (bounded_emit (LogInfo msg)). Qed.

Lemma bounded_log_error (msg : str) : bounded w (w KLogError) (logging_error (W := W) msg).
Proof. apply (bounded_emit (LogError msg)). Qed.

Lemma bounded_sleep (seconds : nat) : bounded w (w KSleep) (time_sleep (W := W) seconds).
Proof. apply (bounded_emit (Sleep seconds)). Qed.

Lemma bounded_call {A} (k : kind) (c : api_call) (op : W -> W * result A) :
  kind_of (Call c) = k -> bounded w (w k) (call c op).
Proof.
  intros <- st. exists [Call c]. unfold call.
  destruct (op (world st)) as [w' [a|e]]; simpl;
    (split; [reflexivity|unfold total; simpl; lia]).
Qed.

Lemma bounded_bind {A B} (n m : nat) (c : M W A) (k : A -> M W B) :
  bounded w n c -> (forall a, bounded w m (k a)) -> bounded w (n + m) (bind c k).
Proof.
  intros Hc Hk st. unfold bind.
  destruct (Hc st) as [d1 [E1 B1]].
  destruct (c st) as [st1 [a|e|]]; simpl in E1.
  - destruct (Hk a st1) as [d2 [E2 B2]]. exists (d1 ++ d2).
    rewrite E2, E1, app_assoc, total_app. split; [reflexivity|lia].
  - exists d1. simpl. split; [exact E1|lia].
  - exists d1. simpl. split; [exact E1|lia].
Qed.

Lemma bounded_try {A} (n m : nat) (body : M W A) (handler : exn -> M W A) :
  bounded w n body -> (forall e, bounded w m (handler e)) ->
  bounded w (n + m) (try_except body handler).
Proof.
  intros Hc Hk st. unfold try_except.
  destruct (Hc st) as [d1 [E1 B1]].
  destruct (body st) as [st1 [a|e|]]; simpl in E1.
  - exists d1. simpl. split; [exact E1|lia].
  - destruct (Hk e st1) as [d2 [E2 B2]]. exists (d1 ++ d2).
    rewrite E2, E1, app_assoc, total_app. split; [reflexivity|lia].
  - exists d1. simpl. split; [exact E1|lia].
Qed.

Variable svc : Service W.

Lemma submit_attempts_bounded (budget : nat) (thread_id : str) (i n : nat) (prompt : str) :
  bounded w (budget * submit_turn w) (submit_attempts svc budget thread_id i n prompt).
Proof.
  induction budget as [|budget IH]; cbn [submit_attempts].
  - apply bounded_ret.
  - eapply bounded_weaken.
    + apply bounded_try.
      * apply bounded_bind; [now apply (bounded_call (k := KMessagesCreate))|].
        intros message.
        apply bounded_bind; [apply bounded_log_info|]. intros _. apply bounded_ret.
      * intros e. apply bounded_bind; [apply bounded_log_error|]. intros _.
        apply bounded_bind; [apply bounded_sleep|]. intros _. exact IH.
    + unfold submit_turn. lia.
Qed.

Lemma run_attempts_bounded (budget : nat) (thread_id : str) (i n : nat) :
  bounded w (budget * run_turn w) (run_attempts svc budget thread_id i n).
Proof.
  induction budget as [|budget IH]; cbn [run_attempts].
  - apply bounded_ret.
  - eapply bounded_weaken.
    + apply bounded_try.
      * apply bounded_bind; [now apply (bounded_call (k := KRunsCreate))|].
        intros run. apply bounded_ret.
      * intros e. apply bounded_bind; [apply bounded_log_error|]. intros _.
        apply bounded_bind; [apply bounded_sleep|]. intros _. exact IH.
    + unfold run_turn. lia.
Qed.

Lemma poll_bounded (fuel : nat) (thread_id : str) : forall run : Run,
  bounded w (fuel * poll_turn w) (poll svc fuel thread_id run).
Proof.
  induction fuel as [|fuel IH]; intros run.
  - simpl. destruct (still_running (status run));
      [apply bounded_out_of_fuel|apply bounded_ret].
  - cbn [poll]. destruct (still_running (status run)).
    + eapply bounded_weaken.
      * apply bounded_bind; [apply bounded_sleep|]. intros _.
        apply bounded_bind; [now apply (bounded_call (k := KRunsRetrieve))|].
        intros run'. apply IH.
      * unfold poll_turn. lia.
    + eapply bounded_weaken; [apply bounded_ret|lia].
Qed.

Lemma add_messages_bounded (msgs : list Message) : forall doc : Document,
  bounded w 0 (add_messages (W := W) libs msgs doc).
Proof.
  induction msgs as [|m rest IH]; intros doc; cbn [add_messages].
  - apply bounded_ret.
  - do 3 (change 0 with (0 + 0); apply bounded_bind; [apply bounded_lift|]; intros ?).
    apply IH.
Qed.

Lemma process_prompt_bounded (fuel : nat) (thread_id : str) (n i : nat) (prompt : str)
    (loc : locals) :
  bounded w (prompt_turn w fuel) (process_prompt libs svc fuel thread_id n i prompt loc).
Proof.
  unfold process_prompt, prompt_turn.
  set (tail := w KLogError + w KMessagesList).
  apply bounded_weaken with (3 * submit_turn w + (3 * run_turn w + (fuel * poll_turn w + tail)));
    [|lia].
  apply bounded_bind; [apply submit_attempts_bounded|]. intros [message|].
  - apply bounded_bind; [apply run_attempts_bounded|]. intros [run|].
    + apply bounded_bind; [apply poll_bounded|]. intros run'.
      destruct (not_completed (status run')).
      * apply bounded_weaken with (w KLogError + 0); [|lia].
        apply bounded_bind; [apply bounded_log_error|]. intros _. apply bounded_ret.
      * apply bounded_weaken with (w KMessagesList + (0 + 0)); [|lia].
        apply bounded_bind; [now apply (bounded_call (k := KMessagesList))|].
        intros messages.
        apply bounded_bind; [apply add_messages_bounded|]. intros doc.
        apply bounded_ret.
    + apply bounded_weaken with (w KLogError + 0); [|lia].
      apply bounded_bind; [apply bounded_log_error|]. intros _. apply bounded_ret.
  - apply bounded_weaken with (w KLogError + 0); [|lia].
    apply bounded_bind; [apply bounded_log_error|]. intros _. apply bounded_ret.
Qed.

Lemma prompts_loop_bounded (fuel : nat) (thread_id : str) (n : nat)
    (items : list (nat * str)) : forall loc : locals,
  bounded w (length items * prompt_turn w fuel)
          (prompts_loop libs svc fuel thread_id n items loc).
Proof.
  induction items as [|[i prompt] rest IH]; intros loc; cbn [prompts_loop].
  - apply bounded_ret.
  - eapply bounded_weaken.
    + apply bounded_bind; [apply process_prompt_bounded|]. intros loc'. apply IH.
    + simpl length. lia.
Qed.

End TraceRules.

(** ** The retry loops and the skipped prompt *)

Section Retry.
Variable W : Type.
Variable libs : Libraries.
Variable svc : Service W.

Lemma submit_attempts_shape (budget : nat) (thread_id : str) (i n : nat) (prompt : str) :
  forall st, exists st' res errors,
    submit_attempts svc budget thread_id i n prompt st = (st', Return res)
    /\ trace st' = trace st ++ flat_map (failed_submit thread_id i n prompt) errors
                             ++ submitted thread_id i n prompt res
    /\ attempts errors res <= budget
    /\ (res = None -> length errors = budget).
Proof.
  induction budget as [|budget IH]; intros st.
  - exists st, None, []. simpl. rewrite app_nil_r. repeat split; auto.
  - cbn [submit_attempts].
    unfold try_except, bind, call, logging_info, logging_error, time_sleep, emit, ret.
    destruct (messages_create svc thread_id (lit "user") prompt (world st))
      as [w' [message|e]] eqn:E; cbn [world trace].
    + eexists _, (Some message), []. split; [reflexivity|].
      cbn [trace flat_map submitted app]. rewrite <- app_assoc.
      repeat split; [cbn; lia | discriminate].
    + match goal with |- context [submit_attempts _ _ _ _ _ _ ?s] =>
        destruct (IH s) as [st' [res [errors [R [T [B N]]]]]] end.
      exists st', res, (e :: errors). split; [exact R|].
      split.
      { rewrite T. cbn [trace flat_map failed_submit]. now rewrite <- !app_assoc. }
      split; [unfold attempts in *; simpl; lia|].
      intros ->. simpl. now rewrite N.
Qed.

Lemma run_attempts_shape (budget : nat) (thread_id : str) (i n : nat) :
  forall st, exists st' res errors,
    run_attempts svc budget thread_id i n st = (st', Return res)
    /\ trace st' = trace st ++ flat_map (failed_run thread_id i n) errors
                             ++ started thread_id res
    /\ attempts errors res <= budget
    /\ (res = None -> length errors = budget).
Proof.
  induction budget as [|budget IH]; intros st.
  - exists st, None, []. simpl. rewrite app_nil_r. repeat split; auto.
  - cbn [run_attempts].
    unfold try_except, bind, call, logging_error, time_sleep, emit, ret.
    destruct (runs_create svc thread_id assistant_id (world st))
      as [w' [run|e]] eqn:E; cbn [world trace].
    + eexists _, (Some run), []. split; [reflexivity|].
      cbn [trace flat_map started app].
      repeat split; [cbn; lia | discriminate].
    + match goal with |- context [run_attempts _ _ _ _ _ ?s] =>
        destruct (IH s) as [st' [res [errors [R [T [B N]]]]]] end.
      exists st', res, (e :: errors). split; [exact R|].
      split.
      { rewrite T. cbn [trace flat_map failed_run]. now rewrite <- !app_assoc. }
      split; [unfold attempts in *; simpl; lia|].
      intros ->. simpl. now rewrite N.
Qed.

Variable fuel : nat.
Variable thread_id : str.
Variables n i : nat.
Variable prompt : str.
Variable loc : locals.

Lemma process_prompt_gives_up_on_submit (st st1 : state W) :
  submit_attempts svc 3 thread_id i n prompt st = (st1, Return None) ->
  process_prompt libs svc fuel thread_id n i prompt loc st
  = (record (LogError (lit "Giving up on prompt " ++ progress i n
                         ++ lit ": " ++ prompt)) st1,
     Return loc).
Proof. intros H. unfold process_prompt, bind at 1. rewrite H. reflexivity. Qed.


Lemma process_prompt_run_not_completed (st st1 st2 st3 : state W)
    (message : Message) (run run' : Run) :
  submit_attempts svc 3 thread_id i n prompt st = (st1, Return (Some message)) ->
  run_attempts svc 3 thread_id i n st1 = (st2, Return (Some run)) ->
  poll svc fuel thread_id run st2 = (st3, Return run') ->
  not_completed (status run') = true ->
  process_prompt libs svc fuel thread_id n i prompt loc st
  = (record (LogError (lit "Run for question " ++ progress i n
                         ++ lit " failed with status: " ++ status_name (status run'))) st3,
     Return loc).
Proof.
  intros H1 H2 H3 H4. unfold process_prompt, bind at 1. rewrite H1.
  unfold bind at 1. rewrite H2. unfold bind at 1. rewrite H3, H4. reflexivity.
Qed.

End Retry.


(** ** Termination when the AI service is down *)

Lemma total_failed_submits (w : kind -> nat) (thread_id : str) (i n : nat) (prompt : str)
    (errors : list exn) :
  total w (flat_map (failed_submit thread_id i n prompt) errors)
  = length errors * (w KMessagesCreate + w KLogError + w KSleep).
Proof.
  induction errors as [|e errors IH]; [reflexivity|].
  cbn [flat_map length]. rewrite total_app, IH. unfold total at 1. simpl. lia.
Qed.

Section ServiceDown.
Variable W : Type.
Variable libs : Libraries.
Variable svc : Service W.
Hypothesis submissions_fail :
  forall thread_id role content w,
    exists w' e, messages_create svc thread_id role content w = (w', Err e).

Lemma submit_attempts_all_fail (budget : nat) (thread_id : str) (i n : nat)
    (prompt : str) :
  forall st, exists st' errors,
    submit_attempts svc budget thread_id i n prompt st = (st', Return None)
    /\ trace st' = trace st ++ flat_map (failed_submit thread_id i n prompt) errors
    /\ length errors = budget.
Proof.
  intros st.
  destruct (submit_attempts_shape svc budget thread_id i n prompt st)
    as [st' [res [errors [R [T [B N]]]]]].
  destruct res as [message|].
  - exfalso. clear T B N. revert st R.
    induction budget as [|budget IH]; intros st R; [discriminate|].
    cbn [submit_attempts] in R.
    unfold try_except, bind, call, logging_info, logging_error, time_sleep, emit, ret in R.
    destruct (submissions_fail thread_id (lit "user") prompt (world st)) as [w' [e E]].
    rewrite E in R. cbn [world trace] in R. now apply IH in R.
  - exists st', errors. split; [exact R|]. split; [|now apply N].
    rewrite T. cbn [submitted]. now rewrite app_nil_r.
Qed.

Lemma prompts_loop_all_fail (fuel : nat) (thread_id : str) (n : nat)
    (items : list (nat * str)) :
  forall loc st, exists st' delta,
    prompts_loop libs svc fuel thread_id n items loc st = (st', Return loc)
    /\ trace st' = trace st ++ delta
    /\ forall w, total w delta
                 = length items * (3 * (w KMessagesCreate + w KLogError + w KSleep)
                                   + w KLogError).
Proof.
  induction items as [|[i prompt] rest IH]; intros loc st.
  - exists st, []. simpl. rewrite app_nil_r. repeat split; reflexivity.
  - cbn [prompts_loop]. unfold bind at 1.
    destruct (submit_attempts_all_fail 3 thread_id i n prompt st)
      as [st1 [errors [R [T L]]]].
    rewrite (process_prompt_gives_up_on_submit libs svc fuel thread_id n i prompt loc st R).
    match goal with |- context [prompts_loop _ _ _ _ _ _ _ ?s] =>
      destruct (IH loc s) as [st' [delta [R' [T' C']]]] end.
    exists st'. eexists. split; [exact R'|]. split.
    + rewrite T'. cbn [record trace]. rewrite T, <- !app_assoc. reflexivity.
    + intros w. rewrite !total_app, total_failed_submits, C', L.
      unfold total. simpl. lia.
Qed.

End ServiceDown.

(** C9. If every remote creation of a message and of a run fails, the
    prompt loop over [N] prompts ends normally whatever the poll budget,
    even with none: it makes [N] groups of exactly 3 submissions, each
    followed by a sleep, no attempt to start a run, [N] skips, and never
    enters the poll loop; all it does is [3 N] failed attempts of 3 events
    each plus [N] skip records. *)
Theorem loop_terminates_when_service_is_down (W : Type) (libs : Libraries) (svc : Service W)
    (fuel : nat) (thread_id : str) (prompts : list str) (loc : locals) (st : state W) :
  (forall thread_id role content w,
      exists w' e, messages_create svc thread_id role content w = (w', Err e)) ->
  (forall thread_id assistant w,
      exists w' e, runs_create svc thread_id assistant w = (w', Err e)) ->
  exists st' delta,
    prompts_loop libs svc fuel thread_id (length prompts) (enumerate prompts) loc st
    = (st', Return loc)
    /\ trace st' = trace st ++ delta
    /\ count KMessagesCreate delta = 3 * length prompts
    /\ count KRunsCreate delta <= 3 * length prompts
    /\ count KSleep delta = 3 * length prompts
    /\ count KLogError delta = 3 * length prompts + length prompts
    /\ count KRunsRetrieve delta = 0
    /\ count KMessagesList delta = 0
    /\ length delta = 3 * (3 * length prompts) + length prompts.
Proof.
  intros Hm _.
  destruct (@prompts_loop_all_fail W libs svc Hm fuel thread_id (length prompts)
              (enumerate prompts) loc st) as [st' [delta [R [T C]]]].
  exists st', delta. split; [exact R|]. split; [exact T|].
  rewrite length_enumerate in C. unfold count.
  rewrite <- total_one, !C. cbn [only kind_eqb]. repeat split; lia.
Qed.

(** C9 on the service with the AI endpoint down and the four fixed
    prompts, with no poll budget at all. *)
Lemma loop_terminates_when_service_is_down_witness :
  exists st' delta,
    prompts_loop Mock.libraries Mock.offline 0 (lit "thread_1") 4 (enumerate analysis_prompts)
                 (mk_locals [] None) (Mock.start (Mock.healthy []))
    = (st', Return (mk_locals [] None))
    /\ trace st' = delta
    /\ count KMessagesCreate delta = 12
    /\ count KRunsRetrieve delta = 0
    /\ length delta = 40.
Proof.
  destruct (@loop_terminates_when_service_is_down
              Mock.world Mock.libraries Mock.offline 0 (lit "thread_1") analysis_prompts
              (mk_locals [] None) (Mock.start (Mock.healthy [])))
    as [st' [delta [R [T [C1 [_ [_ [_ [C2 [_ C3]]]]]]]]]].
  - intros thread_id role content w. eexists. eexists. reflexivity.
  - intros thread_id assistant w. eexists. eexists. reflexivity.
  - exists st', delta. split; [exact R|]. split; [exact T|].
    split; [exact C1|]. split; [exact C2|exact C3].
Defined.

(** ** A batch in which no prompt completes *)

Lemma uploads_app (a b : list event) : uploads (a ++ b) = uploads a ++ uploads b.
Proof. unfold uploads. now rewrite flat_map_app. Qed.

Lemma uploads_none (tr : list event) : count KOnedrivePut tr = 0 -> uploads tr = [].
Proof.
  unfold count, total. induction tr as [|ev tr IH]; [reflexivity|].
  cbn [map list_sum]. intros H.
  change (uploads (ev :: tr))
    with (match ev with
          | Call (OnedrivePut file_name _ doc) => [(file_name, doc)]
          | _ => []
          end ++ uploads tr).
  destruct ev as [msg|msg|s|[]]; cbn [kind_of only kind_eqb] in H;
    try discriminate H; apply IH; exact H.
Qed.

(** C1, on the code. When every submission fails, the prompt loop does
    complete, for every prompt sequence; but [sorted_messages] was never
    assigned, so reading it for the draft raises [UnboundLocalError]:
    [handle_request] logs the error and raises it again, and no document
    is uploaded. *)
Theorem no_prompt_completing_aborts_before_the_documents
    (W : Type) (libs : Libraries) (svc : Service W) (fuel : nat)
    (attachments_folder_id response_folder_id : str)
    (st st1 : state W) (prompts : list str) (w2 : W) (thread_id : str) :
  (forall thread_id role content w,
      exists w' e, messages_create svc thread_id role content w = (w', Err e)) ->
  ingest libs svc attachments_folder_id st = (st1, Return prompts) ->
  threads_create svc (world st1) = (w2, Ok thread_id) ->
  exists st' delta,
    handle_request libs svc fuel attachments_folder_id response_folder_id st
    = (st', Raise (UnboundLocalError "sorted_messages"))
    /\ trace st' = trace st1 ++ delta
    /\ count KMessagesCreate delta = 3 * length prompts
    /\ uploads delta = []
    /\ last delta (Sleep 0)
       = LogError (lit "Error in handle_request: "
                     ++ exn_message (UnboundLocalError "sorted_messages")).
Proof.
  intros Hm Hi Ht.
  unfold handle_request, try_except, bind at 1. rewrite Hi.
  unfold converse, bind at 1. cbn [logging_info emit].
  unfold bind at 1, try_except, bind at 1, call. cbn [world trace]. rewrite Ht.
  cbn [logging_info emit bind ret world trace].
  match goal with |- context [bind (prompts_loop _ _ _ _ _ _ ?l) _ ?s] =>
    destruct (@prompts_loop_all_fail W libs svc Hm fuel thread_id (length prompts)
                (enumerate prompts) l s) as [st2 [delta [R [T C]]]] end.
  unfold bind at 1. rewrite R. cbn [sorted_messages last_response_of lift bind].
  unfold bind, logging_error, emit, raise.
  eexists. eexists. split; [reflexivity|]. cbn [trace].
  rewrite T. cbn [trace]. rewrite <- !app_assoc. split; [reflexivity|].
  rewrite length_enumerate in C.
  split.
  { unfold count. rewrite !total_app, C. cbn. lia. }
  split.
  { rewrite !uploads_app, (uploads_none delta); [reflexivity|].
    unfold count. rewrite C. cbn. lia. }
  rewrite !app_assoc. apply last_last.
Qed.

(** C1 on the service with the AI endpoint down and an empty folder. *)
Lemma no_prompt_completing_aborts_before_the_documents_witness :
  exists st' delta,
    handle_request Mock.libraries Mock.offline 5 (lit "A") (lit "R")
                   (Mock.start (Mock.healthy []))
    = (st', Raise (UnboundLocalError "sorted_messages"))
    /\ count KMessagesCreate delta = 12
    /\ uploads delta = [].
Proof.
  destruct (@no_prompt_completing_aborts_before_the_documents
              Mock.world Mock.libraries Mock.offline 5 (lit "A") (lit "R")
              (Mock.start (Mock.healthy []))
              (fst (ingest Mock.libraries Mock.offline (lit "A")
                           (Mock.start (Mock.healthy []))))
              analysis_prompts (Mock.healthy []) (lit "thread_1"))
    as [st' [delta [R [_ [C [U _]]]]]].
  - intros thread_id role content w. eexists. eexists. reflexivity.
  - vm_compute. reflexivity.
  - vm_compute. reflexivity.
  - exists st', delta. split; [exact R|]. split; [exact C|exact U].
Defined.

(** ** A run that does not complete *)

Lemma bounded_run {W A} (w : kind -> nat) (n : nat) (c : M W A)
    (st st' : state W) (r : outcome A) :
  bounded w n c -> c st = (st', r) ->
  exists delta, trace st' = trace st ++ delta /\ total w delta <= n.
Proof. intros H E. specialize (H st). now rewrite E in H. Qed.

(** C4, as the code has it. When the run of a prompt ends in a status
    other than [completed], the loop body logs the failure and returns at
    once with the locals unchanged: the message list is not fetched for
    that prompt (no [messages.list] call is made anywhere in the
    iteration), and the running transcript and the chat document stay as
    the last completed prompt left them. *)
Theorem failed_run_is_skipped_without_refresh (W : Type) (libs : Libraries) (svc : Service W)
    (fuel : nat) (thread_id : str) (n i : nat) (prompt : str) (loc : locals)
    (st st1 st2 st3 : state W) (message : Message) (run run' : Run) :
  submit_attempts svc 3 thread_id i n prompt st = (st1, Return (Some message)) ->
  run_attempts svc 3 thread_id i n st1 = (st2, Return (Some run)) ->
  poll svc fuel thread_id run st2 = (st3, Return run') ->
  not_completed (status run') = true ->
  exists st' delta,
    process_prompt libs svc fuel thread_id n i prompt loc st = (st', Return loc)
    /\ trace st' = trace st ++ delta
    /\ last delta (Sleep 0)
       = LogError (lit "Run for question " ++ progress i n
                     ++ lit " failed with status: " ++ status_name (status run'))
    /\ count KMessagesList delta = 0.
Proof.
  intros H1 H2 H3 H4.
  rewrite (process_prompt_run_not_completed libs svc fuel thread_id n i prompt loc
             st H1 H2 H3 H4).
  destruct (@bounded_run _ _ _ _ _ _ _ _
              (@submit_attempts_bounded W (only KMessagesList) svc 3 thread_id i n prompt) H1)
    as [d1 [T1 B1]].
  destruct (@bounded_run _ _ _ _ _ _ _ _
              (@run_attempts_bounded W (only KMessagesList) svc 3 thread_id i n) H2)
    as [d2 [T2 B2]].
  destruct (@bounded_run _ _ _ _ _ _ _ _
              (@poll_bounded W (only KMessagesList) svc fuel thread_id run) H3)
    as [d3 [T3 B3]].
  eexists. eexists. split; [reflexivity|]. cbn [record trace].
  rewrite T3, T2, T1, <- !app_assoc. split; [reflexivity|].
  split; [rewrite !app_assoc; apply last_last|].
  unfold count. rewrite !total_app.
  unfold submit_turn, run_turn, poll_turn in *. cbn [only kind_eqb] in *.
  unfold total at 4. simpl. lia.
Qed.

(** C4 on a service whose first run ends [failed]. *)
Lemma failed_run_is_skipped_without_refresh_witness :
  exists st' delta,
    process_prompt Mock.libraries Mock.service 1 (lit "thread_1") 4 0 rfp_analysis_prompt
                   (mk_locals [] None) (Mock.start (Mock.scripted [failed]))
    = (st', Return (mk_locals [] None))
    /\ trace st' = delta
    /\ count KMessagesList delta = 0.
Proof.
  pose (st := Mock.start (Mock.scripted [failed])).
  pose (r1 := submit_attempts Mock.service 3 (lit "thread_1") 0 4 rfp_analysis_prompt st).
  pose (r2 := run_attempts Mock.service 3 (lit "thread_1") 0 4 (fst r1)).
  pose (r3 := poll Mock.service 1 (lit "thread_1") (mk_runobj (lit "run_1") queued) (fst r2)).
  destruct (@failed_run_is_skipped_without_refresh
              Mock.world Mock.libraries Mock.service 1 (lit "thread_1") 4 0 rfp_analysis_prompt
              (mk_locals [] None) st (fst r1) (fst r2) (fst r3)
              (mk_message (lit "msg_0") (lit "user") [TextContent rfp_analysis_prompt] 1)
              (mk_runobj (lit "run_1") queued) (mk_runobj (lit "run_1") failed))
    as [st' [delta [R [T [_ C]]]]].
  - vm_compute. reflexivity.
  - vm_compute. reflexivity.
  - vm_compute. reflexivity.
  - reflexivity.
  - exists st', delta. split; [exact R|]. split; [exact T|exact C].
Defined.

(** C4, as it was claimed: here a run ends [failed], and the message list
    is not fetched for its prompt. *)
Lemma failed_run_refresh_counterexample :
  let out := process_prompt Mock.libraries Mock.service 1 (lit "thread_1") 4 0 rfp_analysis_prompt
                            (mk_locals [] None) (Mock.start (Mock.scripted [failed])) in
  snd out = Return (mk_locals [] None)
  /\ last (trace (fst out)) (Sleep 0)
     = LogError (lit "Run for question 1/4 failed with status: failed")
  /\ count KRunsRetrieve (trace (fst out)) = 1
  /\ count KMessagesList (trace (fst out)) = 0.
Proof. vm_compute. repeat split; reflexivity. Qed.

(** ** The transcript and the two documents *)

Lemma insert_by_created_at_perm (x : Message) (l : list Message) :
  Permutation (x :: l) (insert_by_created_at x l).
Proof.
  induction l as [|y l IH]; simpl; [apply Permutation_refl|].
  destruct (created_at x <=? created_at y)%Z; [apply Permutation_refl|].
  apply perm_trans with (y :: x :: l); [apply perm_swap|now apply perm_skip].
Qed.

Lemma insert_by_created_at_sorted (x : Message) (l : list Message) :
  StronglySorted earlier l -> StronglySorted earlier (insert_by_created_at x l).
Proof.
  induction 1 as [|y l S IH F]; simpl.
  - repeat constructor.
  - destruct (Z.leb_spec (created_at x) (created_at y)) as [L|L].
    + constructor; [now constructor|]. constructor; [exact L|].
      eapply Forall_impl; [|exact F]. unfold earlier. intros m Hm. lia.
    + constructor; [exact IH|].
      eapply Permutation_Forall; [apply insert_by_created_at_perm|].
      constructor; [unfold earlier; lia|exact F].
Qed.

Lemma sorted_perm (l : list Message) : Permutation l (sorted l).
Proof.
  induction l as [|x l IH]; simpl; [constructor|].
  eapply perm_trans; [apply perm_skip, IH|apply insert_by_created_at_perm].
Qed.

Lemma sorted_sorted (l : list Message) : StronglySorted earlier (sorted l).
Proof.
  induction l as [|x l IH]; simpl; [constructor|].
  now apply insert_by_created_at_sorted.
Qed.

Lemma sorted_fixes_sorted (l : list Message) :
  StronglySorted earlier l -> sorted l = l.
Proof.
  induction 1 as [|x l S IH F]; simpl; [reflexivity|].
  rewrite IH. destruct l as [|y l]; [reflexivity|]. simpl.
  inversion F as [|? ? L _]; subst. unfold earlier in L.
  destruct (Z.leb_spec (created_at x) (created_at y)); [reflexivity|lia].
Qed.

Lemma sorted_idempotent (l : list Message) : sorted (sorted l) = sorted l.
Proof. apply sorted_fixes_sorted, sorted_sorted. Qed.

Lemma add_messages_writes (W : Type) (libs : Libraries) (msgs : list Message) :
  forall (doc : Document) (st : state W),
    add_messages libs msgs doc st = (st, appended doc (write_messages libs msgs)).
Proof.
  induction msgs as [|m msgs IH]; intros doc st; cbn [add_messages write_messages].
  - cbn. now rewrite app_nil_r.
  - unfold bind at 1, lift at 1. unfold chat_runs.
    destruct (first_text m) as [value|e]; [|reflexivity].
    cbn [store_runs bold plain run_text run_bold]. unfold bind, lift, add_run.
    destruct (docx_add_run libs _) as [label|e]; [|reflexivity].
    destruct (docx_add_run libs value) as [text|e]; [|reflexivity].
    rewrite IH. cbn [app].
    destruct (write_messages libs msgs) as [blocks|e]; cbn [appended]; [|reflexivity].
    now rewrite <- app_assoc.
Qed.

Lemma write_messages_as_given (libs : Libraries) (msgs : list Message) :
  Forall (readable libs) msgs ->
  write_messages libs msgs = Ok (map chat_paragraph msgs).
Proof.
  induction 1 as [|m msgs [[value Hv] G] _ IH]; cbn [write_messages map]; [reflexivity|].
  rewrite (store_runs_as_given G), IH, Hv. reflexivity.
Qed.

Lemma add_messages_appends (W : Type) (libs : Libraries) (msgs : list Message) :
  Forall (readable libs) msgs ->
  forall (doc : Document) (st : state W),
    add_messages libs msgs doc st = (st, Return (doc ++ map chat_paragraph msgs)).
Proof.
  intros H doc st. now rewrite add_messages_writes, (write_messages_as_given H).
Qed.

(** Every completed prompt appends the whole sorted transcript to the
    chat document, on top of what the earlier prompts appended. *)
Lemma process_prompt_completed_appends (W : Type) (libs : Libraries) (svc : Service W)
    (fuel : nat) (thread_id : str) (n i : nat) (prompt : str) (loc : locals)
    (st st1 st2 st3 : state W) (message : Message) (run run' : Run)
    (w4 : W) (messages : list Message) :
  submit_attempts svc 3 thread_id i n prompt st = (st1, Return (Some message)) ->
  run_attempts svc 3 thread_id i n st1 = (st2, Return (Some run)) ->
  poll svc fuel thread_id run st2 = (st3, Return run') ->
  status run' = completed ->
  messages_list svc thread_id (world st3) = (w4, Ok messages) ->
  Forall (readable libs) messages ->
  process_prompt libs svc fuel thread_id n i prompt loc st
  = (mk_state w4 (trace st3 ++ [Call (MessagesList thread_id)]),
     Return (mk_locals (chat_doc loc ++ map chat_paragraph (sorted messages))
                       (Some (sorted messages)))).
Proof.
  intros H1 H2 H3 H4 H5 H6. unfold process_prompt, bind at 1. rewrite H1.
  unfold bind at 1. rewrite H2. unfold bind at 1. rewrite H3, H4.
  cbn [not_completed]. unfold bind at 1, call. rewrite H5.
  unfold bind. rewrite add_messages_appends; [reflexivity|].
  eapply Permutation_Forall; [apply sorted_perm|exact H6].
Qed.

(** C2, on the code. The transcript fetched after a completed prompt is
    sorted by creation time, a permutation of what the service listed, and
    sorting it again changes nothing; the draft is built from the last
    message of that transcript.  But the chat document is not that
    transcript: it is never reset, so each completed prompt adds the whole
    transcript again.  With four prompts that all complete, the thread has
    8 messages and the uploaded chat history has 2 + 4 + 6 + 8 = 20
    paragraphs, the first exchange four times over. *)
Theorem chat_history_repeats_the_transcript :
  (forall messages,
      StronglySorted earlier (sorted messages)
      /\ Permutation messages (sorted messages)
      /\ sorted (sorted messages) = sorted messages)
  /\ let out := handle_request Mock.libraries Mock.service 2 (lit "A") (lit "R")
                               (Mock.start (Mock.healthy [])) in
     let transcript := sorted (Mock.thread (world (fst out))) in
     snd out = Return tt
     /\ length transcript = 8
     /\ NoDup (map message_id transcript)
     /\ uploads (trace (fst out))
        = [ (lit "chat_history.docx",
             Heading (lit "Chat History") 0
               :: map chat_paragraph
                      (firstn 2 transcript ++ firstn 4 transcript
                         ++ firstn 6 transcript ++ transcript));
            (lit "draft_response.docx",
             [ Heading (lit "Draft Proposal") 0;
               Paragraph [plain (match first_text (last transcript (mk_message [] [] [] 0))
                                 with Ok value => value | Err _ => [] end)] ]) ].
Proof.
  split.
  { intros messages. split; [apply sorted_sorted|].
    split; [apply sorted_perm|apply sorted_idempotent]. }
  cbv zeta. split; [vm_compute; reflexivity|].
  split; [vm_compute; reflexivity|].
  split; [|vm_compute; reflexivity].
  vm_compute. repeat constructor; simpl; intuition discriminate.
Qed.

(** ** Files the extractor cannot read *)

Section ExtractorErrors.
Variable W : Type.
Variable libs : Libraries.

Lemma process_excel_reports (file_content : bytes) (e : exn) (st : state W) :
  read_excel_to_string libs file_content = Err e ->
  process_excel libs file_content st
  = (record (LogError (lit "Error processing Excel file: " ++ exn_message e)) st,
     Return (lit "Error processing Excel file: " ++ exn_message e)).
Proof. intros H. unfold process_excel, try_except, lift. now rewrite H. Qed.

Lemma process_word_raises (file_content : bytes) (e : exn) (st : state W) :
  docx_paragraph_texts libs file_content = Err e ->
  process_word libs file_content st = (st, Raise e).
Proof. intros H. unfold process_word, bind, lift. now rewrite H. Qed.

Lemma process_pdf_raises (file_content : bytes) (e : exn) (st : state W) :
  pdf_page_texts libs file_content = Err e ->
  process_pdf libs file_content st = (st, Raise e).
Proof. intros H. unfold process_pdf, bind, lift. now rewrite H. Qed.

Lemma process_ppt_raises (file_content : bytes) (e : exn) (st : state W) :
  pptx_shape_texts libs file_content = Err e ->
  process_ppt libs file_content st = (st, Raise e).
Proof. intros H. unfold process_ppt, bind, lift. now rewrite H. Qed.

Lemma process_text_raises (file_content : bytes) (e : exn) (st : state W) :
  decode_utf8 file_content = Err e ->
  process_text file_content st = (st, Raise e).
Proof. intros H. unfold process_text, lift. now rewrite H. Qed.

End ExtractorErrors.

(** C3, on the code. Only two per-file errors become text: an
    unsupported file type, and an Excel file that cannot be read (caught
    and logged in [process_excel]).  The Word, PDF, PowerPoint and text
    extractors have no such handler: what their parser raises leaves
    [process_file].  A text file holding the byte [0xff] raises
    [UnicodeDecodeError] out of [process_file], [download_from_adls] stops
    at that file without fetching the next, and [handle_request] raises
    without creating a thread or uploading a document. *)
Theorem corrupt_file_raises_out_of_the_extractor :
  (forall W (st : state W),
      process_file Mock.libraries (lit "A/logo.png") [xff] st
      = (st, Return (lit "Unsupported file type: .png")))
  /\ (forall W libs file_content e (st : state W),
        read_excel_to_string libs file_content = Err e ->
        process_excel libs file_content st
        = (record (LogError (lit "Error processing Excel file: " ++ exn_message e)) st,
           Return (lit "Error processing Excel file: " ++ exn_message e)))
  /\ (forall W libs file_content e (st : state W),
        (docx_paragraph_texts libs file_content = Err e ->
         process_word libs file_content st = (st, Raise e))
        /\ (pdf_page_texts libs file_content = Err e ->
            process_pdf libs file_content st = (st, Raise e))
        /\ (pptx_shape_texts libs file_content = Err e ->
            process_ppt libs file_content st = (st, Raise e))
        /\ (decode_utf8 file_content = Err e ->
            process_text file_content st = (st, Raise e)))
  /\ (forall W (st : state W),
        process_file Mock.libraries (lit "A/notes.txt") [xff] st
        = (st, Raise UnicodeDecodeError)
        /\ process_file Mock.libraries (lit "A/rfp.pdf") [xff] st
           = (st, Raise (ValueError (lit "No /Root object! - Is this really a PDF?"))))
  /\ (let out := download_from_adls Mock.libraries Mock.service (lit "A")
                                    (Mock.start (Mock.healthy one_bad_text_file)) in
      snd out = Raise UnicodeDecodeError
      /\ count KDownloadBlob (trace (fst out)) = 1)
  /\ (let out := handle_request Mock.libraries Mock.service 2 (lit "A") (lit "R")
                                (Mock.start (Mock.healthy one_bad_text_file)) in
      snd out = Raise UnicodeDecodeError
      /\ count KThreadsCreate (trace (fst out)) = 0
      /\ uploads (trace (fst out)) = []).
Proof.
  split; [intros W st; reflexivity|].
  split; [intros W libs fc e st; apply process_excel_reports|].
  split.
  { intros W libs fc e st.
    split; [apply process_word_raises|].
    split; [apply process_pdf_raises|].
    split; [apply process_ppt_raises|apply process_text_raises]. }
  split; [intros W st; split; reflexivity|].
  split; vm_compute; repeat split; reflexivity.
Qed.

(** ** The status codes of the entry point *)

(** C10, as it was claimed: the rejection is not tied to a missing or
    empty field.  A body with [false] for one folder id has both fields
    present and not empty and is rejected with 400; a body that is a JSON
    array parses, has neither field, and is answered with 500. *)
Lemma rejection_counterexample :
  ~ (forall req,
        status_of req = 400
        <-> exists req_body,
              get_json req = Ok req_body
              /\ (missing_or_empty req_body (lit "attachments_folder_id") = true
                  \/ missing_or_empty req_body (lit "response_folder_id") = true))
  /\ status_of (mk_request (Ok (JObject [ (lit "attachments_folder_id", JBool false);
                                           (lit "response_folder_id", JString (lit "R")) ])))
     = 400
  /\ status_of (mk_request (Ok (JArray []))) = 500.
Proof.
  split; [|split; reflexivity].
  intros claim.
  destruct (claim (mk_request (Ok (JArray [])))) as [_ back].
  assert (H : status_of (mk_request (Ok (JArray []))) = 400).
  { apply back. exists (JArray []). split; [reflexivity|]. left. reflexivity. }
  discriminate H.
Qed.

Lemma truthy_false (v : json) :
  truthy v = false
  <-> v = JNull \/ v = JBool false \/ v = JInt 0
      \/ (exists f, v = JFloat f /\ PrimFloat.eqb f 0%float = true)
      \/ v = JString [] \/ v = JArray [] \/ v = JObject [].
Proof.
  split.
  - destruct v as [|b|z|f|s|items|members]; simpl; intros H.
    + now left.
    + subst b. right. now left.
    + apply negb_false_iff, Z.eqb_eq in H. subst z. right. right. now left.
    + apply negb_false_iff in H. right. right. right. left. now exists f.
    + destruct s; [|discriminate]. do 4 right. now left.
    + destruct items; [|discriminate]. do 5 right. now left.
    + destruct members; [|discriminate]. do 6 right. reflexivity.
  - intros [->|[->|[->|[[f [-> H]]|[->|[->| ->]]]]]]; simpl; try reflexivity.
    now rewrite H.
Qed.

Lemma main_cases (req : HttpRequest) :
  match get_json req with
  | Ok (JObject members) =>
      if truthy (dict_get members (lit "attachments_folder_id"))
         && truthy (dict_get members (lit "response_folder_id"))
      then status_of req = 202
           /\ dispatched (fst (main req))
              = [(dict_get members (lit "attachments_folder_id"),
                  dict_get members (lit "response_folder_id"))]
      else status_of req = 400 /\ dispatched (fst (main req)) = []
  | _ => status_of req = 500 /\ dispatched (fst (main req)) = []
  end.
Proof.
  unfold status_of, main. destruct req as [[req_body|e]]; cbn [get_json].
  - destruct req_body as [|b|z|f|s|items|members]; cbn [body_get];
      try (split; reflexivity).
    destruct (truthy (dict_get members (lit "attachments_folder_id")));
      destruct (truthy (dict_get members (lit "response_folder_id")));
      split; reflexivity.
  - split; reflexivity.
Qed.

(** C10, as the code has it. A body that is not parseable JSON is
    answered with 500 and starts no background processing.  The 400
    rejection is returned exactly when the body parses to a JSON object
    and the value of either folder-id field is missing or falsy (null,
    false, zero, or an empty string, array or object); a body that parses
    to anything but an object is answered with 500; and 202 is returned,
    with exactly one background thread started on the two values, exactly
    when the body is an object with both values truthy. *)
Theorem trigger_status_codes (req : HttpRequest) :
  (forall e, get_json req = Err e ->
             status_of req = 500 /\ dispatched (fst (main req)) = [])
  /\ (status_of req = 400
      <-> exists members,
            get_json req = Ok (JObject members)
            /\ (truthy (dict_get members (lit "attachments_folder_id")) = false
                \/ truthy (dict_get members (lit "response_folder_id")) = false))
  /\ (status_of req = 500
      <-> (exists e, get_json req = Err e)
          \/ (exists req_body, get_json req = Ok req_body
                               /\ forall members, req_body <> JObject members))
  /\ (status_of req = 202
      <-> exists members,
            get_json req = Ok (JObject members)
            /\ truthy (dict_get members (lit "attachments_folder_id")) = true
            /\ truthy (dict_get members (lit "response_folder_id")) = true)
  /\ (status_of req = 400 \/ status_of req = 500 \/ status_of req = 202)
  /\ dispatched (fst (main req))
     = match get_json req with
       | Ok (JObject members) =>
           if truthy (dict_get members (lit "attachments_folder_id"))
              && truthy (dict_get members (lit "response_folder_id"))
           then [(dict_get members (lit "attachments_folder_id"),
                  dict_get members (lit "response_folder_id"))]
           else []
       | _ => []
       end
  /\ (forall v, truthy v = false
                <-> v = JNull \/ v = JBool false \/ v = JInt 0
                    \/ (exists f, v = JFloat f /\ PrimFloat.eqb f 0%float = true)
                    \/ v = JString [] \/ v = JArray [] \/ v = JObject []).
Proof.
  pose proof (main_cases req) as C. destruct req as [[req_body|e]]; cbn [get_json] in *.
  - destruct req_body as [|b|z|f|s|items|members];
      try (destruct C as [S D]; rewrite S, D;
           split; [intros e H; discriminate H|];
           split; [split; [discriminate|intros [m [H _]]; discriminate H]|];
           split; [split; [intros _; right; eexists; split;
                            [reflexivity|intros m; discriminate]
                          |reflexivity]|];
           split; [split; [discriminate|intros [m [H _]]; discriminate H]|];
           split; [right; left; reflexivity|];
           split; [reflexivity|apply truthy_false]).
    destruct (truthy (dict_get members (lit "attachments_folder_id"))) eqn:Ta;
      destruct (truthy (dict_get members (lit "response_folder_id"))) eqn:Tr;
      cbn [andb] in C; destruct C as [S D]; rewrite S, D;
      (split; [intros e H; discriminate H|]);
      (split; [split; [first [discriminate
                             |intros _; exists members;
                              split; [reflexivity|auto]]
                      |try reflexivity;
                       intros [m [H [F|F]]]; injection H as <-; congruence]|]);
      (split; [split; [discriminate
                      |intros [[e H]|[b [H N]]];
                         [discriminate H|injection H as <-; now destruct (N members)]]|]);
      (split; [split; [first [discriminate
                             |intros _; exists members;
                              split; [reflexivity|auto]]
                      |try reflexivity;
                       intros [m [H [Fa Fr]]]; injection H as <-; congruence]|]);
      (split; [auto|]);
      (split; [reflexivity|apply truthy_false]).
  - destruct C as [S D]; rewrite S, D.
    split; [intros e' _; split; reflexivity|].
    split; [split; [discriminate|intros [m [H _]]; discriminate H]|].
    split; [split; [intros _; left; now exists e|reflexivity]|].
    split; [split; [discriminate|intros [m [H _]]; discriminate H]|].
    split; [right; left; reflexivity|].
    split; [reflexivity|apply truthy_false].
Qed.

(** ** The model on small inputs *)

Example range_steps : range 0 10 4 = [0; 4; 8] /\ range 0 8 4 = [0; 4] /\ range 0 0 4 = [].
Proof. repeat split; reflexivity. Qed.

Example chunk_text_by_three :
  chunk_text 3 (lit "abcdefgh") = [lit "abc"; lit "def"; lit "gh"].
Proof. reflexivity. Qed.

Example find_marker_positions :
  find (lit "a **b** c") (lit "**") 0 = 2%Z
  /\ find (lit "a **b** c") (lit "**") 4 = 5%Z
  /\ find (lit "a **b") (lit "**") 4 = (-1)%Z
  /\ find (lit "ab") (lit "**") 7 = (-1)%Z.
Proof. repeat split; reflexivity. Qed.

Example split_lines :
  split 10%N (lit "a" ++ nl ++ nl ++ lit "b") = [lit "a"; []; lit "b"]
  /\ split 10%N [] = [[]].
Proof. split; reflexivity. Qed.

Example format_adjacent_markers :
  format_paragraph Mock.libraries (lit "**a** **b***c**")
  = Return [plain []; bold (lit "a"); plain (lit " "); bold (lit "b"); plain (lit "*c**")].
Proof. reflexivity. Qed.

(** A form feed in the content raises out of the renderer, and a
    carriage return comes back from the document as a line break. *)
Example format_control_characters :
  add_formatted_content Mock.libraries [] (lit "a" ++ [12%N] ++ lit "b")
  = Raise (ValueError (lit "All strings must be XML compatible: Unicode or ASCII, no NULL bytes or control characters"))
  /\ add_formatted_content Mock.libraries [] (lit "a" ++ [13%N] ++ lit "b")
     = Return [Paragraph [plain (lit "a" ++ nl ++ lit "b")]].
Proof. split; reflexivity. Qed.

Example splitext_cases :
  splitext Mock.libraries (lit "A/report.final.PDF") = (lit "A/report.final", lit ".PDF")
  /\ splitext Mock.libraries (lit "A.b/notes") = (lit "A.b/notes", [])
  /\ splitext Mock.libraries (lit "A/.hidden") = (lit "A/.hidden", [])
  /\ lower Mock.libraries (lit ".PDF") = lit ".pdf".
Proof. repeat split; reflexivity. Qed.

Example decode_utf8_cases :
  decode_utf8 [x41; xc3; xa9; xe2; x82; xac] = Ok [65; 233; 8364]%N
  /\ decode_utf8 [xf0; x9f; x98; x80] = Ok [128512%N]
  /\ decode_utf8 [xc0; x80] = Err UnicodeDecodeError
  /\ decode_utf8 [xed; xa0; x80] = Err UnicodeDecodeError
  /\ decode_utf8 [xe2; x82] = Err UnicodeDecodeError.
Proof. repeat split; reflexivity. Qed.

Example sorted_is_stable :
  let m id t := mk_message (lit id) (lit "user") [] t in
  sorted [m "c"%string 2%Z; m "a"%string 1%Z; m "d"%string 2%Z; m "b"%string 1%Z]
  = [m "a"%string 1%Z; m "b"%string 1%Z; m "c"%string 2%Z; m "d"%string 2%Z].
Proof. reflexivity. Qed.

Example exhausted_submission_is_skipped :
  let out := process_prompt Mock.libraries Mock.offline 0 (lit "thread_1") 4 0 (lit "p")
                            (mk_locals [] None) (Mock.start (Mock.healthy [])) in
  snd out = Return (mk_locals [] None)
  /\ count KMessagesCreate (trace (fst out)) = 3
  /\ count KSleep (trace (fst out)) = 3
  /\ last (trace (fst out)) (Sleep 0) = LogError (lit "Giving up on prompt 1/4: p").
Proof. vm_compute. repeat split; reflexivity. Qed.

Example exhausted_run_creation_is_skipped :
  let w := Mock.mk_world 1 [] true false [] completed 0 0 [] in
  let out := process_prompt Mock.libraries Mock.service 0 (lit "thread_1") 4 1 (lit "p")
                            (mk_locals [] None) (Mock.start w) in
  snd out = Return (mk_locals [] None)
  /\ count KMessagesCreate (trace (fst out)) = 1
  /\ count KRunsCreate (trace (fst out)) = 3
  /\ count KSleep (trace (fst out)) = 3
  /\ last (trace (fst out)) (Sleep 0)
     = LogError (lit "Giving up on running thread for prompt 2/4").
Proof. vm_compute. repeat split; reflexivity. Qed.

Example completed_batch_uploads_both_documents :
  let out := handle_request Mock.libraries Mock.service 2 (lit "A") (lit "R")
                            (Mock.start (Mock.healthy [])) in
  snd out = Return tt
  /\ map fst (uploads (trace (fst out)))
     = [lit "chat_history.docx"; lit "draft_response.docx"]
  /\ count KMessagesCreate (trace (fst out)) = 4
  /\ count KRunsCreate (trace (fst out)) = 4
  /\ count KRunsRetrieve (trace (fst out)) = 8
  /\ count KMessagesList (trace (fst out)) = 4.
Proof. vm_compute. repeat split; reflexivity. Qed.

Example stuck_run_exhausts_the_poll_budget :
  let w := Mock.mk_world 1 [] true true [] completed 0 9 [] in
  snd (handle_request Mock.libraries Mock.service 5 (lit "A") (lit "R") (Mock.start w))
  = OutOfFuel.
Proof. vm_compute. reflexivity. Qed.

Example trigger_cases :
  let folder_ids a r := JObject [ (lit "attachments_folder_id", a);
                                  (lit "response_folder_id", r) ] in
  status_of (mk_request (Err (ValueError (lit "HTTP request does not contain valid JSON data")))) = 500
  /\ status_of (mk_request (Ok (folder_ids (JString (lit "A")) (JString (lit "R"))))) = 202
  /\ status_of (mk_request (Ok (folder_ids (JString (lit "A")) (JString [])))) = 400
  /\ status_of (mk_request (Ok (JObject [(lit "attachments_folder_id", JString (lit "A"))]))) = 400
  /\ status_of (mk_request (Ok (folder_ids (JInt 0) (JString (lit "R"))))) = 400
  /\ status_of (mk_request (Ok (JString (lit "A")))) = 500.
Proof. repeat split; reflexivity. Qed.

(* ===================================================================== *)
(** * Further properties of the code *)
(* ===================================================================== *)

(** ** The flat chunk list *)

Lemma length_chunk_text (size : nat) (s : str) :
  length (chunk_text size s) = chunk_count size (length s).
Proof. rewrite chunk_text_windows. unfold windows. now rewrite length_map, length_seq. Qed.

Lemma chunk_text_nonempty (size : nat) (s : str) :
  0 < size -> Forall (fun chunk => chunk <> []) (chunk_text size s).
Proof.
  intros Hs. apply Forall_forall. intros chunk Hin.
  apply In_nth_error in Hin. destruct Hin as [k Hk].
  destruct (@chunk_text_nth size s k chunk Hs Hk) as [E [L _]].
  intros ->. apply (f_equal (@length _)) in E. rewrite slice_width in E.
  rewrite length_firstn, length_skipn in E. simpl in E. lia.
Qed.

Lemma chunk_text_nil (size : nat) : 0 < size -> chunk_text size [] = [].
Proof.
  intros Hs. rewrite chunk_text_windows. unfold chunk_count. simpl length.
  now rewrite Nat.div_small by lia.
Qed.

(** X1. The flat chunk list of a whole folder keeps all the text and
    nothing else: concatenated it is the concatenation of the files, no
    chunk is empty or longer than 100000 characters, a file of [n]
    characters gives [ceil(n / 100000)] chunks, so an empty file gives
    none, and the prompt sequence has that many prompts plus four. *)
Theorem flat_chunks_keep_the_text (adls_file_contents : list str) :
  let chunks := make_chunks adls_file_contents in
  concat chunks = concat adls_file_contents
  /\ Forall (fun chunk => chunk <> [] /\ (N.of_nat (length chunk) <= 100000)%N) chunks
  /\ length chunks
     = list_sum (map (fun file_content => chunk_count chunk_size (length file_content))
                     adls_file_contents)
  /\ length (make_prompts chunks) = length chunks + 4
  /\ make_chunks (filter (fun file_content => negb (Nat.eqb (length file_content) 0))
                         adls_file_contents)
     = chunks.
Proof.
  cbv zeta. rewrite !make_chunks_flat.
  split.
  { induction adls_file_contents as [|f rest IH]; [reflexivity|].
    cbn [flat_map concat]. rewrite concat_app, IH.
    now rewrite chunk_text_concat by apply chunk_size_pos. }
  split.
  { induction adls_file_contents as [|f rest IH]; [constructor|].
    cbn [flat_map]. apply Forall_app. split; [|exact IH].
    pose proof (@chunk_text_nonempty chunk_size f chunk_size_pos) as NE.
    pose proof (chunk_text_bounded chunk_size f) as B.
    rewrite Forall_forall in *. intros c Hc. split; [now apply NE|].
    specialize (B c Hc). cbv beta in B. unfold chunk_size in B. lia. }
  split.
  { induction adls_file_contents as [|f rest IH]; [reflexivity|].
    cbn [flat_map map list_sum]. now rewrite length_app, IH, length_chunk_text. }
  split.
  { rewrite make_prompts_shape, length_app, length_map, length_enumerate.
    reflexivity. }
  induction adls_file_contents as [|f rest IH]; [reflexivity|].
  cbn [filter flat_map]. destruct f as [|c f].
  - cbn [length Nat.eqb negb]. rewrite IH.
    now rewrite (@chunk_text_nil chunk_size chunk_size_pos).
  - cbn [length Nat.eqb negb flat_map]. now rewrite IH.
Qed.

(** ** What the draft keeps of the reply *)

Lemma unrender_pair (a b : str) (rest : list text_run) :
  unrender (plain a :: bold b :: rest) = a ++ marker ++ b ++ marker ++ unrender rest.
Proof. unfold unrender. cbn [flat_map plain bold run_bold run_text]. now rewrite <- !app_assoc. Qed.

Lemma plain_bold_plain_pair (a b : str) (rest : list text_run) :
  plain_bold_plain rest -> plain_bold_plain (plain a :: bold b :: rest).
Proof.
  intros [E O]. split; [|exact O].
  cbn [map alternate plain bold run_text negb]. now rewrite <- E.
Qed.

Lemma spec_runs_keep_the_text (n : nat) : forall segments : list str,
  length segments <= n -> segments <> [] ->
  plain_bold_plain (spec_runs segments)
  /\ unrender (spec_runs segments) = join marker segments.
Proof.
  induction n as [|n IH]; intros [|s0 [|s1 rest]] L NE; try contradiction;
    try (simpl in L; lia).
  - split; [split; reflexivity|]. unfold unrender. simpl. now rewrite app_nil_r.
  - destruct rest as [|s2 rest].
    + split; [split; reflexivity|]. unfold unrender. simpl. now rewrite app_nil_r.
    + destruct (IH (s2 :: rest)) as [P U]; [simpl in *; lia|discriminate|].
      change (spec_runs (s0 :: s1 :: s2 :: rest))
        with (plain s0 :: bold s1 :: spec_runs (s2 :: rest)).
      split; [now apply plain_bold_plain_pair|].
      rewrite unrender_pair, U. reflexivity.
Qed.

Lemma spec_runs_unrender (paragraph : str) :
  plain_bold_plain (spec_runs (spec_segments paragraph))
  /\ unrender (spec_runs (spec_segments paragraph)) = paragraph.
Proof.
  destruct (spec_runs_keep_the_text (n := length (spec_segments paragraph))
              (segments := spec_segments paragraph))
    as [P U]; [lia|apply spec_segments_nonempty|].
  split; [exact P|]. now rewrite U, join_spec_segments.
Qed.

Lemma store_paragraphs_raises (libs : Libraries) (paragraphs : list (list text_run))
    (e : exn) :
  store_paragraphs libs paragraphs = Err e ->
  exists runs r, In runs paragraphs /\ In r runs /\ docx_add_run libs (run_text r) = Err e.
Proof.
  induction paragraphs as [|runs rest IH]; cbn [store_paragraphs]; [discriminate|].
  destruct (store_runs libs runs) as [kept|e'] eqn:S.
  - destruct (store_paragraphs libs rest) as [blocks|e'']; [discriminate|].
    intros [= ->]. destruct (IH eq_refl) as [runs' [r [I [I' R]]]].
    exists runs', r. split; [now right|]. split; assumption.
  - intros [= ->]. destruct (store_runs_raises _ _ S) as [r [I R]].
    exists runs, r. split; [now left|]. split; assumption.
Qed.

Lemma split_nonempty (sep : codepoint) (s : str) : split sep s <> [].
Proof.
  induction s as [|c s IH]; simpl; [discriminate|].
  destruct (codepoint_eqb c sep); [discriminate|].
  destruct (split sep s); [contradiction|discriminate].
Qed.

Lemma join_split_lines (s : str) : join nl (split 10%N s) = s.
Proof.
  induction s as [|c s IH]; [reflexivity|]. cbn [split].
  pose proof (split_nonempty 10%N s) as NE.
  destruct (split 10%N s) as [|first rest] eqn:E; [contradiction|].
  destruct (codepoint_eqb c 10%N) eqn:Hc.
  - apply N.eqb_eq in Hc. subst c.
    change (join nl ([] :: first :: rest)) with (nl ++ join nl (first :: rest)).
    now rewrite IH.
  - destruct rest as [|second rest]; simpl in *; now rewrite <- IH.
Qed.

Lemma length_split_lines (s : str) : length (split 10%N s) = S (line_breaks s).
Proof.
  unfold line_breaks. induction s as [|c s IH]; [reflexivity|]. cbn [split count_occ].
  pose proof (split_nonempty 10%N s) as NE.
  destruct (split 10%N s) as [|first rest] eqn:E; [contradiction|].
  unfold codepoint_eqb. destruct (N.eq_dec c 10) as [->|D].
  - rewrite N.eqb_refl. simpl length. now rewrite <- IH.
  - apply N.eqb_neq in D. rewrite D. simpl in *. exact IH.
Qed.

(** X2. The draft loses nothing of the reply.  The runs handed to the
    document library, one paragraph per line of the content (one more
    than it has line breaks), are sequences plain, bold, plain, ..., plain,
    and putting [**] back around the bold runs and a line break between
    the paragraphs gives the content back exactly.  The document gets what
    the library stores for them: all of them as they are when the library
    stores each text as given; an exception of [add_formatted_content] is
    the library's, for one of these texts; and its loop always ends. *)
Theorem draft_rendering_is_lossless (libs : Libraries) (draft_doc : Document)
    (content : str) :
  let handed := draft_runs content in
  join nl (map unrender handed) = content
  /\ length handed = S (line_breaks content)
  /\ Forall plain_bold_plain handed
  /\ add_formatted_content libs draft_doc content
     = appended draft_doc (store_paragraphs libs handed)
  /\ (Forall (stored_as_given libs) handed ->
      add_formatted_content libs draft_doc content
      = Return (draft_doc ++ map Paragraph handed))
  /\ (forall e, add_formatted_content libs draft_doc content = Raise e ->
                exists runs r, In runs handed /\ In r runs
                               /\ docx_add_run libs (run_text r) = Err e)
  /\ add_formatted_content libs draft_doc content <> OutOfFuel.
Proof.
  intros handed.
  assert (R : add_formatted_content libs draft_doc content
              = appended draft_doc (store_paragraphs libs handed))
    by apply add_paragraphs_refines.
  split.
  { unfold handed, draft_runs. rewrite map_map.
    rewrite (map_ext _ (fun line => line)), map_id; [apply join_split_lines|].
    intros line. apply spec_runs_unrender. }
  split; [unfold handed, draft_runs; now rewrite length_map, length_split_lines|].
  split.
  { apply Forall_forall. intros runs Hr. apply in_map_iff in Hr.
    destruct Hr as [line [<- _]]. apply spec_runs_unrender. }
  split; [exact R|].
  split; [intros G; now rewrite R, (store_paragraphs_as_given G)|].
  split.
  { intros e. rewrite R. intros X. apply store_paragraphs_raises.
    destruct (store_paragraphs libs handed); cbn in X; [discriminate | congruence]. }
  rewrite R. now destruct (store_paragraphs libs handed).
Qed.

(** X2 on a reply with a title and an unpaired marker. *)
Lemma draft_rendering_is_lossless_witness :
  let content := lit "**Scope**" ++ nl ++ lit "two **parts" in
  add_formatted_content Mock.libraries [Heading (lit "Draft Proposal") 0] content
  = Return ([Heading (lit "Draft Proposal") 0]
            ++ map Paragraph [ [plain []; bold (lit "Scope"); plain []];
                               [plain (lit "two **parts")] ])
  /\ join nl (map unrender (draft_runs content)) = content.
Proof.
  intros content.
  destruct (draft_rendering_is_lossless Mock.libraries
              [Heading (lit "Draft Proposal") 0] content) as [U [_ [_ [_ [G _]]]]].
  split; [|exact U].
  apply G. repeat constructor.
Defined.

(** ** Ties in the transcript *)

Lemma created_at_time_insert (t : Z) (x : Message) (l : list Message) :
  created_at_time t (insert_by_created_at x l)
  = if (created_at x =? t)%Z then x :: created_at_time t l else created_at_time t l.
Proof.
  unfold created_at_time. induction l as [|y l IH]; simpl.
  - now destruct (created_at x =? t)%Z.
  - destruct (Z.leb_spec (created_at x) (created_at y)) as [L|L]; simpl.
    + now destruct (created_at x =? t)%Z.
    + rewrite IH.
      destruct (Z.eqb_spec (created_at x) t) as [Ex|Ex];
        destruct (Z.eqb_spec (created_at y) t) as [Ey|Ey]; try reflexivity; lia.
Qed.

(** X3. Sorting the transcript is stable: the messages that share a
    creation time come out in the order in which the service listed
    them. *)
Theorem transcript_sort_is_stable (messages : list Message) (t : Z) :
  created_at_time t (sorted messages) = created_at_time t messages.
Proof.
  induction messages as [|x l IH]; [reflexivity|].
  cbn [sorted]. rewrite created_at_time_insert, IH.
  unfold created_at_time. simpl. reflexivity.
Qed.

(** ** Text files *)

Lemma push_ok (c : codepoint) (r : result str) (s : str) :
  push c r = Ok s -> exists s', r = Ok s' /\ s = c :: s'.
Proof. destruct r as [s'|e]; simpl; intros H; [|discriminate]. injection H as <-. eauto. Qed.

Ltac range_facts :=
  repeat match goal with
  | H : (_ && _)%bool = true |- _ => apply andb_true_iff in H; destruct H
  | H : in_range _ _ _ = true |- _ => unfold in_range in H
  | H : continuation _ = true |- _ => unfold continuation in H
  | H : (_ <=? _)%N = true |- _ => apply N.leb_le in H
  | H : (_ <? _)%N = true |- _ => apply N.ltb_lt in H
  | H : (_ <? _)%N = false |- _ => apply N.ltb_ge in H
  | H : (_ =? _)%N = true |- _ => apply N.eqb_eq in H
  | H : (_ =? _)%N = false |- _ => apply N.eqb_neq in H
  end.

Lemma utf8_decode_bounds (n : nat) : forall (bs : list N) (s : str),
  length bs <= n -> utf8_decode bs = Ok s ->
  length s <= length bs /\ Forall scalar_value s.
Proof.
  induction n as [|n IH]; intros bs s L H.
  - destruct bs; [|simpl in L; lia]. injection H as <-. split; [lia|constructor].
  - destruct bs as [|b0 r0]; [injection H as <-; split; [simpl; lia|constructor]|].
    cbn [utf8_decode] in H. simpl in L.
    destruct (b0 <? 0x80)%N eqn:A.
    { apply push_ok in H. destruct H as [s' [E ->]].
      destruct (IH r0 s' ltac:(lia) E) as [L' F].
      split; [simpl; lia|]. constructor; [|exact F].
      range_facts. unfold scalar_value. lia. }
    destruct r0 as [|b1 r1]; [discriminate|]. simpl in L.
    destruct (in_range 0xC2 0xDF b0) eqn:B2.
    { destruct (continuation b1) eqn:C1; [|discriminate].
      apply push_ok in H. destruct H as [s' [E ->]].
      destruct (IH r1 s' ltac:(lia) E) as [L' F].
      split; [simpl; lia|]. constructor; [|exact F].
      range_facts. unfold scalar_value. lia. }
    destruct r1 as [|b2 r2]; [discriminate|]. simpl in L.
    destruct (in_range 0xE0 0xEF b0) eqn:B3.
    { destruct (second_of_three b0 b1 && continuation b2)%bool eqn:C; [|discriminate].
      apply push_ok in H. destruct H as [s' [E ->]].
      destruct (IH r2 s' ltac:(lia) E) as [L' F].
      split; [simpl; lia|]. constructor; [|exact F].
      unfold second_of_three in C.
      destruct (b0 =? 0xE0)%N eqn:E0; [|destruct (b0 =? 0xED)%N eqn:ED];
        range_facts; unfold scalar_value; lia. }
    destruct r2 as [|b3 r3]; [discriminate|]. simpl in L.
    destruct (in_range 0xF0 0xF4 b0 && second_of_four b0 b1
              && continuation b2 && continuation b3)%bool eqn:C; [|discriminate].
    apply push_ok in H. destruct H as [s' [E ->]].
    destruct (IH r3 s' ltac:(lia) E) as [L' F].
    split; [simpl; lia|]. constructor; [|exact F].
    apply andb_true_iff in C. destruct C as [C C3].
    apply andb_true_iff in C. destruct C as [C C2].
    apply andb_true_iff in C. destruct C as [C0 C1].
    unfold second_of_four in C1.
    destruct (b0 =? 0xF0)%N eqn:F0; [|destruct (b0 =? 0xF4)%N eqn:F4];
      range_facts; unfold scalar_value; lia.
Qed.

Lemma utf8_decode_ascii (bs : list N) :
  Forall (fun b => (b < 128)%N) bs -> utf8_decode bs = Ok bs.
Proof.
  induction 1 as [|b bs Hb _ IH]; [reflexivity|].
  cbn [utf8_decode]. apply N.ltb_lt in Hb.
  change 0x80%N with 128%N. now rewrite Hb, IH.
Qed.

(** X4. What [process_text] returns for a file: never more characters
    than the file has bytes, only Unicode scalar values (no surrogate,
    nothing above U+10FFFF), and no change of the state; a file of ASCII
    bytes is returned character for character. *)
Theorem text_extraction_is_bounded (W : Type) (file_content : bytes) (st : state W) :
  (forall st' text,
      process_text file_content st = (st', Return text) ->
      st' = st
      /\ length text <= length file_content
      /\ Forall scalar_value text)
  /\ (Forall (fun b => (Byte.to_N b < 128)%N) file_content ->
      process_text file_content st = (st, Return (map Byte.to_N file_content))).
Proof.
  unfold process_text, lift, decode_utf8. split.
  - intros st' text H.
    destruct (utf8_decode (map Byte.to_N file_content)) as [s|e] eqn:E; [|discriminate].
    injection H as <- <-. split; [reflexivity|].
    destruct (@utf8_decode_bounds (length (map Byte.to_N file_content)) _ _ (le_n _) E)
      as [L F].
    rewrite length_map in L. now split.
  - intros A. rewrite utf8_decode_ascii; [reflexivity|].
    apply Forall_map. exact A.
Qed.

(** ** Reading a result back through the monad *)

Section Inversion.
Variable W : Type.
Variable libs : Libraries.

Lemma bind_returns {A B} (c : M W A) (k : A -> M W B) (st st' : state W) (b : B) :
  bind c k st = (st', Return b) ->
  exists st1 a, c st = (st1, Return a) /\ k a st1 = (st', Return b).
Proof.
  unfold bind. destruct (c st) as [st1 [a|e|]]; intros H; try discriminate. eauto.
Qed.

Lemma bind_raises {A B} (c : M W A) (k : A -> M W B) (st st' : state W) (e : exn) :
  bind c k st = (st', Raise e) ->
  c st = (st', Raise e)
  \/ exists st1 a, c st = (st1, Return a) /\ k a st1 = (st', Raise e).
Proof.
  unfold bind. destruct (c st) as [st1 [a|e'|]]; intros H; try discriminate.
  - right. eauto.
  - left. injection H as <- <-. reflexivity.
Qed.


Lemma emit_returns (ev : event) (st : state W) :
  emit ev st = (record ev st, Return tt).
Proof. reflexivity. Qed.

End Inversion.

(** ** The thread and the poll loop *)

(** X5. A failure to create the thread is fatal at once: it is logged as
    such, logged again by [handle_request] and raised to the caller; no
    message or run is created and nothing is uploaded. *)
Theorem thread_creation_failure_is_fatal (W : Type) (libs : Libraries) (svc : Service W)
    (fuel : nat) (attachments_folder_id response_folder_id : str)
    (st st1 : state W) (prompts : list str) (w2 : W) (e : exn) :
  ingest libs svc attachments_folder_id st = (st1, Return prompts) ->
  threads_create svc (world st1) = (w2, Err e) ->
  handle_request libs svc fuel attachments_folder_id response_folder_id st
  = (mk_state w2
       (trace st1
          ++ [ LogInfo (lit "Creating thread and adding prompts");
               Call ThreadsCreate;
               LogError (lit "Failed to create thread: " ++ exn_message e);
               LogError (lit "Error in handle_request: " ++ exn_message e) ]),
     Raise e).
Proof.
  intros Hi Ht.
  unfold handle_request, try_except, bind at 1. rewrite Hi.
  unfold converse, bind at 1. cbn [logging_info emit].
  unfold bind at 1, try_except, bind at 1, call. cbn [world trace]. rewrite Ht.
  unfold bind, logging_error, emit, raise. cbn [world trace].
  now rewrite <- !app_assoc.
Qed.

(** X5 on the service that refuses to create a thread. *)
Lemma thread_creation_failure_is_fatal_witness :
  exists st',
    handle_request Mock.libraries Scenario.no_thread 3 (lit "A") (lit "R")
                   (Mock.start (Mock.healthy []))
    = (st', Raise (RemoteError (lit "Connection error.")))
    /\ count KMessagesCreate (trace st') = 0
    /\ uploads (trace st') = [].
Proof.
  eexists. split.
  - apply (@thread_creation_failure_is_fatal
             Mock.world Mock.libraries Scenario.no_thread 3 (lit "A") (lit "R")
             (Mock.start (Mock.healthy []))
             (fst (ingest Mock.libraries Scenario.no_thread (lit "A")
                          (Mock.start (Mock.healthy []))))
             analysis_prompts (Mock.healthy [])
             (RemoteError (lit "Connection error."))).
    + vm_compute. reflexivity.
    + vm_compute. reflexivity.
  - split; vm_compute; reflexivity.
Defined.

Section Polling.
Variable W : Type.
Variable svc : Service W.
Variable thread_id : str.

Lemma poll_settled (fuel : nat) (run : Run) (st : state W) :
  still_running (status run) = false ->
  poll svc fuel thread_id run st = (st, Return run).
Proof. intros S. destruct fuel; cbn [poll]; now rewrite S. Qed.

Lemma poll_shape (fuel : nat) : forall (run r : Run) (st st' : state W),
  poll svc fuel thread_id run st = (st', Return r) ->
  still_running (status r) = false
  /\ exists polled,
       length polled <= fuel
       /\ Forall (fun p => still_running (status p) = true) polled
       /\ answered svc thread_id polled run (world st) r (world st')
       /\ trace st' = trace st ++ poll_trace thread_id polled.
Proof.
  induction fuel as [|fuel IH]; intros run r st st' H.
  - simpl in H. destruct (still_running (status run)) eqn:S; [discriminate|].
    injection H as <- <-. split; [exact S|]. exists []. simpl.
    rewrite app_nil_r. repeat split; auto.
  - cbn [poll] in H. destruct (still_running (status run)) eqn:S.
    + unfold bind at 1, time_sleep, emit in H.
      apply bind_returns in H. destruct H as [st1 [run' [C H]]].
      unfold call in C. cbn [world trace] in C.
      destruct (runs_retrieve svc thread_id (run_id run) (world st)) as [w' [x|e]] eqn:R;
        [|discriminate].
      injection C as <- <-.
      destruct (IH _ _ _ _ H) as [T [polled [L [F [A E]]]]].
      split; [exact T|]. exists (run :: polled).
      split; [simpl; lia|]. split; [now constructor|]. split.
      { cbn [answered]. split; [reflexivity|]. exists w', x. split; [exact R | exact A]. }
      rewrite E. cbn [trace poll_trace flat_map]. now rewrite <- !app_assoc.
    + injection H as <- <-. split; [exact S|]. exists []. simpl.
      rewrite app_nil_r. repeat split; auto. lia.
Qed.

Lemma poll_follows (polled : list Run) :
  forall (fuel : nat) (run r : Run) (st st' : state W),
    still_running (status r) = false ->
    length polled <= fuel ->
    Forall (fun p => still_running (status p) = true) polled ->
    answered svc thread_id polled run (world st) r (world st') ->
    trace st' = trace st ++ poll_trace thread_id polled ->
    poll svc fuel thread_id run st = (st', Return r).
Proof.
  induction polled as [|p rest IH]; intros fuel run r st st' S L F A T.
  - cbn [answered] in A. destruct A as [-> Ew]. cbn [poll_trace flat_map] in T.
    rewrite app_nil_r in T. destruct st as [w tr], st' as [w' tr'].
    cbn [world trace] in *. subst. now apply poll_settled.
  - cbn [answered] in A. destruct A as [-> [w1 [next [R A]]]].
    inversion F as [|? ? Sp Fr]; subst.
    destruct fuel as [|fuel]; [simpl in L; lia|].
    cbn [poll]. rewrite Sp. unfold bind at 1, time_sleep, emit.
    unfold bind at 1, call. cbn [world trace]. rewrite R.
    apply IH; [exact S | simpl in L; lia | exact Fr | exact A |].
    rewrite T. cbn [trace poll_trace flat_map]. now rewrite <- !app_assoc.
Qed.

Lemma poll_raises (fuel : nat) : forall (run : Run) (st st' : state W) (e : exn),
  poll svc fuel thread_id run st = (st', Raise e) ->
  exists tr rid w,
    trace st' = tr ++ [Call (RunsRetrieve thread_id rid)]
    /\ runs_retrieve svc thread_id rid w = (world st', Err e).
Proof.
  induction fuel as [|fuel IH]; intros run st st' e H.
  - simpl in H. destruct (still_running (status run)); discriminate.
  - cbn [poll] in H. destruct (still_running (status run)); [|discriminate].
    unfold bind at 1, time_sleep, emit in H.
    apply bind_raises in H. destruct H as [C|[st1 [run' [C H]]]].
    + unfold call in C. cbn [world trace] in C.
      destruct (runs_retrieve svc thread_id (run_id run) (world st)) as [w' [x|e']] eqn:R;
        [discriminate|].
      injection C as <- <-. cbn [trace world]. eauto.
    + now apply IH in H.
Qed.

Lemma poll_fuel_stable (fuel : nat) : forall (run : Run) (st st' : state W) (o : outcome Run),
  poll svc fuel thread_id run st = (st', o) -> o <> OutOfFuel ->
  forall extra, poll svc (fuel + extra) thread_id run st = (st', o).
Proof.
  induction fuel as [|fuel IH]; intros run st st' o H N extra.
  - simpl in H. destruct (still_running (status run)) eqn:S.
    + injection H as <- <-. contradiction.
    + destruct extra; simpl; rewrite S; exact H.
  - cbn [poll Nat.add] in *. destruct (still_running (status run)); [|exact H].
    unfold bind at 1, time_sleep, emit in H. unfold bind at 1, time_sleep, emit.
    unfold bind in *.
    destruct (call (RunsRetrieve thread_id (run_id run))
                   (runs_retrieve svc thread_id (run_id run))
                   {| world := world st; trace := trace st ++ [Sleep 1] |})
      as [st1 [run'|e|]]; try exact H.
    now apply IH.
Qed.

End Polling.

(** X6. Polling ends with the run [r] exactly when [r] is no longer
    queued, in progress or cancelling and is the answer at the end of a
    chain of retrievals within the budget: the run created is retrieved
    first, each answer that is still running is retrieved in turn, each
    retrieval is preceded by a sleep of one second, and nothing else
    happens.  In particular a run that is not running when created is
    returned as it is, without a sleep and without a call. *)
Theorem polling_ends_on_a_settled_run (W : Type) (svc : Service W) (fuel : nat)
    (thread_id : str) (run r : Run) (st st' : state W) :
  (poll svc fuel thread_id run st = (st', Return r)
   <-> still_running (status r) = false
       /\ exists polled,
            length polled <= fuel
            /\ Forall (fun p => still_running (status p) = true) polled
            /\ answered svc thread_id polled run (world st) r (world st')
            /\ trace st' = trace st ++ poll_trace thread_id polled)
  /\ (still_running (status run) = false ->
      poll svc fuel thread_id run st = (st, Return run)).
Proof.
  split; [|apply poll_settled].
  split; [apply poll_shape|].
  intros [S [polled [L [F [A T]]]]]. now apply poll_follows with polled.
Qed.

(** X6 on a run that completes at the second retrieval, and on a run
    created [failed]. *)
Lemma polling_ends_on_a_settled_run_witness :
  let st := Mock.start (Mock.start_run (Mock.healthy [])) in
  let out := poll Mock.service 2 (lit "thread_1") (mk_runobj (lit "run_1") queued) st in
  snd out = Return (mk_runobj (lit "run_1") completed)
  /\ still_running completed = false
  /\ length (trace (fst out)) = 4
  /\ poll Mock.service 0 (lit "thread_1") (mk_runobj (lit "run_1") failed) st
     = (st, Return (mk_runobj (lit "run_1") failed)).
Proof.
  intros st out.
  assert (H : poll Mock.service 2 (lit "thread_1") (mk_runobj (lit "run_1") queued) st
              = (fst out, Return (mk_runobj (lit "run_1") completed)))
    by (vm_compute; reflexivity).
  destruct (@polling_ends_on_a_settled_run Mock.world Mock.service 2 (lit "thread_1")
              (mk_runobj (lit "run_1") queued) (mk_runobj (lit "run_1") completed)
              st (fst out)) as [[Forward _] _].
  destruct (Forward H) as [S _].
  split; [vm_compute; reflexivity|]. split; [exact S|].
  split; [vm_compute; reflexivity|].
  apply (@polling_ends_on_a_settled_run Mock.world Mock.service 0 (lit "thread_1")
           (mk_runobj (lit "run_1") failed) (mk_runobj (lit "run_1") failed) st st).
  reflexivity.
Defined.

(** ** The poll budget is only a bound *)

Section Budget.
Variable W : Type.

Lemma stable_const {A} (c : M W A) : budget_stable (fun _ => c).
Proof. intros fuel st st' o H _ extra. exact H. Qed.

Lemma stable_bind {A B} (c : nat -> M W A) (k : nat -> A -> M W B) :
  budget_stable c -> (forall a, budget_stable (fun fuel => k fuel a)) ->
  budget_stable (fun fuel => bind (c fuel) (k fuel)).
Proof.
  intros Hc Hk fuel st st' o H N extra. unfold bind in *.
  destruct (c fuel st) as [st1 o1] eqn:C.
  destruct o1 as [a|e|].
  - rewrite (Hc _ _ _ _ C ltac:(discriminate) extra). now apply (Hk a).
  - rewrite (Hc _ _ _ _ C ltac:(discriminate) extra). exact H.
  - injection H as <- <-. contradiction.
Qed.

Lemma stable_try {A} (body : nat -> M W A) (handler : nat -> exn -> M W A) :
  budget_stable body -> (forall e, budget_stable (fun fuel => handler fuel e)) ->
  budget_stable (fun fuel => try_except (body fuel) (handler fuel)).
Proof.
  intros Hc Hk fuel st st' o H N extra. unfold try_except in *.
  destruct (body fuel st) as [st1 o1] eqn:C.
  destruct o1 as [a|e|].
  - rewrite (Hc _ _ _ _ C ltac:(discriminate) extra). exact H.
  - rewrite (Hc _ _ _ _ C ltac:(discriminate) extra). now apply (Hk e).
  - injection H as <- <-. contradiction.
Qed.

Variable libs : Libraries.
Variable svc : Service W.

Lemma stable_poll (thread_id : str) (run : Run) :
  budget_stable (fun fuel => poll svc fuel thread_id run).
Proof. intros fuel st st' o H N extra. now apply poll_fuel_stable. Qed.

Lemma stable_process_prompt (thread_id : str) (n i : nat) (prompt : str) (loc : locals) :
  budget_stable (fun fuel => process_prompt libs svc fuel thread_id n i prompt loc).
Proof.
  unfold process_prompt.
  apply (@stable_bind _ _ (fun _ => submit_attempts svc 3 thread_id i n prompt)
           (fun fuel submitted => match submitted with
                                  | None => _
                                  | Some _ => _
                                  end)); [apply stable_const|].
  intros [message|]; [|apply stable_const].
  apply (@stable_bind _ _ (fun _ => run_attempts svc 3 thread_id i n)
           (fun fuel started => match started with
                                | None => _
                                | Some run => _
                                end)); [apply stable_const|].
  intros [run|]; [|apply stable_const].
  apply (@stable_bind _ _ (fun fuel => poll svc fuel thread_id run) (fun _ run' => _));
    [apply stable_poll|].
  intros run'. apply stable_const.
Qed.

Lemma stable_prompts_loop (thread_id : str) (n : nat) (items : list (nat * str)) :
  forall loc, budget_stable (fun fuel => prompts_loop libs svc fuel thread_id n items loc).
Proof.
  induction items as [|[i prompt] rest IH]; intros loc; cbn [prompts_loop].
  - apply stable_const.
  - apply (@stable_bind _ _ (fun fuel => process_prompt libs svc fuel thread_id n i prompt loc)
             (fun fuel loc' => prompts_loop libs svc fuel thread_id n rest loc'));
      [apply stable_process_prompt|exact IH].
Qed.

Lemma stable_converse (prompts : list str) (response_folder_id : str) :
  budget_stable (fun fuel => converse libs svc fuel prompts response_folder_id).
Proof.
  unfold converse.
  apply (@stable_bind _ _ (fun _ => logging_info _) (fun fuel _ => _)); [apply stable_const|].
  intros _.
  apply (@stable_bind _ _ (fun _ => try_except _ _) (fun fuel thread_id => _));
    [apply stable_const|].
  intros thread_id.
  apply (@stable_bind _ _ (fun fuel => prompts_loop libs svc fuel thread_id _ _ _) (fun _ loc => _));
    [apply stable_prompts_loop|].
  intros loc. apply stable_const.
Qed.

Lemma stable_handle_request (attachments_folder_id response_folder_id : str) :
  budget_stable (fun fuel =>
    handle_request libs svc fuel attachments_folder_id response_folder_id).
Proof.
  unfold handle_request.
  apply (@stable_try _ (fun fuel => bind _ (fun prompts => converse libs svc fuel prompts _))
                    (fun _ e => _)); [|intros e; apply stable_const].
  apply (@stable_bind _ _ (fun _ => ingest libs svc attachments_folder_id)
                     (fun fuel prompts => converse libs svc fuel prompts response_folder_id));
    [apply stable_const|].
  intros prompts. apply stable_converse.
Qed.

End Budget.

(** X7. The poll budget of the model only bounds the polling: a request
    that ends, with a result or with an exception, within some budget ends
    in the same way, in the same state and with the same trace, under
    every larger budget. *)
Theorem result_does_not_depend_on_the_budget (W : Type) (libs : Libraries)
    (svc : Service W) (fuel extra : nat) (attachments_folder_id response_folder_id : str)
    (st st' : state W) (o : outcome unit) :
  handle_request libs svc fuel attachments_folder_id response_folder_id st = (st', o) ->
  o <> OutOfFuel ->
  handle_request libs svc (fuel + extra) attachments_folder_id response_folder_id st
  = (st', o).
Proof. intros H N. now apply (@stable_handle_request W libs svc). Qed.

(** X7 on a request whose runs each need two retrievals. *)
Lemma result_does_not_depend_on_the_budget_witness :
  let st := Mock.start (Mock.healthy []) in
  handle_request Mock.libraries Mock.service (2 + 5) (lit "A") (lit "R") st
  = (fst (handle_request Mock.libraries Mock.service 2 (lit "A") (lit "R") st), Return tt).
Proof.
  intros st.
  apply (@result_does_not_depend_on_the_budget
           Mock.world Mock.libraries Mock.service 2 5 (lit "A") (lit "R") st).
  - vm_compute. reflexivity.
  - discriminate.
Defined.

(** ** Exceptions that leave the loop, and what the loop keeps *)

Section LoopFacts.
Variable W : Type.
Variable libs : Libraries.
Variable svc : Service W.
Variable fuel : nat.
Variable thread_id : str.
Variable n : nat.

Lemma add_messages_state (msgs : list Message) :
  forall (doc : Document) (st st' : state W) (o : outcome Document),
    add_messages libs msgs doc st = (st', o) ->
    st' = st /\ o = appended doc (write_messages libs msgs).
Proof.
  intros doc st st' o H. rewrite add_messages_writes in H.
  injection H as <- <-. split; reflexivity.
Qed.

Lemma write_messages_raises (msgs : list Message) (e : exn) :
  write_messages libs msgs = Err e ->
  exists m, In m msgs
            /\ (first_text m = Err e
                \/ exists r, In r (chat_runs m) /\ docx_add_run libs (run_text r) = Err e).
Proof.
  induction msgs as [|m rest IH]; cbn [write_messages]; [discriminate|].
  destruct (first_text m) as [value|e'] eqn:F.
  - destruct (store_runs libs (chat_runs m)) as [kept|e'] eqn:S.
    + destruct (write_messages libs rest) as [blocks|e'']; [discriminate|].
      intros [= ->]. destruct (IH eq_refl) as [m' [I C]].
      exists m'. split; [now right | exact C].
    + intros [= ->]. exists m. split; [now left|]. right.
      now apply store_runs_raises.
  - intros [= ->]. exists m. split; [now left | now left].
Qed.

Lemma write_messages_paragraphs (msgs : list Message) (blocks : list block) :
  write_messages libs msgs = Ok blocks ->
  length blocks = length msgs /\ Forall (message_paragraph libs) blocks.
Proof.
  revert blocks. induction msgs as [|m rest IH]; intros blocks; cbn [write_messages].
  - intros [= <-]. split; [reflexivity | constructor].
  - destruct (first_text m) as [value|e]; [|discriminate].
    destruct (store_runs libs (chat_runs m)) as [kept|e] eqn:S; [|discriminate].
    destruct (write_messages libs rest) as [later|e]; [|discriminate].
    intros [= <-]. destruct (IH later eq_refl) as [L F].
    split; [simpl; now rewrite L|]. constructor; [|exact F].
    now exists m, kept.
Qed.

Lemma process_prompt_raises_after (i : nat) (prompt : str) (loc : locals)
    (st st' : state W) (e : exn) :
  process_prompt libs svc fuel thread_id n i prompt loc st = (st', Raise e) ->
  exists tr,
    (exists rid w,
        trace st' = tr ++ [Call (RunsRetrieve thread_id rid)]
        /\ runs_retrieve svc thread_id rid w = (world st', Err e))
    \/ (trace st' = tr ++ [Call (MessagesList thread_id)]
        /\ ((exists w, messages_list svc thread_id w = (world st', Err e))
            \/ (exists w messages,
                   messages_list svc thread_id w = (world st', Ok messages)
                   /\ write_messages libs (sorted messages) = Err e))).
Proof.
  unfold process_prompt. intros H.
  apply bind_raises in H. destruct H as [H|[st1 [submitted [H1 H]]]].
  { destruct (submit_attempts_shape svc 3 thread_id i n prompt st)
      as [? [? [? [R _]]]]. rewrite R in H. discriminate. }
  destruct submitted as [message|]; [|discriminate].
  apply bind_raises in H. destruct H as [H|[st2 [started [H2 H]]]].
  { destruct (run_attempts_shape svc 3 thread_id i n st1)
      as [? [? [? [R _]]]]. rewrite R in H. discriminate. }
  destruct started as [run|]; [|discriminate].
  apply bind_raises in H. destruct H as [H|[st3 [run' [H3 H]]]].
  { apply poll_raises in H. destruct H as [tr [rid [w [E R]]]]. exists tr. left. eauto. }
  destruct (not_completed (status run')); [discriminate|].
  apply bind_raises in H. destruct H as [H|[st4 [messages [H4 H]]]].
  { unfold call in H.
    destruct (messages_list svc thread_id (world st3)) as [w' [x|e']] eqn:L;
      [discriminate|]. injection H as <- <-. exists (trace st3). right.
    split; [reflexivity|]. left. cbn [world]. eauto. }
  unfold call in H4.
  destruct (messages_list svc thread_id (world st3)) as [w' [x|e']] eqn:L;
    [|discriminate]. injection H4 as <- <-.
  apply bind_raises in H. destruct H as [H|[st5 [doc [H5 H]]]]; [|discriminate].
  apply add_messages_state in H. destruct H as [-> H].
  exists (trace st3). right. split; [reflexivity|]. right. cbn [world].
  exists (world st3), x. split; [exact L|].
  destruct (write_messages libs (sorted x)); cbn in H; [discriminate | congruence].
Qed.

Lemma prompts_loop_app (done rest : list (nat * str)) :
  forall (loc : locals) (st : state W),
    prompts_loop libs svc fuel thread_id n (done ++ rest) loc st
    = bind (prompts_loop libs svc fuel thread_id n done loc)
           (fun loc' => prompts_loop libs svc fuel thread_id n rest loc') st.
Proof.
  induction done as [|[i prompt] done IH]; intros loc st; [reflexivity|].
  cbn [app prompts_loop]. unfold bind.
  destruct (process_prompt libs svc fuel thread_id n i prompt loc st) as [st1 [loc1|e|]];
    [|reflexivity|reflexivity].
  rewrite IH. reflexivity.
Qed.

Lemma process_prompt_locals (i : nat) (prompt : str) (loc loc' : locals)
    (st st' : state W) :
  process_prompt libs svc fuel thread_id n i prompt loc st = (st', Return loc') ->
  loc' = loc
  \/ exists messages blocks,
       write_messages libs (sorted messages) = Ok blocks
       /\ loc' = mk_locals (chat_doc loc ++ blocks) (Some (sorted messages)).
Proof.
  unfold process_prompt. intros H.
  apply bind_returns in H. destruct H as [st1 [submitted [_ H]]].
  destruct submitted as [message|];
    [|unfold bind, logging_error, emit, ret in H; injection H as _ <-; now left].
  apply bind_returns in H. destruct H as [st2 [started [_ H]]].
  destruct started as [run|];
    [|unfold bind, logging_error, emit, ret in H; injection H as _ <-; now left].
  apply bind_returns in H. destruct H as [st3 [run' [_ H]]].
  destruct (not_completed (status run'));
    [unfold bind, logging_error, emit, ret in H; injection H as _ <-; now left|].
  apply bind_returns in H. destruct H as [st4 [messages [_ H]]].
  apply bind_returns in H. destruct H as [st5 [doc [H5 H]]].
  apply add_messages_state in H5. destruct H5 as [-> D].
  injection H as _ <-. right. exists messages.
  destruct (write_messages libs (sorted messages)) as [blocks|e]; cbn in D;
    [|discriminate].
  exists blocks. split; [reflexivity|]. now injection D as ->.
Qed.

Lemma prompts_loop_locals (items : list (nat * str)) :
  forall (loc loc' : locals) (st st' : state W),
    prompts_loop libs svc fuel thread_id n items loc st = (st', Return loc') ->
    (exists added,
        chat_doc loc' = chat_doc loc ++ added
        /\ Forall (message_paragraph libs) added)
    /\ (sorted_messages loc <> None -> sorted_messages loc' <> None)
    /\ (transcript_sorted loc -> transcript_sorted loc')
    /\ (sorted_messages loc' = None -> chat_doc loc' = chat_doc loc).
Proof.
  induction items as [|[i prompt] rest IH]; intros loc loc' st st' H;
    cbn [prompts_loop] in H.
  - injection H as <- <-. split; [exists []; split; [now rewrite app_nil_r|constructor]|].
    repeat split; auto.
  - apply bind_returns in H. destruct H as [st1 [loc1 [P H]]].
    destruct (IH _ _ _ _ H) as [[added [E F]] [B [S Z]]].
    apply process_prompt_locals in P. destruct P as [->|[messages [blocks [Wm ->]]]].
    + split; [exists added; now split|]. repeat split; auto.
    + cbn [chat_doc sorted_messages] in *. split.
      { exists (blocks ++ added).
        split; [now rewrite E, app_assoc|]. apply Forall_app. split; [|exact F].
        now apply write_messages_paragraphs in Wm. }
      split; [intros _; apply B; discriminate|].
      split; [intros _; apply S; unfold transcript_sorted; cbn; apply sorted_sorted|].
      intros N. exfalso. apply B; [discriminate|exact N].
Qed.




End LoopFacts.

(** X8. An exception leaves the body of the prompt loop only from one of
    four places: [runs.retrieve] during the poll, [messages.list] after a
    completed run, the reading of the first text block of a listed
    message, and the document library when it rejects the text of a run
    of the chat history.  In each case the trace ends on the call to
    [runs.retrieve] or to [messages.list], the exception stops the loop
    where it is, and the prompts that follow are never submitted. *)
Theorem exception_in_a_prompt_stops_the_loop (W : Type) (libs : Libraries)
    (svc : Service W) (fuel : nat)
    (thread_id : str) (n i : nat) (prompt : str) (done rest : list (nat * str))
    (loc loc1 : locals) (st st1 st2 : state W) (e : exn) :
  prompts_loop libs svc fuel thread_id n done loc st = (st1, Return loc1) ->
  process_prompt libs svc fuel thread_id n i prompt loc1 st1 = (st2, Raise e) ->
  prompts_loop libs svc fuel thread_id n (done ++ (i, prompt) :: rest) loc st = (st2, Raise e)
  /\ exists tr,
       (exists rid w,
           trace st2 = tr ++ [Call (RunsRetrieve thread_id rid)]
           /\ runs_retrieve svc thread_id rid w = (world st2, Err e))
       \/ (trace st2 = tr ++ [Call (MessagesList thread_id)]
           /\ ((exists w, messages_list svc thread_id w = (world st2, Err e))
               \/ (exists w messages m,
                      messages_list svc thread_id w = (world st2, Ok messages)
                      /\ In m messages
                      /\ (first_text m = Err e
                          \/ exists r, In r (chat_runs m)
                                       /\ docx_add_run libs (run_text r) = Err e)))).
Proof.
  intros H1 H2. split.
  { rewrite prompts_loop_app. unfold bind at 1. rewrite H1.
    cbn [prompts_loop]. unfold bind. now rewrite H2. }
  apply process_prompt_raises_after in H2. destruct H2 as [tr [H|[T [H|H]]]].
  - exists tr. now left.
  - exists tr. right. split; [exact T|]. now left.
  - exists tr. right. split; [exact T|]. right.
    destruct H as [w [messages [L Wm]]].
    apply write_messages_raises in Wm. destruct Wm as [m [I C]].
    exists w, messages, m. split; [exact L|]. split; [|exact C].
    eapply Permutation_in; [apply Permutation_sym, sorted_perm | exact I].
Qed.

(** X8 on the service whose run retrieval raises. *)
Lemma exception_in_a_prompt_stops_the_loop_witness :
  let st := Mock.start (Mock.healthy []) in
  let out := prompts_loop Mock.libraries Scenario.broken_retrieve 3 (lit "thread_1") 2
                          [(0, lit "p"); (1, lit "q")] (mk_locals [] None) st in
  snd out = Raise (RemoteError (lit "Request timed out."))
  /\ count KMessagesCreate (trace (fst out)) = 1.
Proof.
  intros st out.
  destruct (@exception_in_a_prompt_stops_the_loop
              Mock.world Mock.libraries Scenario.broken_retrieve 3 (lit "thread_1") 2 0 (lit "p")
              [] [(1, lit "q")] (mk_locals [] None) (mk_locals [] None)
              st st (fst out) (RemoteError (lit "Request timed out.")))
    as [R _].
  - reflexivity.
  - vm_compute. reflexivity.
  - split; [|vm_compute; reflexivity].
    change (snd (prompts_loop Mock.libraries Scenario.broken_retrieve 3 (lit "thread_1") 2
                   ([] ++ [(0, lit "p"); (1, lit "q")]) (mk_locals [] None) st)
            = Raise (RemoteError (lit "Request timed out."))).
    now rewrite R.
Defined.

(** A text file with a form feed: its chunk is submitted, the run
    completes, and writing the submitted message into the chat history
    raises the exception of the document library; the request ends there,
    after one [messages.list] call and with nothing uploaded. *)
Example form_feed_stops_the_request :
  let st := Mock.start (Mock.healthy [(lit "A/notes.txt", [x61; x0c; x62])]) in
  let out := handle_request Mock.libraries Mock.service 2 (lit "A") (lit "R") st in
  snd out
  = Raise (ValueError (lit "All strings must be XML compatible: Unicode or ASCII, no NULL bytes or control characters"))
  /\ count KMessagesCreate (trace (fst out)) = 1
  /\ count KMessagesList (trace (fst out)) = 1
  /\ uploads (trace (fst out)) = [].
Proof. cbv zeta. repeat split; vm_compute; reflexivity. Qed.

(** X9. Whatever happens to the prompts of a loop that ends normally,
    the chat document is only extended, by paragraphs of messages (the
    two runs of a message, as the document library stored them); the
    transcript, once bound, stays bound and is always in creation order;
    and as long as it is unbound the chat document has not changed. *)
Theorem loop_only_extends_the_documents (W : Type) (libs : Libraries) (svc : Service W)
    (fuel : nat) (thread_id : str) (n : nat) (items : list (nat * str))
    (loc loc' : locals) (st st' : state W) :
  prompts_loop libs svc fuel thread_id n items loc st = (st', Return loc') ->
  (exists added,
      chat_doc loc' = chat_doc loc ++ added
      /\ Forall (message_paragraph libs) added)
  /\ (sorted_messages loc <> None -> sorted_messages loc' <> None)
  /\ (transcript_sorted loc -> transcript_sorted loc')
  /\ (sorted_messages loc' = None -> chat_doc loc' = chat_doc loc).
Proof. apply prompts_loop_locals. Qed.

(** X9 on the four fixed prompts, the second of whose runs fails. *)
Lemma loop_only_extends_the_documents_witness :
  let st := Mock.start (Mock.scripted [completed; failed]) in
  let out := prompts_loop Mock.libraries Mock.service 1 (lit "thread_1") 4
                          (enumerate analysis_prompts)
                          (mk_locals [Heading (lit "Chat History") 0] None) st in
  exists loc',
    snd out = Return loc'
    /\ transcript_sorted loc'
    /\ hd (Heading [] 1) (chat_doc loc') = Heading (lit "Chat History") 0.
Proof.
  intros st out.
  pose (loc' := match snd out with
                | Return l => l
                | _ => mk_locals [] None
                end).
  assert (H : prompts_loop Mock.libraries Mock.service 1 (lit "thread_1") 4
                           (enumerate analysis_prompts)
                           (mk_locals [Heading (lit "Chat History") 0] None) st
              = (fst out, Return loc')) by (vm_compute; reflexivity).
  destruct (@loop_only_extends_the_documents _ _ _ _ _ _ _ _ _ _ _ H)
    as [[added [E _]] [_ [S _]]].
  exists loc'. split; [vm_compute; reflexivity|].
  split; [apply S; exact I|]. rewrite E. reflexivity.
Defined.

(** ** What one request does to the remote services *)

Section RequestBounds.
Variable W : Type.
Variable libs : Libraries.
Variable svc : Service W.
Variable w : kind -> nat.
Hypothesis Q : quiet w.

Lemma process_file_quiet (file_name : str) (file_content : bytes) :
  bounded w 0 (process_file (W := W) libs file_name file_content).
Proof.
  destruct Q as [_ [E _]]. unfold process_file.
  destruct (_ || _)%bool.
  { unfold process_excel. apply bounded_weaken with (0 + (w KLogError + 0)); [|lia].
    apply bounded_try; [apply bounded_lift|]. intros e.
    apply bounded_bind; [apply bounded_log_error|]. intros _. apply bounded_ret. }
  destruct (_ || _)%bool.
  { change 0 with (0 + (0 + 0)). apply bounded_bind.
    - destruct (str_eqb _ _); [apply bounded_lift|apply bounded_ret].
    - intros content. unfold process_word. apply bounded_bind; [apply bounded_lift|].
      intros paragraphs. apply bounded_ret. }
  destruct (str_eqb _ _).
  { unfold process_pdf. change 0 with (0 + 0). apply bounded_bind; [apply bounded_lift|].
    intros pages. apply bounded_ret. }
  destruct (str_eqb _ _).
  { unfold process_ppt. change 0 with (0 + 0). apply bounded_bind; [apply bounded_lift|].
    intros slides. apply bounded_ret. }
  destruct (str_eqb _ _); [apply bounded_lift|apply bounded_ret].
Qed.

Lemma download_blobs_quiet (blob_list : list str) : forall file_contents,
  bounded w 0 (download_blobs libs svc blob_list file_contents).
Proof.
  destruct Q as [_ [_ [_ [D _]]]].
  induction blob_list as [|blob_name rest IH]; intros acc; cbn [download_blobs].
  - apply bounded_ret.
  - apply bounded_weaken with (w KDownloadBlob + (0 + 0)); [|lia].
    apply bounded_bind; [now apply (@bounded_call W w _ KDownloadBlob)|].
    intros content. apply bounded_bind; [apply process_file_quiet|].
    intros text. apply IH.
Qed.

Lemma ingest_quiet (attachments_folder_id : str) :
  bounded w (w KStageAttachments + w KListBlobs) (ingest libs svc attachments_folder_id).
Proof.
  destruct Q as [I _]. unfold ingest, download_from_adls.
  apply bounded_weaken
    with (w KStageAttachments + (w KLogInfo + ((w KListBlobs + 0)
            + (w KLogInfo + (w KLogInfo + 0))))); [|lia].
  apply bounded_bind; [now apply (@bounded_call W w _ KStageAttachments)|]. intros _.
  apply bounded_bind; [apply bounded_log_info|]. intros _.
  apply bounded_bind.
  - apply bounded_bind; [now apply (@bounded_call W w _ KListBlobs)|].
    intros blob_list. apply download_blobs_quiet.
  - intros contents. apply bounded_bind; [apply bounded_log_info|]. intros _.
    apply bounded_bind; [apply bounded_log_info|]. intros _. apply bounded_ret.
Qed.

Lemma upload_to_onedrive_quiet (doc : Document) (file_name folder_id : str) :
  bounded w (w KOnedrivePut) (upload_to_onedrive svc doc file_name folder_id).
Proof.
  destruct Q as [I [E _]]. unfold upload_to_onedrive.
  apply bounded_weaken with (w KOnedrivePut + (w KLogInfo + (w KLogError + w KLogError)));
    [|lia].
  apply bounded_bind; [now apply (@bounded_call W w _ KOnedrivePut)|].
  intros [status_code body]. destruct (_ || _)%bool.
  - eapply bounded_weaken; [apply bounded_log_info|lia].
  - eapply bounded_weaken.
    + apply bounded_bind; [apply bounded_log_error|]. intros _. apply bounded_log_error.
    + lia.
Qed.

Lemma prompt_turn_quiet (fuel : nat) : prompt_turn w fuel = 0.
Proof.
  destruct Q as [I [E [S [D [MC [RC [RR ML]]]]]]].
  unfold prompt_turn, submit_turn, run_turn, poll_turn.
  rewrite I, E, S, MC, RC, RR, ML. lia.
Qed.

Lemma converse_quiet (fuel : nat) (prompts : list str) (response_folder_id : str) :
  bounded w (w KThreadsCreate + 2 * w KOnedrivePut)
          (converse libs svc fuel prompts response_folder_id).
Proof.
  pose proof (prompt_turn_quiet fuel) as PT.
  destruct Q as [I [E _]]. unfold converse.
  apply bounded_weaken
    with (w KLogInfo
          + ((w KThreadsCreate + (w KLogInfo + 0) + (w KLogError + 0))
             + (length (enumerate prompts) * prompt_turn w fuel
                + (0 + (0 + (w KOnedrivePut + w KOnedrivePut)))))); [|rewrite PT; lia].
  apply bounded_bind; [apply bounded_log_info|]. intros _.
  apply bounded_bind.
  - apply bounded_try.
    + apply bounded_bind; [now apply (@bounded_call W w _ KThreadsCreate)|].
      intros thread_id. apply bounded_bind; [apply bounded_log_info|]. intros _.
      apply bounded_ret.
    + intros e. apply bounded_bind; [apply bounded_log_error|]. intros _.
      apply bounded_raise.
  - intros thread_id. apply bounded_bind; [apply prompts_loop_bounded|].
    intros loc. apply bounded_bind; [apply bounded_lift|]. intros last_response.
    apply bounded_bind.
    + apply bounded_pure.
    + intros draft. apply bounded_bind; [apply upload_to_onedrive_quiet|].
      intros _. apply upload_to_onedrive_quiet.
Qed.

Lemma handle_request_quiet (fuel : nat) (attachments_folder_id response_folder_id : str) :
  bounded w (w KStageAttachments + w KListBlobs + w KThreadsCreate + 2 * w KOnedrivePut)
          (handle_request libs svc fuel attachments_folder_id response_folder_id).
Proof.
  pose proof Q as [I [E _]]. unfold handle_request.
  apply bounded_weaken
    with (((w KStageAttachments + w KListBlobs) + (w KThreadsCreate + 2 * w KOnedrivePut))
          + (w KLogError + 0)); [|lia].
  apply bounded_try.
  - apply bounded_bind; [apply ingest_quiet|]. intros prompts. apply converse_quiet.
  - intros e. apply bounded_bind; [apply bounded_log_error|]. intros _.
    apply bounded_raise.
Qed.

End RequestBounds.

Lemma only_quiet (k : kind) :
  In k [KStageAttachments; KListBlobs; KThreadsCreate; KOnedrivePut] -> quiet (only k).
Proof.
  intros [<-|[<-|[<-|[<-|[]]]]]; repeat split; reflexivity.
Qed.

(** X10. Whatever the services answer and however the request ends, one
    request stages the attachments at most once, lists the archive at
    most once, creates at most one thread and uploads at most two
    documents. *)
Theorem request_uses_one_thread_and_two_uploads (W : Type) (libs : Libraries)
    (svc : Service W) (fuel : nat) (attachments_folder_id response_folder_id : str)
    (st : state W) :
  exists delta,
    trace (fst (handle_request libs svc fuel attachments_folder_id response_folder_id st))
    = trace st ++ delta
    /\ count KStageAttachments delta <= 1
    /\ count KListBlobs delta <= 1
    /\ count KThreadsCreate delta <= 1
    /\ count KOnedrivePut delta <= 2.
Proof.
  assert (G : forall k, In k [KStageAttachments; KListBlobs; KThreadsCreate; KOnedrivePut] ->
              exists delta,
                trace (fst (handle_request libs svc fuel attachments_folder_id
                                           response_folder_id st)) = trace st ++ delta
                /\ count k delta
                   <= only k KStageAttachments + only k KListBlobs
                      + only k KThreadsCreate + 2 * only k KOnedrivePut).
  { intros k Hk.
    apply (@handle_request_quiet W libs svc (only k) (@only_quiet k Hk) fuel
             attachments_folder_id response_folder_id st). }
  destruct (G KStageAttachments) as [d [E B1]]; [simpl; auto|].
  destruct (G KListBlobs) as [d2 [E2 B2]]; [simpl; auto|].
  destruct (G KThreadsCreate) as [d3 [E3 B3]]; [simpl; auto|].
  destruct (G KOnedrivePut) as [d4 [E4 B4]]; [simpl; auto|].
  rewrite E in E2, E3, E4. apply app_inv_head in E2, E3, E4. subst d2 d3 d4.
  exists d. split; [exact E|]. cbn in B1, B2, B3, B4. repeat split; lia.
Qed.

(** ** A request that returns *)

Section Returned.
Variable W : Type.
Variable libs : Libraries.
Variable svc : Service W.




End Returned.



(** ** The archive download and the files without an extractor *)

Lemma downloads_app (a b : list event) : downloads (a ++ b) = downloads a ++ downloads b.
Proof. unfold downloads. now rewrite flat_map_app. Qed.

Section Download.
Variable W : Type.
Variable libs : Libraries.
Variable svc : Service W.

Lemma process_file_trace (file_name : str) (file_content : bytes)
    (st st' : state W) (o : outcome str) :
  process_file libs file_name file_content st = (st', o) ->
  world st' = world st
  /\ downloads (trace st') = downloads (trace st)
  /\ o <> OutOfFuel.
Proof.
  unfold process_file.
  destruct (_ || _)%bool.
  { unfold process_excel, try_except, lift, bind, logging_error, emit, ret.
    destruct (read_excel_to_string libs file_content); intros H; injection H as <- <-;
      cbn [world trace]; rewrite ?downloads_app, ?app_nil_r;
      repeat split; auto; discriminate. }
  destruct (_ || _)%bool.
  { unfold bind, process_word, bind, lift, ret.
    destruct (str_eqb _ _).
    - destruct (convert_doc_to_docx libs file_content) as [c|e];
        [destruct (docx_paragraph_texts libs c)|];
        intros H; injection H as <- <-; repeat split; auto; discriminate.
    - destruct (docx_paragraph_texts libs file_content);
        intros H; injection H as <- <-; repeat split; auto; discriminate. }
  destruct (str_eqb _ _).
  { unfold process_pdf, bind, lift, ret. destruct (pdf_page_texts libs file_content);
      intros H; injection H as <- <-; repeat split; auto; discriminate. }
  destruct (str_eqb _ _).
  { unfold process_ppt, bind, lift, ret. destruct (pptx_shape_texts libs file_content);
      intros H; injection H as <- <-; repeat split; auto; discriminate. }
  destruct (str_eqb _ _).
  { unfold process_text, lift. destruct (decode_utf8 file_content);
      intros H; injection H as <- <-; repeat split; auto; discriminate. }
  unfold ret. intros H. injection H as <- <-. repeat split; auto; discriminate.
Qed.

Lemma download_blobs_trace (blob_list : list str) :
  forall (file_contents : list str) (st st' : state W) (o : outcome (list str)),
    download_blobs libs svc blob_list file_contents st = (st', o) ->
    exists done,
      downloads (trace st') = downloads (trace st) ++ done
      /\ match o with
         | Return texts =>
             done = blob_list
             /\ length texts = length file_contents + length blob_list
             /\ firstn (length file_contents) texts = file_contents
         | Raise _ => exists rest, blob_list = done ++ rest /\ done <> []
         | OutOfFuel => False
         end.
Proof.
  induction blob_list as [|blob_name rest IH]; intros acc st st' o H;
    cbn [download_blobs] in H.
  - injection H as <- <-. exists []. rewrite app_nil_r. split; [reflexivity|].
    split; [reflexivity|]. split; [simpl; lia|apply firstn_all].
  - unfold bind at 1, call in H.
    destruct (download_blob svc blob_name (world st)) as [w' [content|e]].
    + cbn [world trace] in H. unfold bind at 1 in H.
      destruct (process_file libs blob_name content
                  {| world := w'; trace := trace st ++ [Call (DownloadBlob blob_name)] |})
        as [st1 o1] eqn:P.
      apply process_file_trace in P. destruct P as [_ [D N]]. cbn [trace] in D.
      rewrite downloads_app in D. cbn in D.
      destruct o1 as [text|e|]; [| |contradiction].
      * apply IH in H. destruct H as [done [E M]].
        exists (blob_name :: done). rewrite E, D, <- app_assoc. split; [reflexivity|].
        destruct o as [texts|e|]; [| |exact M].
        -- destruct M as [-> [L F]]. split; [reflexivity|].
           rewrite length_app in L. simpl in L. split; [simpl; lia|].
           rewrite length_app in F. simpl in F.
           apply (f_equal (firstn (length acc))) in F.
           rewrite firstn_firstn, Nat.min_l in F by lia.
           now rewrite F, firstn_app_exact.
        -- destruct M as [rest' [-> NE]]. exists rest'. split; [reflexivity|discriminate].
      * injection H as <- <-. exists [blob_name]. rewrite D. split; [reflexivity|].
        exists rest. split; [reflexivity|discriminate].
    + cbn [world trace] in H. injection H as <- <-. exists [blob_name].
      cbn [trace]. rewrite downloads_app. split; [reflexivity|].
      exists rest. split; [reflexivity|discriminate].
Qed.

End Download.

(** X12. [download_from_adls] lists the archive once and then takes the
    blobs one at a time in listing order.  When it returns it has
    downloaded every listed blob and gives one text per blob; when a
    download or an extraction raises it has stopped at that blob, and the
    blobs listed after it were never downloaded. *)
Theorem archive_is_read_in_listing_order (W : Type) (libs : Libraries) (svc : Service W)
    (attachments_folder_id : str) (st : state W) :
  let out := download_from_adls libs svc attachments_folder_id st in
  match list_blobs svc (attachments_folder_id ++ lit "/") (world st) with
  | (_, Err e) => snd out = Raise e /\ downloads (trace (fst out)) = downloads (trace st)
  | (_, Ok blob_list) =>
      exists done,
        downloads (trace (fst out)) = downloads (trace st) ++ done
        /\ match snd out with
           | Return texts => done = blob_list /\ length texts = length blob_list
           | Raise _ => exists rest, blob_list = done ++ rest /\ done <> []
           | OutOfFuel => False
           end
  end.
Proof.
  cbv zeta. unfold download_from_adls, bind, call.
  destruct (list_blobs svc (attachments_folder_id ++ lit "/") (world st))
    as [w' [blob_list|e]]; cbn [world trace fst snd].
  - match goal with |- context [download_blobs _ _ _ _ ?s] =>
      destruct (download_blobs libs svc blob_list [] s) as [st' o] eqn:D end.
    apply download_blobs_trace in D. destruct D as [done [E M]].
    exists done. cbn [trace fst snd] in *. rewrite downloads_app in E. cbn in E.
    rewrite app_nil_r in E. split; [exact E|].
    destruct o as [texts|e|]; [|exact M|exact M].
    destruct M as [-> [L _]]. split; [reflexivity|exact L].
  - split; [reflexivity|]. rewrite downloads_app. cbn. now rewrite app_nil_r.
Qed.

Lemma rfind_at_none (f : codepoint -> bool) (s : str) : forall pos best,
  Forall (fun c => f c = false) s -> rfind_at f s pos best = best.
Proof.
  induction s as [|c s IH]; intros pos best H; [reflexivity|].
  inversion H as [|? ? Hc Hs]; subst. cbn [rfind_at]. rewrite Hc. now apply IH.
Qed.

Lemma rfind_at_lower_bound (f : codepoint -> bool) (s : str) : forall pos best,
  (best <= rfind_at f s pos best \/ pos <= rfind_at f s pos best)%Z.
Proof.
  induction s as [|c s IH]; intros pos best; cbn [rfind_at]; [left; lia|].
  destruct (f c).
  - destruct (IH (pos + 1)%Z pos); [right; lia|right; lia].
  - destruct (IH (pos + 1)%Z best); [left; lia|right; lia].
Qed.

(** X13. A file without an extractor never fails the batch: when the
    lower-cased extension of its name is not one of the seven supported
    ones, [process_file] returns the text "Unsupported file type: " and
    that extension, whatever the content, without reading it and without
    any effect; a name without a dot has the empty extension and is such a
    file. *)
Theorem unsupported_file_becomes_text (W : Type) (libs : Libraries)
    (file_name : str) (file_content : bytes) (st : state W) :
  (~ In (lower libs (snd (splitext libs file_name))) supported_extensions ->
   process_file libs file_name file_content st
   = (st, Return (lit "Unsupported file type: "
                    ++ lower libs (snd (splitext libs file_name)))))
  /\ (Forall (fun c => c <> 46%N) file_name ->
      process_file libs file_name file_content st
      = (st, Return (lit "Unsupported file type: "))).
Proof.
  assert (G : ~ In (lower libs (snd (splitext libs file_name))) supported_extensions ->
              process_file libs file_name file_content st
              = (st, Return (lit "Unsupported file type: "
                               ++ lower libs (snd (splitext libs file_name))))).
  { intros N. unfold process_file.
    assert (F : forall ext, In ext supported_extensions ->
                  str_eqb (lower libs (snd (splitext libs file_name))) ext = false).
    { intros ext Hin. destruct (str_eqb _ ext) eqn:E; [|reflexivity].
      apply str_eqb_eq in E. rewrite E in N. contradiction. }
    unfold supported_extensions in F.
    rewrite !F by (simpl; auto 10). reflexivity. }
  split; [exact G|].
  intros D.
  assert (E : snd (splitext libs file_name) = []).
  { unfold splitext.
    rewrite (rfind_at_none (N.eqb 46) (s := file_name)).
    - destruct (rfind_at_lower_bound
                  (fun c => existsb (N.eqb c) (os_path_seps libs)) file_name 0 (-1)) as [L|L];
        destruct (Z.ltb_spec
                    (rfind_at (fun c => existsb (N.eqb c) (os_path_seps libs))
                              file_name 0 (-1)) (-1)); try reflexivity; lia.
    - eapply Forall_impl; [|exact D]. intros c Hc. cbv beta in Hc.
      apply N.eqb_neq. congruence. }
  rewrite G; rewrite E; [reflexivity|].
  cbn. intuition discriminate.
Qed.

(** X13 on a name without extension. *)
Lemma unsupported_file_becomes_text_witness :
  process_file Mock.libraries (lit "A/README") [xff] (Mock.start (Mock.healthy []))
  = (Mock.start (Mock.healthy []), Return (lit "Unsupported file type: ")).
Proof.
  destruct (@unsupported_file_becomes_text Mock.world Mock.libraries (lit "A/README")
              [xff] (Mock.start (Mock.healthy []))) as [_ H].
  apply H. repeat constructor; discriminate.
Defined.

(** ** The background thread *)

Lemma handle_request_raises (W : Type) (libs : Libraries) (svc : Service W) (fuel : nat)
    (attachments_folder_id response_folder_id : str) (st st' : state W) (e : exn) :
  handle_request libs svc fuel attachments_folder_id response_folder_id st = (st', Raise e) ->
  exists tr, trace st' = tr ++ [LogError (lit "Error in handle_request: " ++ exn_message e)].
Proof.
  unfold handle_request, try_except.
  match goal with |- context [bind ?c ?k st] => destruct (bind c k st) as [st1 [a|e'|]] end;
    intros H; try discriminate.
  unfold bind, logging_error, emit, raise in H. injection H as <- <-.
  cbn [trace]. eauto.
Qed.

(** X14. No exception leaves the background thread: when
    [handle_request] raises, [handle_request_in_background] ends normally
    after two error records, the one of [handle_request] and its own; when
    [handle_request] returns, it ends with the "completed" record. *)
Theorem background_failures_end_in_the_log (W : Type) (libs : Libraries)
    (svc : Service W) (fuel : nat) (attachments_folder_id response_folder_id : str)
    (st : state W) :
  let ids := attachments_folder_id ++ lit ", Response Folder ID: " ++ response_folder_id in
  let started :=
    record (LogInfo (lit "Background processing started for Attachments Folder ID: " ++ ids))
           st in
  let out := handle_request_in_background libs svc fuel attachments_folder_id
                                          response_folder_id st in
  (forall e, snd out <> Raise e)
  /\ match handle_request libs svc fuel attachments_folder_id response_folder_id started with
     | (st1, Return _) =>
         out = (record (LogInfo (lit "Background processing completed for Attachments Folder ID: "
                                   ++ ids)) st1,
                Return tt)
     | (st1, Raise e) =>
         out = (record (LogError (lit "Error processing request in background: "
                                    ++ exn_message e)) st1,
                Return tt)
         /\ exists tr,
              trace st1 = tr ++ [LogError (lit "Error in handle_request: " ++ exn_message e)]
     | (st1, OutOfFuel) => out = (st1, OutOfFuel)
     end.
Proof.
  cbv zeta. unfold record.
  destruct (handle_request libs svc fuel attachments_folder_id response_folder_id _)
    as [st1 o] eqn:H.
  unfold handle_request_in_background, try_except, bind, logging_info, logging_error, emit.
  cbn [world trace]. rewrite H.
  destruct o as [[]|e|]; cbn [fst snd].
  - split; [intros e; discriminate|reflexivity].
  - split; [intros e'; discriminate|].
    split; [reflexivity|]. now apply handle_request_raises in H.
  - split; [intros e; discriminate|reflexivity].
Qed.

(** ** Settings, token and archive *)

(** X15. The settings are checked before anything leaves the process, in
    three groups and in this order: the two of OpenAI, the four of
    Microsoft Graph, the two of ADLS.  When one of the eight settings is
    missing or empty, the staging raises [ValueError] with the message of
    the first group that has such a setting, right after the two records
    of the folder ids, and no remote call has been made. *)
Theorem incomplete_settings_stop_before_any_call (W : Type) (libs : Libraries)
    (platform : Upstream.Platform W) (attachments_folder_id response_folder_id : str)
    (s : Upstream.situation W) :
  let missing name :=
    Upstream.unset (Upstream.getenv platform name (Upstream.world s)) in
  Upstream.settings_complete platform (Upstream.world s) = false ->
  Upstream.stage libs platform attachments_folder_id response_folder_id s
  = (Upstream.mk_situation (Upstream.world s)
       (Upstream.happened s
          ++ [ Upstream.Info (lit "Attachments Folder ID: " ++ attachments_folder_id);
               Upstream.Info (lit "Response Folder ID: " ++ response_folder_id) ]),
     Upstream.Raises
       (Upstream.Builtin
          (ValueError
             (if missing "AZURE_OPENAI_API_KEY"%string
                 || missing "AZURE_OPENAI_ENDPOINT"%string
              then lit "Missing required environment variables for OpenAI. Please check your .env file."
              else if missing "MS_GRAPH_CLIENT_ID"%string
                      || missing "MS_GRAPH_CLIENT_SECRET"%string
                      || missing "MS_GRAPH_TENANT_ID"%string
                      || missing "MS_GRAPH_DRIVE_ID"%string
              then lit "Missing required environment variables for Microsoft Graph. Please check your .env file."
              else lit "Missing required environment variables for ADLS. Please check your .env file.")))).
Proof.
  cbv zeta. intros H. unfold Upstream.settings_complete in H. cbn [forallb] in H.
  unfold Upstream.stage, Upstream.bind, Upstream.note.
  cbn [Upstream.world Upstream.happened]. rewrite <- app_assoc. cbn [app].
  destruct (Upstream.unset (Upstream.getenv platform "AZURE_OPENAI_API_KEY" _));
    [reflexivity|].
  destruct (Upstream.unset (Upstream.getenv platform "AZURE_OPENAI_ENDPOINT" _));
    [reflexivity|].
  destruct (Upstream.unset (Upstream.getenv platform "MS_GRAPH_CLIENT_ID" _));
    [reflexivity|].
  destruct (Upstream.unset (Upstream.getenv platform "MS_GRAPH_CLIENT_SECRET" _));
    [reflexivity|].
  destruct (Upstream.unset (Upstream.getenv platform "MS_GRAPH_TENANT_ID" _));
    [reflexivity|].
  destruct (Upstream.unset (Upstream.getenv platform "MS_GRAPH_DRIVE_ID" _));
    [reflexivity|].
  destruct (Upstream.unset (Upstream.getenv platform "ADLS_ACCOUNT_NAME" _));
    [reflexivity|].
  destruct (Upstream.unset (Upstream.getenv platform "ADLS_CONTAINER_NAME" _));
    [reflexivity|].
  discriminate H.
Qed.

(** X15 on a platform whose drive id is empty, and on one that has
    neither an OpenAI key nor an ADLS account. *)
Lemma incomplete_settings_stop_before_any_call_witness :
  let w := Office.mk_office
             (("MS_GRAPH_DRIVE_ID"%string, []) :: Office.all_settings) [] [] [] in
  let w' := Office.mk_office
              [ ("AZURE_OPENAI_ENDPOINT", lit "https://ai");
                ("MS_GRAPH_CLIENT_ID", lit "client"); ("MS_GRAPH_CLIENT_SECRET", lit "secret");
                ("MS_GRAPH_TENANT_ID", lit "tenant"); ("MS_GRAPH_DRIVE_ID", lit "drive");
                ("ADLS_CONTAINER_NAME", lit "container") ]%string [] [] [] in
  let out := Upstream.stage Office.libraries Office.platform (lit "A") (lit "R")
                            (Office.start w) in
  let out' := Upstream.stage Office.libraries Office.platform (lit "A") (lit "R")
                             (Office.start w') in
  snd out
  = Upstream.Raises
      (Upstream.Builtin
         (ValueError (lit "Missing required environment variables for Microsoft Graph. Please check your .env file.")))
  /\ Upstream.remotes (Upstream.happened (fst out)) = []
  /\ snd out'
     = Upstream.Raises
         (Upstream.Builtin
            (ValueError (lit "Missing required environment variables for OpenAI. Please check your .env file.")))
  /\ Upstream.remotes (Upstream.happened (fst out')) = [].
Proof.
  intros w w' out out'.
  assert (E := @incomplete_settings_stop_before_any_call
                 Office.world Office.libraries Office.platform (lit "A") (lit "R")
                 (Office.start w) ltac:(vm_compute; reflexivity)).
  assert (E' := @incomplete_settings_stop_before_any_call
                  Office.world Office.libraries Office.platform (lit "A") (lit "R")
                  (Office.start w') ltac:(vm_compute; reflexivity)).
  fold out in E. fold out' in E'. rewrite E, E'.
  split; [reflexivity|]. split; [reflexivity|]. split; reflexivity.
Defined.

(** X16. [get_access_token]: an answer of the identity provider without
    an ["access_token"] raises "Could not obtain access token" before
    anything is logged; an answer with one writes the token itself to the
    log, in clear, before decoding it, so the token is in the log whether
    the decoding then fails or the token is returned. *)
Theorem access_token_is_logged_in_clear (W : Type) (platform : Upstream.Platform W)
    (client_id client_secret tenant_id scope : str) (s : Upstream.situation W)
    (w1 : W) (result : list (str * json)) :
  Upstream.acquire_token_for_client platform client_id client_secret
      (lit "https://login.microsoftonline.com/" ++ tenant_id) scope (Upstream.world s)
  = (w1, Upstream.Fine result) ->
  let asked := Upstream.Remote (Upstream.AcquireToken client_id
                 (lit "https://login.microsoftonline.com/" ++ tenant_id) scope) in
  let out := Upstream.get_access_token platform client_id client_secret tenant_id scope s in
  match Upstream.dict_lookup result (lit "access_token") with
  | None =>
      out = (Upstream.mk_situation w1 (Upstream.happened s ++ [asked]),
             Upstream.Raises (Upstream.PlainException
                                (lit "Could not obtain access token for scope: " ++ scope)))
  | Some access_token =>
      let logged := Upstream.Info (lit "Obtained access token for scope " ++ scope
                                     ++ lit ": " ++ Upstream.fmt platform access_token) in
      match Upstream.jwt_decode platform access_token with
      | Upstream.Failed e =>
          out = (Upstream.mk_situation w1 (Upstream.happened s ++ [asked; logged]),
                 Upstream.Raises e)
      | Upstream.Fine token_info =>
          out = (Upstream.mk_situation w1
                   (Upstream.happened s
                      ++ [ asked; logged;
                           Upstream.Info (lit "Token info for scope " ++ scope
                                            ++ lit ": " ++ token_info) ]),
                 Upstream.Returns access_token)
      end
  end.
Proof.
  intros H. cbv zeta.
  unfold Upstream.get_access_token, Upstream.bind, Upstream.call, Upstream.note,
    Upstream.lift, Upstream.ret, Upstream.raise.
  cbv beta zeta. rewrite H.
  destruct (Upstream.dict_lookup result (lit "access_token")) as [tok|]; [|reflexivity].
  cbn [Upstream.world Upstream.happened].
  destruct (Upstream.jwt_decode platform tok);
    cbn [Upstream.world Upstream.happened]; rewrite <- !app_assoc; reflexivity.
Qed.

(** X16 on the scripted identity provider. *)
Lemma access_token_is_logged_in_clear_witness :
  Upstream.get_access_token Office.platform (lit "client") (lit "secret")
    (lit "tenant") Upstream.graph_scope (Office.start Office.folder)
  = (Upstream.mk_situation Office.folder
       ([] ++ [ Upstream.Remote
                  (Upstream.AcquireToken (lit "client")
                     (lit "https://login.microsoftonline.com/" ++ lit "tenant")
                     Upstream.graph_scope);
                Upstream.Info (lit "Obtained access token for scope " ++ Upstream.graph_scope
                                 ++ lit ": " ++ lit "eyJ0");
                Upstream.Info (lit "Token info for scope " ++ Upstream.graph_scope
                                 ++ lit ": " ++ lit "{'aud': 'https://graph.microsoft.com'}") ]),
     Upstream.Returns (JString (lit "eyJ0"))).
Proof.
  exact (@access_token_is_logged_in_clear
           Office.world Office.platform (lit "client") (lit "secret") (lit "tenant")
           Upstream.graph_scope (Office.start Office.folder) Office.folder
           [(lit "access_token", JString (lit "eyJ0"))] eq_refl).
Defined.

Section Staging.
Variable W : Type.
Variable libs : Libraries.
Variable platform : Upstream.Platform W.

Lemma complete_settings_pass (w : W) :
  Upstream.settings_complete platform w = true ->
  Upstream.unset (Upstream.getenv platform "AZURE_OPENAI_API_KEY" w) = false
  /\ Upstream.unset (Upstream.getenv platform "AZURE_OPENAI_ENDPOINT" w) = false
  /\ Upstream.unset (Upstream.getenv platform "MS_GRAPH_CLIENT_ID" w) = false
  /\ Upstream.unset (Upstream.getenv platform "MS_GRAPH_CLIENT_SECRET" w) = false
  /\ Upstream.unset (Upstream.getenv platform "MS_GRAPH_TENANT_ID" w) = false
  /\ Upstream.unset (Upstream.getenv platform "MS_GRAPH_DRIVE_ID" w) = false
  /\ Upstream.unset (Upstream.getenv platform "ADLS_ACCOUNT_NAME" w) = false
  /\ Upstream.unset (Upstream.getenv platform "ADLS_CONTAINER_NAME" w) = false.
Proof.
  unfold Upstream.settings_complete. cbn [forallb]. intros H.
  repeat (apply andb_true_iff in H; destruct H as [?H H]).
  repeat match goal with X : negb _ = true |- _ => apply negb_true_iff in X end.
  repeat split; assumption.
Qed.

End Staging.

(** X17. When the listing of the attachments folder is answered with a
    status other than 200, the staging raises an exception that carries
    the status and the text of the answer; the listing request is the
    last event, so nothing is downloaded or archived. *)
Theorem listing_failure_is_fatal (W : Type) (libs : Libraries)
    (platform : Upstream.Platform W) (attachments_folder_id response_folder_id : str)
    (s s3 : Upstream.situation W) (token : json) (w4 : W) (response : Upstream.Response) :
  let setting name := Upstream.setting (Upstream.getenv platform name (Upstream.world s)) in
  let s2 := Upstream.mk_situation (Upstream.world s)
              (Upstream.happened s
                 ++ [ Upstream.Info (lit "Attachments Folder ID: " ++ attachments_folder_id);
                      Upstream.Info (lit "Response Folder ID: " ++ response_folder_id) ]) in
  let url := lit "https://graph.microsoft.com/v1.0/drives/" ++ setting "MS_GRAPH_DRIVE_ID"%string
               ++ lit "/items/" ++ attachments_folder_id ++ lit "/children" in
  let authorization := lit "Bearer " ++ Upstream.fmt platform token in
  Upstream.settings_complete platform (Upstream.world s) = true ->
  Upstream.get_access_token platform (setting "MS_GRAPH_CLIENT_ID"%string)
      (setting "MS_GRAPH_CLIENT_SECRET"%string) (setting "MS_GRAPH_TENANT_ID"%string)
      Upstream.graph_scope s2
  = (s3, Upstream.Returns token) ->
  Upstream.requests_get platform url authorization (Upstream.world s3)
  = (w4, Upstream.Fine response) ->
  Upstream.resp_status response <> 200 ->
  Upstream.stage libs platform attachments_folder_id response_folder_id s
  = (Upstream.mk_situation w4
       (Upstream.happened s3
          ++ [ Upstream.Info (lit "Listing files in the Attachments folder");
               Upstream.Remote (Upstream.HttpGet url authorization) ]),
     Upstream.Raises
       (Upstream.PlainException
          (lit "Failed to list files in the Attachments folder: "
             ++ dec (Upstream.resp_status response) ++ lit " "
             ++ Upstream.resp_text response))).
Proof.
  cbv beta zeta. intros C T G S.
  apply complete_settings_pass in C.
  destruct C as [C1 [C2 [C3 [C4 [C5 [C6 [C7 C8]]]]]]].
  unfold Upstream.stage. unfold Upstream.bind at 1, Upstream.note at 1.
  unfold Upstream.bind at 1, Upstream.note at 1.
  cbn [Upstream.world Upstream.happened].
  rewrite C1, C2, C3, C4, C5, C6, C7, C8. cbn [orb].
  rewrite <- app_assoc. cbn [app].
  unfold Upstream.bind at 1. rewrite T.
  unfold Upstream.bind at 1, Upstream.note at 1. cbn [Upstream.world Upstream.happened].
  unfold Upstream.bind at 1, Upstream.call. cbn [Upstream.world Upstream.happened].
  rewrite G.
  destruct (Nat.eqb_spec (Upstream.resp_status response) 200) as [E|_]; [contradiction|].
  cbn [negb]. unfold Upstream.raise. now rewrite <- app_assoc.
Qed.

(** X17 on a drive that answers the listing with 403. *)
Lemma listing_failure_is_fatal_witness :
  let w := Office.mk_office Office.all_settings [(lit "access_token", JString (lit "eyJ0"))]
             [ (lit "https://graph.microsoft.com/v1.0/drives/drive/items/A/children",
                Upstream.mk_http 403 (lit "accessDenied") (Upstream.Fine JNull) []) ] [] in
  let out := Upstream.stage Office.libraries Office.platform (lit "A") (lit "R")
                            (Office.start w) in
  snd out = Upstream.Raises
              (Upstream.PlainException
                 (lit "Failed to list files in the Attachments folder: 403 accessDenied"))
  /\ length (Upstream.requested (Upstream.happened (fst out))) = 1
  /\ Upstream.archived (Upstream.happened (fst out)) = [].
Proof.
  intros w out.
  pose proof (@listing_failure_is_fatal
                Office.world Office.libraries Office.platform (lit "A") (lit "R")
                (Office.start w)
                (fst (Upstream.get_access_token Office.platform (lit "client") (lit "secret")
                        (lit "tenant") Upstream.graph_scope
                        (Upstream.mk_situation w
                           [ Upstream.Info (lit "Attachments Folder ID: A");
                             Upstream.Info (lit "Response Folder ID: R") ])))
                (JString (lit "eyJ0")) w
                (Upstream.mk_http 403 (lit "accessDenied") (Upstream.Fine JNull) [])) as H.
  cbv zeta in H.
  assert (E := H ltac:(vm_compute; reflexivity) ltac:(vm_compute; reflexivity)
                 ltac:(vm_compute; reflexivity) ltac:(cbn; discriminate)).
  fold out in E. rewrite E. split; [vm_compute; reflexivity|].
  split; vm_compute; reflexivity.
Defined.

(** ** The archive loop ([handle_request] lines 94-106, [upload_to_adls]) *)

(** X18. A listed file whose download is answered with a status other
    than 200 is skipped: the request and one error record are all it
    leaves, nothing is uploaded for it, and the loop goes on with the
    files that follow. *)
Theorem failed_download_is_skipped (W : Type) (libs : Libraries)
    (platform : Upstream.Platform W) (file : json) (rest : list json)
    (authorization drive_id attachments_folder_id adls_account_name adls_container_name : str)
    (s : Upstream.situation W) (file_name file_id : json) (w1 : W)
    (file_response : Upstream.Response) :
  let download_url := lit "https://graph.microsoft.com/v1.0/drives/" ++ drive_id
                        ++ lit "/items/" ++ Upstream.fmt platform file_id ++ lit "/content" in
  Upstream.subscript file (lit "name") = Upstream.Fine file_name ->
  Upstream.subscript file (lit "id") = Upstream.Fine file_id ->
  Upstream.requests_get platform download_url authorization (Upstream.world s)
  = (w1, Upstream.Fine file_response) ->
  Upstream.resp_status file_response <> 200 ->
  Upstream.archive_files libs platform (file :: rest) authorization drive_id
    attachments_folder_id adls_account_name adls_container_name s
  = Upstream.archive_files libs platform rest authorization drive_id
      attachments_folder_id adls_account_name adls_container_name
      (Upstream.mk_situation w1
         (Upstream.happened s
            ++ [ Upstream.Remote (Upstream.HttpGet download_url authorization);
                 Upstream.Error (lit "Failed to download file '"
                                   ++ Upstream.fmt platform file_name ++ lit "': "
                                   ++ dec (Upstream.resp_status file_response)) ])).
Proof.
  cbv zeta. intros N I G S.
  cbn [Upstream.archive_files]. unfold Upstream.archive_file.
  rewrite N, I.
  unfold Upstream.bind, Upstream.lift, Upstream.call, Upstream.note.
  cbv beta zeta. rewrite G.
  destruct (Nat.eqb_spec (Upstream.resp_status file_response) 200) as [E|_]; [contradiction|].
  cbn [Upstream.world Upstream.happened]. rewrite <- app_assoc. reflexivity.
Qed.

(** X18 on the file of the folder that is answered with 404. *)
Lemma failed_download_is_skipped_witness :
  let s := Office.start Office.folder in
  let authorization := lit "Bearer eyJ0" in
  Upstream.archive_files Office.libraries Office.platform
    [Office.item "gone.pdf" "2"; Office.item "notes.txt" "3"] authorization
    (lit "drive") (lit "A") (lit "account") (lit "container") s
  = Upstream.archive_files Office.libraries Office.platform
      [Office.item "notes.txt" "3"] authorization
      (lit "drive") (lit "A") (lit "account") (lit "container")
      (Upstream.mk_situation Office.folder
         ([] ++ [ Upstream.Remote
                    (Upstream.HttpGet
                       (lit "https://graph.microsoft.com/v1.0/drives/" ++ lit "drive"
                          ++ lit "/items/" ++ lit "2" ++ lit "/content") authorization);
                  Upstream.Error (lit "Failed to download file '" ++ lit "gone.pdf"
                                    ++ lit "': " ++ dec 404) ])).
Proof.
  exact (@failed_download_is_skipped
           Office.world Office.libraries Office.platform
           (Office.item "gone.pdf" "2") [Office.item "notes.txt" "3"]
           (lit "Bearer eyJ0") (lit "drive") (lit "A") (lit "account") (lit "container")
           (Office.start Office.folder) (JString (lit "gone.pdf")) (JString (lit "2"))
           Office.folder (Office.page 404 [] [])
           eq_refl eq_refl eq_refl ltac:(cbn; discriminate)).
Defined.

(** X19. Once the blob client is obtained, [upload_to_adls] returns
    whatever [upload_blob] does: the upload is attempted once, and a
    failure of it ends as one error record, not as an exception. *)
Theorem upload_failure_stays_in_upload_to_adls (W : Type) (platform : Upstream.Platform W)
    (file_name : str) (file_content : bytes)
    (attachments_folder_id adls_account_name adls_container_name : str)
    (s : Upstream.situation W) (w1 : W) :
  let blob_name := attachments_folder_id ++ lit "/" ++ file_name in
  let out := Upstream.upload_to_adls platform file_name file_content attachments_folder_id
               adls_account_name adls_container_name s in
  Upstream.get_blob_client platform adls_account_name adls_container_name blob_name
    (Upstream.world s) = (w1, Upstream.Fine tt) ->
  snd out = Upstream.Returns tt
  /\ Upstream.world (fst out) = fst (Upstream.upload_blob platform blob_name file_content w1)
  /\ Upstream.archived (Upstream.happened (fst out))
     = Upstream.archived (Upstream.happened s) ++ [(blob_name, file_content)]
  /\ Upstream.errors_logged (Upstream.happened (fst out))
     = Upstream.errors_logged (Upstream.happened s)
         ++ match snd (Upstream.upload_blob platform blob_name file_content w1) with
            | Upstream.Fine _ => []
            | Upstream.Failed e =>
                [lit "Failed to upload " ++ file_name ++ lit " to ADLS: "
                   ++ Upstream.error_message e]
            end.
Proof.
  intros blob_name out G. unfold out, Upstream.upload_to_adls.
  fold blob_name.
  unfold Upstream.bind, Upstream.try_except, Upstream.call, Upstream.note.
  rewrite G. cbn [Upstream.world Upstream.happened].
  destruct (Upstream.upload_blob platform blob_name file_content w1) as [w2 [u|e]];
    cbn [fst snd Upstream.world Upstream.happened];
    unfold Upstream.archived, Upstream.errors_logged;
    rewrite !flat_map_app; cbn [flat_map app]; rewrite !app_nil_r;
    repeat split; reflexivity.
Qed.

(** X19 on the text file whose upload the store refuses. *)
Lemma upload_failure_stays_in_upload_to_adls_witness :
  let out := Upstream.upload_to_adls Office.platform (lit "notes.txt") [x6f; x6b]
               (lit "A") (lit "account") (lit "container") (Office.start Office.folder) in
  snd out = Upstream.Returns tt
  /\ Upstream.archived (Upstream.happened (fst out)) = [(lit "A/notes.txt", [x6f; x6b])]
  /\ Upstream.errors_logged (Upstream.happened (fst out))
     = [lit "Failed to upload notes.txt to ADLS: AuthorizationFailure"].
Proof.
  intros out.
  destruct (@upload_failure_stays_in_upload_to_adls
              Office.world Office.platform (lit "notes.txt") [x6f; x6b]
              (lit "A") (lit "account") (lit "container")
              (Office.start Office.folder) Office.folder eq_refl)
    as [R [_ [A E]]].
  split; [exact R|]. split; [exact A | exact E].
Defined.

Section Archive.
Variable W : Type.
Variable libs : Libraries.
Variable platform : Upstream.Platform W.
Variables authorization drive_id attachments_folder_id : str.
Variables adls_account_name adls_container_name : str.

Ltac split_step :=
  match goal with
  | |- context [match Upstream.subscript ?a ?b with _ => _ end] =>
      destruct (Upstream.subscript a b)
  | |- context [Upstream.requests_get ?p ?u ?a ?w] =>
      destruct (Upstream.requests_get p u a w) as [? [?|?]]
  | |- context [Upstream.resp_status ?r =? 200] =>
      destruct (Upstream.resp_status r =? 200)
  | |- context [match Upstream.name_text ?a with _ => _ end] =>
      destruct (Upstream.name_text a)
  | |- context [if is_doc ?l ?a then _ else _] => destruct (is_doc l a)
  | |- context [match convert_doc_to_docx ?l ?c with _ => _ end] =>
      destruct (convert_doc_to_docx l c)
  | |- context [Upstream.get_blob_client ?p ?a ?c ?b ?w] =>
      destruct (Upstream.get_blob_client p a c b w) as [? [?|?]]
  | |- context [Upstream.upload_blob ?p ?b ?c ?w] =>
      destruct (Upstream.upload_blob p b c w) as [? [?|?]]
  end; cbn [fst snd Upstream.world Upstream.happened].

Lemma adds_events (s : Upstream.situation W) (w : W) (events : list Upstream.happening) :
  adds s (Upstream.mk_situation w (Upstream.happened s ++ events))
       (Upstream.requested events) (Upstream.archived events).
Proof.
  unfold adds, Upstream.requested, Upstream.archived. cbn [Upstream.happened].
  now rewrite !flat_map_app.
Qed.

Lemma adds_nothing (s : Upstream.situation W) : adds s s [] [].
Proof. unfold adds. now rewrite !app_nil_r. Qed.

Ltac trace_step :=
  rewrite <- ?app_assoc; cbn [app];
  match goal with
  | |- exists urls blobs,
         adds ?s {| Upstream.world := _; Upstream.happened := Upstream.happened ?s ++ ?events |}
              urls blobs /\ _ =>
      exists (Upstream.requested events), (Upstream.archived events);
      split; [apply adds_events|]
  | |- exists urls blobs, adds ?s ?s urls blobs /\ _ =>
      exists [], []; split; [apply adds_nothing|]
  end;
  cbn [Upstream.requested Upstream.archived flat_map app length].

Lemma archive_file_adds (file : json) (s : Upstream.situation W) :
  let out := Upstream.archive_file libs platform file authorization drive_id
               attachments_folder_id adls_account_name adls_container_name s in
  exists urls blobs,
    adds s (fst out) urls blobs
    /\ length blobs <= length urls <= 1
    /\ (snd out = Upstream.Returns tt -> length urls = 1).
Proof.
  unfold Upstream.archive_file, Upstream.upload_to_adls, Upstream.bind,
    Upstream.lift, Upstream.call, Upstream.try_except, Upstream.note, Upstream.ret,
    Upstream.raise.
  cbv beta zeta.
  repeat split_step.
  all: trace_step.
  all: split; [lia | try discriminate; try reflexivity].
Qed.

Lemma archive_files_add (files : list json) : forall s : Upstream.situation W,
  let out := Upstream.archive_files libs platform files authorization drive_id
               attachments_folder_id adls_account_name adls_container_name s in
  exists urls blobs,
    adds s (fst out) urls blobs
    /\ length blobs <= length urls <= length files
    /\ (snd out = Upstream.Returns tt -> length urls = length files).
Proof.
  induction files as [|file rest IH]; intros s; cbv zeta.
  - exists [], []. cbn. unfold adds. rewrite !app_nil_r. repeat split; lia.
  - cbn [Upstream.archive_files]. unfold Upstream.bind.
    destruct (archive_file_adds file s) as [urls [blobs [[R A] [L E]]]].
    destruct (Upstream.archive_file libs platform file authorization drive_id
                attachments_folder_id adls_account_name adls_container_name s)
      as [s1 [[]|e]]; cbn [fst snd] in *.
    + destruct (IH s1) as [urls' [blobs' [[R' A'] [L' E']]]].
      exists (urls ++ urls'), (blobs ++ blobs'). unfold adds.
      rewrite R', A', R, A, !app_assoc, !length_app. cbn [length].
      specialize (E eq_refl).
      split; [split; reflexivity|]. split; [lia|]. intros X. rewrite (E' X). lia.
    + exists urls, blobs. unfold adds. cbn [length].
      split; [split; assumption|]. split; [lia | discriminate].
Qed.

End Archive.

(** X20. The archive loop sends at most one download request per listed
    file and archives at most one blob per request; when it returns, it
    has sent exactly one request per listed file. *)
Theorem one_request_per_listed_file (W : Type) (libs : Libraries)
    (platform : Upstream.Platform W) (files : list json)
    (authorization drive_id attachments_folder_id adls_account_name adls_container_name : str)
    (s : Upstream.situation W) :
  let out := Upstream.archive_files libs platform files authorization drive_id
               attachments_folder_id adls_account_name adls_container_name s in
  exists urls blobs,
    Upstream.requested (Upstream.happened (fst out))
    = Upstream.requested (Upstream.happened s) ++ urls
    /\ Upstream.archived (Upstream.happened (fst out))
       = Upstream.archived (Upstream.happened s) ++ blobs
    /\ length blobs <= length urls <= length files
    /\ (snd out = Upstream.Returns tt -> length urls = length files).
Proof.
  intros out.
  destruct (@archive_files_add W libs platform authorization drive_id attachments_folder_id
              adls_account_name adls_container_name files s)
    as [urls [blobs [[R A] [L E]]]].
  exists urls, blobs. split; [exact R|]. split; [exact A|]. split; [exact L | exact E].
Qed.

(** ** From the archive to the extractor *)

Lemma lower_app (libs : Libraries) (a b : str) :
  lower libs (a ++ b) = lower libs a ++ lower libs b.
Proof. unfold lower. apply flat_map_app. Qed.

Lemma endswith_suffix (s suffix : str) :
  endswith s suffix = true <-> exists before, s = before ++ suffix.
Proof.
  unfold endswith. rewrite andb_true_iff, Nat.leb_le, str_eqb_eq. split.
  - intros [_ E]. exists (firstn (length s - length suffix) s).
    rewrite <- E at 2. symmetry. apply firstn_skipn.
  - intros [before ->]. rewrite length_app. split; [lia|].
    replace (length before + length suffix - length suffix) with (length before + 0) by lia.
    rewrite skipn_app, Nat.add_0_r, skipn_all. 
    replace (length before - length before) with 0 by lia. reflexivity.
Qed.

Lemma splitext_suffix (libs : Libraries) (p : str) :
  exists before, p = before ++ snd (splitext libs p).
Proof.
  unfold splitext.
  repeat match goal with |- context [if ?c then _ else _] => destruct c end; cbn [snd];
    try (exists p; symmetry; apply app_nil_r).
  eexists. symmetry. apply firstn_skipn.
Qed.

(** A suffix [".doc"] of [x ++ "/" ++ y] lies in [y]. *)
Lemma doc_suffix_after_slash (x y before : str) :
  x ++ lit "/" ++ y = before ++ lit ".doc" -> exists before', y = before' ++ lit ".doc".
Proof.
  intros E. apply (f_equal (@rev N)) in E.
  rewrite !rev_app_distr in E. cbn in E.
  destruct (rev y) as [|a [|b [|c [|d r]]]] eqn:R; cbn in E; try discriminate.
  injection E as -> -> -> -> _.
  exists (rev r). apply (f_equal (@rev N)) in R. rewrite rev_involutive in R.
  rewrite R. cbn. rewrite <- !app_assoc. reflexivity.
Qed.

Lemma archive_name_is_no_doc (libs : Libraries) (file_name : str) :
  is_doc libs (archive_name libs file_name) = false.
Proof.
  unfold archive_name. destruct (is_doc libs file_name) eqn:D; [|exact D].
  apply not_true_is_false. unfold is_doc. rewrite endswith_suffix.
  intros [before E]. rewrite lower_app in E.
  apply (f_equal (@rev N)) in E. rewrite !rev_app_distr in E. cbn in E.
  discriminate.
Qed.

(** X21. [process_file] never converts a file that the archive loop
    named: the extension it reads from the blob name
    [attachments_folder_id/archive_name] is never [.doc], so its result
    does not depend on the Word converter. *)
Theorem archived_file_is_never_converted (W : Type) (libs : Libraries)
    (attachments_folder_id file_name : str) (file_content : bytes)
    (convert : bytes -> result bytes) :
  let blob_name := attachments_folder_id ++ lit "/" ++ archive_name libs file_name in
  str_eqb (lower libs (snd (splitext libs blob_name))) (lit ".doc") = false
  /\ @process_file W (with_converter libs convert) blob_name file_content
     = @process_file W libs blob_name file_content.
Proof.
  intros blob_name.
  assert (E : str_eqb (lower libs (snd (splitext libs blob_name))) (lit ".doc") = false).
  { apply not_true_is_false. rewrite str_eqb_eq. intros E.
    destruct (splitext_suffix libs blob_name) as [before B].
    apply (f_equal (lower libs)) in B. rewrite lower_app, E in B.
    unfold blob_name in B. rewrite !lower_app in B.
    change (lower libs (lit "/")) with (lit "/") in B.
    apply doc_suffix_after_slash in B.
    apply endswith_suffix in B.
    pose proof (archive_name_is_no_doc libs file_name) as D.
    unfold is_doc in D. congruence. }
  split; [exact E|].
  unfold process_file.
  change (lower (with_converter libs convert)) with (lower libs).
  change (splitext (with_converter libs convert)) with (splitext libs).
  rewrite E. reflexivity.
Qed.
